(** * color-forge: the palette catalog (src/lib/palette-storage.ts) and its
      React view-model (src/hooks/usePalettes.ts)

    The catalog keeps every saved palette in one [localStorage] entry, as the
    JSON text of an array.  The embedding below follows the TypeScript source
    function by function.  JavaScript values that can travel through
    [JSON.parse]/[JSON.stringify] are the inductive type [JSON]; [undefined]
    (a missing property) is [None] of [option JSON].  Strings are Rocq byte
    strings, a text being held as its UTF-8 bytes.  Numbers are integers
    ([Z]): the module never computes with the numbers of a palette, it only
    tests them for truthiness and prints them.  The built-ins of the
    platform the module calls ([JSON.parse], [JSON.stringify],
    [String.prototype.toLowerCase]) are parameters of the embedding.

    Effects (the storage entry, the clock, [Math.random], raised exceptions)
    are threaded through a state-and-exception monad over [World]. *)

From Stdlib Require Import ZArith String Ascii List Lia DecimalString DecimalN.
From stdpp Require Import base strings list.

Set Warnings "-register-all".

Local Open Scope string_scope.
Local Open Scope list_scope.
Local Open Scope Z_scope.

(** ** JavaScript values *)

(** What a JavaScript call gives back: a value, or a raised [Error] with its
    [message].  Every exception this module can meet is an instance of
    [Error], so [error instanceof Error ? error.message : ...] always takes
    the message. *)
Inductive Result (A : Type) : Type :=
| Ok (a : A)
| Throw (msg : string).
Arguments Ok {A} a.
Arguments Throw {A} msg.

Inductive JSON : Type :=
| JNull
| JBool (b : bool)
| JNum (n : Z)
| JStr (s : string)
| JArr (items : list JSON)
| JObj (fields : list (string * JSON)).

(** An object is the list of its own properties, in insertion order. *)
Abbreviation Obj := (list (string * JSON)).

(** [o[k]]; [None] is [undefined]. *)
Fixpoint obj_get (k : string) (o : Obj) : option JSON :=
  match o with
  | [] => None
  | (k', v) :: o' => if String.eqb k k' then Some v else obj_get k o'
  end.

(** [o[k] = v]: an existing key keeps its place, a new key goes last. *)
Fixpoint obj_set (k : string) (v : JSON) (o : Obj) : Obj :=
  match o with
  | [] => [(k, v)]
  | (k', v') :: o' =>
      if String.eqb k k' then (k', v) :: o' else (k', v') :: obj_set k v o'
  end.

(** [{...target, ...source}]: the properties of [source] are set one after the
    other on a copy of [target]. *)
Definition obj_spread (target source : Obj) : Obj :=
  fold_left (fun acc kv => obj_set (fst kv) (snd kv) acc) source target.

(** The own properties a spread [{...v}] copies.  The module only spreads
    values it has found to carry an [id], which are objects. *)
Definition own_props (v : JSON) : Obj :=
  match v with
  | JObj o => o
  | _ => []
  end.

(** JavaScript truthiness ([!x], [x || y], [if (x)]). *)
Definition truthy (v : JSON) : bool :=
  match v with
  | JNull => false
  | JBool b => b
  | JNum n => negb (n =? 0)%Z
  | JStr s => negb (String.eqb s "")
  | JArr _ => true
  | JObj _ => true
  end.

Definition truthy_opt (o : option JSON) : bool :=
  match o with
  | Some v => truthy v
  | None => false
  end.

(** [x || dflt] *)
Definition or_else (x : option JSON) (dflt : JSON) : JSON :=
  match x with
  | Some v => if truthy v then v else dflt
  | None => dflt
  end.

Definition isArray (o : option JSON) : bool :=
  match o with
  | Some (JArr _) => true
  | _ => false
  end.

(** [v.k] for the property names this module reads ([id], [name], [colors],
    [description], ...; never [length] or an index): reading a property of
    [null] raises a TypeError, primitives and arrays have no such property.
    Messages of engine-raised errors are V8's. *)
Definition get_prop (v : JSON) (k : string) : Result (option JSON) :=
  match v with
  | JNull => Throw ("Cannot read properties of null (reading '" +:+ k +:+ "')")
  | JObj o => Ok (obj_get k o)
  | _ => Ok None
  end.

(** Decimal text of an integer, as [String(n)] prints it. *)
Definition Z_to_string (n : Z) : string :=
  if n <? 0 then "-" +:+ NilZero.string_of_uint (N.to_uint (Z.to_N (- n)))
  else NilZero.string_of_uint (N.to_uint (Z.to_N n)).

Fixpoint join (sep : string) (l : list string) : string :=
  match l with
  | [] => ""
  | [x] => x
  | x :: l' => x +:+ sep +:+ join sep l'
  end.

(** [String(v)], as a template literal applies it.  [Array.prototype.join]
    prints [null] entries as the empty string. *)
Fixpoint js_to_string (v : JSON) : string :=
  match v with
  | JNull => "null"
  | JBool true => "true"
  | JBool false => "false"
  | JNum n => Z_to_string n
  | JStr s => s
  | JArr l =>
      join "," (List.map (fun x => match x with
                                   | JNull => ""
                                   | _ => js_to_string x
                                   end) l)
  | JObj _ => "[object Object]"
  end.

(** ** Strings *)

(** Texts are held as their UTF-8 bytes. *)

(** The small letter of an ASCII capital; any other byte is kept. *)
Definition lower_ascii (c : ascii) : ascii :=
  let n := nat_of_ascii c in
  if (65 <=? n)%nat && (n <=? 90)%nat then ascii_of_nat (n + 32) else c.

(** A text with its ASCII capitals lowered. *)
Fixpoint lower_letters (s : string) : string :=
  match s with
  | EmptyString => EmptyString
  | String c s' => String (lower_ascii c) (lower_letters s')
  end.

(** [s.startsWith(p)] *)
Fixpoint starts_with (p s : string) : bool :=
  match p with
  | EmptyString => true
  | String a p' =>
      match s with
      | EmptyString => false
      | String b s' => Ascii.eqb a b && starts_with p' s'
      end
  end.

(** [s.includes(sub)]: [sub] starts at some position of [s]. *)
Fixpoint includes (s sub : string) : bool :=
  starts_with sub s ||
  match s with
  | EmptyString => false
  | String _ s' => includes s' sub
  end.

(** [s.substr(start, len)] *)
Definition substr (start len : nat) (s : string) : string :=
  String.substring start len s.

(** ** Dates *)

Definition digits (n : Z) : string :=
  NilZero.string_of_uint (N.to_uint (Z.to_N n)).

Fixpoint zeros (k : nat) : string :=
  match k with
  | O => ""
  | S k' => String "0" (zeros k')
  end.

Definition pad (width : nat) (n : Z) : string :=
  let s := digits n in
  zeros (width - String.length s) +:+ s.

(** Year, month and day of a day number counted from 1970-01-01. *)
Definition civil_from_days (z0 : Z) : Z * Z * Z :=
  let z := z0 + 719468 in
  let era := z / 146097 in
  let doe := z - era * 146097 in
  let yoe := (doe - doe / 1460 + doe / 36524 - doe / 146096) / 365 in
  let y := yoe + era * 400 in
  let doy := doe - (365 * yoe + yoe / 4 - yoe / 100) in
  let mp := (5 * doy + 2) / 153 in
  let d := doy - (153 * mp + 2) / 5 + 1 in
  let m := if mp <? 10 then mp + 3 else mp - 9 in
  (if m <=? 2 then y + 1 else y, m, d).

(** [new Date(t).toISOString()] for a time [t] in milliseconds since the epoch. *)
Definition toISOString (t : Z) : string :=
  let ms := t mod 86400000 in
  let '(y, m, d) := civil_from_days (t / 86400000) in
  let year :=
    if (0 <=? y) && (y <=? 9999) then pad 4 y
    else (if y <? 0 then "-" else "+") +:+ pad 6 (Z.abs y) in
  year +:+ "-" +:+ pad 2 m +:+ "-" +:+ pad 2 d +:+ "T" +:+
  pad 2 (ms / 3600000) +:+ ":" +:+ pad 2 (ms / 60000 mod 60) +:+ ":" +:+
  pad 2 (ms / 1000 mod 60) +:+ "." +:+ pad 3 (ms mod 1000) +:+ "Z".

(** ** The JSON built-ins *)

(** [JSON.parse] and [JSON.stringify(v, null, indent)] are the platform's.
    The catalog is specified for any pair of them; [text_codec] at the end of
    the definitions is a concrete one. *)
Class JSONBuiltin : Type := {
  JSON_parse : string -> Result JSON;
  JSON_stringify : JSON -> nat -> string;
}.

(** ** The text built-in *)

(** [String.prototype.toLowerCase] is the platform's as well.  It lowers by
    the case mappings of Unicode, which are not all character by character
    (a capital sigma is lowered by its place in the word), so the catalog is
    specified for any such function; [sample_text] at the end of the
    definitions is a concrete one for texts of ASCII characters and capital
    sigmas. *)
Class TextBuiltin : Type := {
  toLowerCase : string -> string;
}.

(** ** The world: storage, clock and random source *)

(** A call to the storage entry, as the catalog issues it. *)
Inductive StorageEvent : Type :=
| SetItem (value : string) (stored : bool)
| RemoveItem.

(** [window_defined] is [typeof window !== 'undefined'].  [localStorage] is
    the text under the key ['color-forge-palettes'], [None] when the key was
    never written.  [accepts] tells which values [setItem] stores; for the
    others it raises (quota exceeded).  [clock] lists the successive readings
    of the system clock and [random] the successive texts of
    [Math.random().toString(36)]; [ticks] and [draws] count the readings
    taken.  [issued] and [storage_log] only record what happened: the
    (time, suffix) pairs [generateId] has used, and the calls that wrote to
    the storage entry. *)
Record World : Type := mkWorld {
  window_defined : bool;
  localStorage : option string;
  accepts : string -> bool;
  clock : nat -> Z;
  ticks : nat;
  random : nat -> string;
  draws : nat;
  issued : list (Z * string);
  storage_log : list StorageEvent;
}.

Definition with_storage (s : option string) (e : StorageEvent) (w : World) : World :=
  mkWorld (window_defined w) s (accepts w) (clock w) (ticks w) (random w)
          (draws w) (issued w) (storage_log w ++ [e]).

Definition with_log (e : StorageEvent) (w : World) : World :=
  with_storage (localStorage w) e w.

Definition with_tick (w : World) : World :=
  mkWorld (window_defined w) (localStorage w) (accepts w) (clock w)
          (S (ticks w)) (random w) (draws w) (issued w) (storage_log w).

Definition with_draw (w : World) : World :=
  mkWorld (window_defined w) (localStorage w) (accepts w) (clock w) (ticks w)
          (random w) (S (draws w)) (issued w) (storage_log w).

Definition with_issued (p : Z * string) (w : World) : World :=
  mkWorld (window_defined w) (localStorage w) (accepts w) (clock w) (ticks w)
          (random w) (draws w) (issued w ++ [p]) (storage_log w).

(** ** State and exceptions *)

(** A computation over a state [S] that returns or raises.  The state a raise
    leaves behind is kept: JavaScript does not roll effects back. *)
Definition SE (S A : Type) : Type := S -> Result A * S.

Definition ret {S A : Type} (a : A) : SE S A := fun s => (Ok a, s).

Definition throw {S A : Type} (msg : string) : SE S A := fun s => (Throw msg, s).

Definition lift {S A : Type} (r : Result A) : SE S A := fun s => (r, s).

Definition bind {S A B : Type} (c : SE S A) (k : A -> SE S B) : SE S B :=
  fun s =>
    match c s with
    | (Ok a, s') => k a s'
    | (Throw msg, s') => (Throw msg, s')
    end.

(** [try { body } catch (error) { handler(error.message) }] *)
Definition try_catch {S A : Type} (body : SE S A) (handler : string -> SE S A) : SE S A :=
  fun s =>
    match body s with
    | (Ok a, s') => (Ok a, s')
    | (Throw msg, s') => handler msg s'
    end.

Notation "'let!' x ':=' c 'in' k" := (bind c (fun x => k))
  (at level 10, x name, c at level 100, k at level 200, only parsing).

Abbreviation M := (SE World).

(** [Date.now()] *)
Definition Date_now : M Z :=
  fun w => (Ok (clock w (ticks w)), with_tick w).

(** [new Date().toISOString()] *)
Definition Date_toISOString : M string :=
  let! t := Date_now in
  ret (toISOString t).

(** [Math.random().toString(36)] *)
Definition Math_random_base36 : M string :=
  fun w => (Ok (random w (draws w)), with_draw w).

(** [localStorage.getItem(STORAGE_KEY)].  Without a window the identifier
    [localStorage] is not bound. *)
Definition localStorage_getItem : M (option string) :=
  fun w =>
    if window_defined w then (Ok (localStorage w), w)
    else (Throw "localStorage is not defined", w).

(** [localStorage.setItem(STORAGE_KEY, value)] *)
Definition localStorage_setItem (value : string) : M unit :=
  fun w =>
    if window_defined w then
      if accepts w value then (Ok tt, with_storage (Some value) (SetItem value true) w)
      else (Throw "Failed to execute 'setItem' on 'Storage': Setting the value of 'color-forge-palettes' exceeded the quota.",
            with_log (SetItem value false) w)
    else (Throw "localStorage is not defined", w).

(** [localStorage.removeItem(STORAGE_KEY)] *)
Definition localStorage_removeItem : M unit :=
  fun w =>
    if window_defined w then (Ok tt, with_storage None RemoveItem w)
    else (Throw "localStorage is not defined", w).

(** ** Arrays *)

(** The receiver of [recv.method(...)] where [method] is an array method:
    the items of an array, a TypeError otherwise. *)
Definition as_array (recv method : string) (v : option JSON) : Result (list JSON) :=
  match v with
  | Some (JArr l) => Ok l
  | Some JNull => Throw ("Cannot read properties of null (reading '" +:+ method +:+ "')")
  | None => Throw ("Cannot read properties of undefined (reading '" +:+ method +:+ "')")
  | Some _ => Throw (recv +:+ "." +:+ method +:+ " is not a function")
  end.

(** [[...v]]: arrays and strings are iterable. *)
Definition spread_iter (name : string) (v : JSON) : Result (list JSON) :=
  match v with
  | JArr l => Ok l
  | JStr s => Ok (List.map (fun c => JStr (String c EmptyString)) (list_ascii_of_string s))
  | _ => Throw (name +:+ " is not iterable")
  end.

(** [l.findIndex(f)]; [None] is [-1]. *)
Fixpoint findIndex (f : JSON -> Result bool) (l : list JSON) : Result (option nat) :=
  match l with
  | [] => Ok None
  | x :: l' =>
      match f x with
      | Throw msg => Throw msg
      | Ok true => Ok (Some O)
      | Ok false =>
          match findIndex f l' with
          | Ok (Some i) => Ok (Some (S i))
          | r => r
          end
      end
  end.

(** [l.find(f)]; [None] is [undefined]. *)
Fixpoint find (f : JSON -> Result bool) (l : list JSON) : Result (option JSON) :=
  match l with
  | [] => Ok None
  | x :: l' =>
      match f x with
      | Throw msg => Throw msg
      | Ok true => Ok (Some x)
      | Ok false => find f l'
      end
  end.

(** [l.filter(f)] *)
Fixpoint filter_r (f : JSON -> Result bool) (l : list JSON) : Result (list JSON) :=
  match l with
  | [] => Ok []
  | x :: l' =>
      match f x with
      | Throw msg => Throw msg
      | Ok b =>
          match filter_r f l' with
          | Throw msg => Throw msg
          | Ok r => Ok (if b then x :: r else r)
          end
      end
  end.

(** [l.some(f)] *)
Fixpoint some (f : JSON -> Result bool) (l : list JSON) : Result bool :=
  match l with
  | [] => Ok false
  | x :: l' =>
      match f x with
      | Throw msg => Throw msg
      | Ok true => Ok true
      | Ok false => some f l'
      end
  end.

(** [a || b] on booleans; [b] is not evaluated when [a] holds. *)
Definition or_r (a b : Result bool) : Result bool :=
  match a with
  | Throw msg => Throw msg
  | Ok true => Ok true
  | Ok false => b
  end.

(** [p.id === id] *)
Definition has_id (id : string) (p : JSON) : Result bool :=
  match get_prop p "id" with
  | Throw msg => Throw msg
  | Ok (Some (JStr s)) => Ok (String.eqb s id)
  | Ok _ => Ok false
  end.

(** [p.id !== id] *)
Definition has_other_id (id : string) (p : JSON) : Result bool :=
  match has_id id p with
  | Throw msg => Throw msg
  | Ok b => Ok (negb b)
  end.

(** ** The catalog repository (src/lib/palette-storage.ts) *)

Section Repository.
Context {json : JSONBuiltin} {txt : TextBuiltin}.

(** [getSavedPalettes]: what [JSON.parse] makes of the stored text, whatever
    its shape; the empty array when there is no window, no text, an empty
    text, or a text that does not parse. *)
Definition getSavedPalettes : M JSON :=
  fun w =>
    if negb (window_defined w) then (Ok (JArr []), w)
    else
      try_catch
        (let! stored := localStorage_getItem in
         match stored with
         | Some s => if String.eqb s "" then ret (JArr []) else lift (JSON_parse s)
         | None => ret (JArr [])
         end)
        (fun _ => ret (JArr [])) w.

(** [generateId]: [`palette_${Date.now()}_${Math.random().toString(36).substr(2, 9)}`] *)
Definition make_id (t : Z) (suffix : string) : string :=
  "palette_" +:+ Z_to_string t +:+ "_" +:+ suffix.

Definition generateId : M string :=
  let! t := Date_now in
  let! r := Math_random_base36 in
  let suffix := substr 2 9 r in
  fun w => (Ok (make_id t suffix), with_issued (t, suffix) w).

(** [savePalette] *)
Definition savePalette (palette : Obj) : M string :=
  let! id := generateId in
  let! now := Date_toISOString in
  let savedPalette :=
    JObj (obj_set "updatedAt" (JStr now)
           (obj_set "createdAt" (JStr now)
             (obj_set "id" (JStr id) (obj_spread [] palette)))) in
  let! existingPalettes := getSavedPalettes in
  let! items := lift (spread_iter "existingPalettes" existingPalettes) in
  let updatedPalettes := JArr (items ++ [savedPalette]) in
  try_catch
    (let! _ := localStorage_setItem (JSON_stringify updatedPalettes 0) in
     ret id)
    (fun _ => throw "Failed to save palette").

(** [updatePalette] *)
Definition updatePalette (id : string) (updates : Obj) : M bool :=
  let! palettes := getSavedPalettes in
  let! items := lift (as_array "palettes" "findIndex" (Some palettes)) in
  let! index := lift (findIndex (has_id id) items) in
  match index with
  | None => ret false
  | Some i =>
      let! now := Date_toISOString in
      let updatedPalette :=
        JObj (obj_set "updatedAt" (JStr now)
               (obj_spread (obj_spread [] (own_props (nth i items JNull))) updates)) in
      let palettes' := JArr (<[i := updatedPalette]> items) in
      try_catch
        (let! _ := localStorage_setItem (JSON_stringify palettes' 0) in
         ret true)
        (fun _ => ret false)
  end.

(** [deletePalette] *)
Definition deletePalette (id : string) : M bool :=
  let! palettes := getSavedPalettes in
  let! items := lift (as_array "palettes" "filter" (Some palettes)) in
  let! filteredPalettes := lift (filter_r (has_other_id id) items) in
  if (length filteredPalettes =? length items)%nat then ret false
  else
    try_catch
      (let! _ := localStorage_setItem (JSON_stringify (JArr filteredPalettes) 0) in
       ret true)
      (fun _ => ret false).

(** [getPaletteById]; [JNull] is [null]. *)
Definition getPaletteById (id : string) : M JSON :=
  let! palettes := getSavedPalettes in
  let! items := lift (as_array "palettes" "find" (Some palettes)) in
  let! found := lift (find (has_id id) items) in
  ret (or_else found JNull).

(** [x.toLowerCase()] where [x] was read as the property [recv] *)
Definition toLowerCase_of (recv : string) (x : option JSON) : Result string :=
  match x with
  | Some (JStr s) => Ok (toLowerCase s)
  | Some JNull => Throw "Cannot read properties of null (reading 'toLowerCase')"
  | None => Throw "Cannot read properties of undefined (reading 'toLowerCase')"
  | Some _ => Throw (recv +:+ ".toLowerCase is not a function")
  end.

(** [v.k.toLowerCase().includes(q)] *)
Definition field_includes (recv : string) (v : JSON) (k q : string) : Result bool :=
  match get_prop v k with
  | Throw msg => Throw msg
  | Ok x =>
      match toLowerCase_of (recv +:+ "." +:+ k) x with
      | Throw msg => Throw msg
      | Ok s => Ok (includes s q)
      end
  end.

Definition color_matches (q : string) (color : JSON) : Result bool :=
  or_r (field_includes "color" color "name" q)
       (field_includes "color" color "hex" q).

Definition palette_matches (q : string) (palette : JSON) : Result bool :=
  or_r (field_includes "palette" palette "name" q)
   (or_r (field_includes "palette" palette "description" q)
     (or_r (field_includes "palette" palette "colorTheory" q)
       (match get_prop palette "colors" with
        | Throw msg => Throw msg
        | Ok colors =>
            match as_array "palette.colors" "some" colors with
            | Throw msg => Throw msg
            | Ok l => some (color_matches q) l
            end
        end))).

(** [searchPalettes] *)
Definition searchPalettes (query : string) : M (list JSON) :=
  let! palettes := getSavedPalettes in
  let lowercaseQuery := toLowerCase query in
  let! items := lift (as_array "palettes" "filter" (Some palettes)) in
  lift (filter_r (palette_matches lowercaseQuery) items).

(** [palette.category === category] *)
Definition has_category (category : string) (palette : JSON) : Result bool :=
  match get_prop palette "category" with
  | Throw msg => Throw msg
  | Ok (Some (JStr s)) => Ok (String.eqb s category)
  | Ok _ => Ok false
  end.

(** [getPalettesByCategory] *)
Definition getPalettesByCategory (category : string) : M (list JSON) :=
  let! palettes := getSavedPalettes in
  let! items := lift (as_array "palettes" "filter" (Some palettes)) in
  lift (filter_r (has_category category) items).

(** [exportPalettes] *)
Definition exportPalettes : M string :=
  let! palettes := getSavedPalettes in
  ret (JSON_stringify palettes 2).

(** The result of [importPalettes]. *)
Record ImportResult : Type := mkImportResult {
  success : nat;
  errors : list string;
}.

(** The variables the import loop updates: the array [existingPalettes],
    [errors] and [successCount]. *)
Record ImportAcc : Type := mkImportAcc {
  acc_palettes : JSON;
  acc_errors : list string;
  acc_success : nat;
}.

(** [arr.push(x)] on the array held in [existingPalettes] *)
Definition push (arr x : JSON) : Result JSON :=
  match as_array "existingPalettes" "push" (Some arr) with
  | Throw msg => Throw msg
  | Ok l => Ok (JArr (l ++ [x]))
  end.

(** A property that is known to be defined. *)
Definition defined (x : option JSON) : JSON :=
  match x with
  | Some v => v
  | None => JNull
  end.

(** The body of the loop [for (const palette of importedPalettes)]. *)
Definition import_one (palette : JSON) (acc : ImportAcc) : M ImportAcc :=
  try_catch
    (let! name := lift (get_prop palette "name") in
     let! colors := lift (get_prop palette "colors") in
     if negb (truthy_opt name) || negb (truthy_opt colors) || negb (isArray colors) then
       ret (mkImportAcc (acc_palettes acc)
              (acc_errors acc ++
                 ["Invalid palette: " +:+ js_to_string (or_else name (JStr "unnamed"))])
              (acc_success acc))
     else
       let! newId := generateId in
       let! now := Date_toISOString in
       let! description := lift (get_prop palette "description") in
       let! colorTheory := lift (get_prop palette "colorTheory") in
       let! useCases := lift (get_prop palette "useCases") in
       let! category := lift (get_prop palette "category") in
       let! createdAt := lift (get_prop palette "createdAt") in
       let validPalette :=
         JObj [("id", JStr newId);
               ("name", defined name);
               ("description", or_else description (JStr ""));
               ("colors", defined colors);
               ("colorTheory", or_else colorTheory (JStr ""));
               ("useCases", or_else useCases (JArr []));
               ("category", or_else category (JStr "custom"));
               ("createdAt", or_else createdAt (JStr now));
               ("updatedAt", JStr now)] in
       let! pushed := lift (push (acc_palettes acc) validPalette) in
       ret (mkImportAcc pushed (acc_errors acc) (S (acc_success acc))))
    (fun msg =>
       ret (mkImportAcc (acc_palettes acc)
              (acc_errors acc ++ ["Error importing palette: " +:+ msg])
              (acc_success acc))).

Fixpoint for_of {A : Type} (l : list JSON) (body : JSON -> A -> M A) (acc : A) : M A :=
  match l with
  | [] => ret acc
  | x :: l' =>
      let! acc' := body x acc in
      for_of l' body acc'
  end.

(** [importPalettes] *)
Definition importPalettes (jsonData : string) : M ImportResult :=
  try_catch
    (let! importedPalettes := lift (JSON_parse jsonData) in
     match importedPalettes with
     | JArr records =>
         let! existingPalettes := getSavedPalettes in
         let! acc := for_of records import_one (mkImportAcc existingPalettes [] O) in
         let! _ :=
           if (0 <? acc_success acc)%nat
           then localStorage_setItem (JSON_stringify (acc_palettes acc) 0)
           else ret tt in
         ret (mkImportResult (acc_success acc) (acc_errors acc))
     | _ => throw "Invalid format: expected array of palettes"
     end)
    (fun msg => ret (mkImportResult O ["Failed to parse JSON: " +:+ msg])).

(** [clearAllPalettes] *)
Definition clearAllPalettes : M unit :=
  try_catch localStorage_removeItem (fun _ => ret tt).

(** The result of [getStorageStats]; [categories] lists the counts in the
    order the categories were first met. *)
Record Stats : Type := mkStats {
  totalPalettes : nat;
  totalSize : nat;
  categories : list (string * nat);
}.

(** The property key [acc[x]] uses for a value [x]. *)
Definition prop_key (x : option JSON) : string :=
  match x with
  | None => "undefined"
  | Some v => js_to_string v
  end.

(** [acc[k] = (acc[k] || 0) + 1]; keys that an empty object inherits
    ([constructor], [toString], ...) are not category names. *)
Fixpoint count_up (k : string) (acc : list (string * nat)) : list (string * nat) :=
  match acc with
  | [] => [(k, 1%nat)]
  | (k', n) :: acc' =>
      if String.eqb k k' then (k', S n) :: acc' else (k', n) :: count_up k acc'
  end.

(** [l.reduce((acc, palette) => ..., {})] of [getStorageStats] *)
Fixpoint count_categories (l : list JSON) (acc : list (string * nat))
  : Result (list (string * nat)) :=
  match l with
  | [] => Ok acc
  | palette :: l' =>
      match get_prop palette "category" with
      | Throw msg => Throw msg
      | Ok c => count_categories l' (count_up (prop_key c) acc)
      end
  end.

(** [getStorageStats]; the size of a [Blob] is the byte length of its text. *)
Definition getStorageStats : M Stats :=
  let! palettes := getSavedPalettes in
  let size := String.length (JSON_stringify palettes 0) in
  let! items := lift (as_array "palettes" "reduce" (Some palettes)) in
  let! counts := lift (count_categories items []) in
  ret (mkStats (length items) size counts).

End Repository.
(** ** The view-model (src/hooks/usePalettes.ts) *)

(** The three pieces of React state of [usePalettes]: the mirror of the list,
    the loading flag and the last error message ([None] is [null]). *)
Record View : Type := mkView {
  palettes : JSON;
  loading : bool;
  error : option string;
}.

(** [useState([])], [useState(true)], [useState(null)] *)
Definition initial_view : View := mkView (JArr []) true None.

Abbreviation V := (SE (View * World)).

(** A repository call made from the view-model. *)
Definition in_world {A : Type} (c : M A) : V A :=
  fun s =>
    match c (snd s) with
    | (r, w') => (r, (fst s, w'))
    end.

Definition setPalettes (p : JSON) : V unit :=
  fun s => (Ok tt, (mkView p (loading (fst s)) (error (fst s)), snd s)).

Definition setLoading (b : bool) : V unit :=
  fun s => (Ok tt, (mkView (palettes (fst s)) b (error (fst s)), snd s)).

Definition setError (e : option string) : V unit :=
  fun s => (Ok tt, (mkView (palettes (fst s)) (loading (fst s)) e, snd s)).

(** [setPalettes(prev => f(prev))].  React runs the updater when it renders
    next; an updater that raises does so there, outside the [try] of the
    operation that queued it, and the mirror then stays as it is. *)
Definition setPalettes_with (f : JSON -> M JSON) : V unit :=
  fun s =>
    match f (palettes (fst s)) (snd s) with
    | (Ok p, w') => (Ok tt, (mkView p (loading (fst s)) (error (fst s)), w'))
    | (Throw _, w') => (Ok tt, (fst s, w'))
    end.

(** [l.map(f)] where [f] has effects *)
Fixpoint map_m (f : JSON -> M JSON) (l : list JSON) : M (list JSON) :=
  match l with
  | [] => ret []
  | x :: l' =>
      let! y := f x in
      let! r := map_m f l' in
      ret (y :: r)
  end.

Section ViewModel.
Context {json : JSONBuiltin} {txt : TextBuiltin}.

(** The effect run on mount. *)
Definition mount : V unit :=
  let! _ :=
    try_catch
      (let! savedPalettes := in_world getSavedPalettes in
       let! _ := setPalettes savedPalettes in
       setError None)
      (fun msg => setError (Some msg)) in
  setLoading false.

(** [saveNewPalette]; it raises again what [savePalette] raised. *)
Definition saveNewPalette (paletteData : Obj) : V string :=
  try_catch
    (let! id := in_world (savePalette paletteData) in
     let! newPalette := in_world (getPaletteById id) in
     let! _ :=
       if truthy newPalette
       then setPalettes_with (fun prev =>
              let! l := lift (spread_iter "prev" prev) in
              ret (JArr (l ++ [newPalette])))
       else ret tt in
     let! _ := setError None in
     ret id)
    (fun msg =>
       let! _ := setError (Some msg) in
       throw msg).

(** [palette.id === id ? { ...palette, ...updates, updatedAt: new Date().toISOString() } : palette] *)
Definition patch (id : string) (updates : Obj) (palette : JSON) : M JSON :=
  let! same := lift (has_id id palette) in
  if same : bool then
    let! now := Date_toISOString in
    ret (JObj (obj_set "updatedAt" (JStr now)
                (obj_spread (obj_spread [] (own_props palette)) updates)))
  else ret palette.

(** [updateExistingPalette] *)
Definition updateExistingPalette (id : string) (updates : Obj) : V bool :=
  try_catch
    (let! ok := in_world (updatePalette id updates) in
     let! _ :=
       if ok : bool then
         let! _ := setPalettes_with (fun prev =>
                     let! l := lift (as_array "prev" "map" (Some prev)) in
                     let! l' := map_m (patch id updates) l in
                     ret (JArr l')) in
         setError None
       else ret tt in
     ret ok)
    (fun msg =>
       let! _ := setError (Some msg) in
       ret false).

(** [removePalette] *)
Definition removePalette (id : string) : V bool :=
  try_catch
    (let! ok := in_world (deletePalette id) in
     let! _ :=
       if ok : bool then
         let! _ := setPalettes_with (fun prev =>
                     let! l := lift (as_array "prev" "filter" (Some prev)) in
                     let! l' := lift (filter_r (has_other_id id) l) in
                     ret (JArr l')) in
         setError None
       else ret tt in
     ret ok)
    (fun msg =>
       let! _ := setError (Some msg) in
       ret false).

(** [search] *)
Definition search (query : string) : V (list JSON) :=
  try_catch
    (in_world (searchPalettes query))
    (fun msg =>
       let! _ := setError (Some msg) in
       ret []).

(** [getByCategory] *)
Definition getByCategory (category : string) : V (list JSON) :=
  try_catch
    (in_world (getPalettesByCategory category))
    (fun msg =>
       let! _ := setError (Some msg) in
       ret []).

(** [exportData] *)
Definition exportData : V string :=
  try_catch
    (in_world exportPalettes)
    (fun msg =>
       let! _ := setError (Some msg) in
       ret "").

(** [importData] *)
Definition importData (jsonData : string) : V ImportResult :=
  try_catch
    (let! result := in_world (importPalettes jsonData) in
     let! _ :=
       if (0 <? success result)%nat then
         let! updatedPalettes := in_world getSavedPalettes in
         setPalettes updatedPalettes
       else ret tt in
     let! _ := setError None in
     ret result)
    (fun msg =>
       let! _ := setError (Some msg) in
       ret (mkImportResult O [msg])).

(** [clearAll] *)
Definition clearAll : V unit :=
  try_catch
    (let! _ := in_world clearAllPalettes in
     let! _ := setPalettes (JArr []) in
     setError None)
    (fun msg => setError (Some msg)).

(** [getStats] *)
Definition getStats : V Stats :=
  try_catch
    (in_world getStorageStats)
    (fun msg =>
       let! _ := setError (Some msg) in
       ret (mkStats O O [])).

(** [refresh] *)
Definition refresh : V unit :=
  try_catch
    (let! savedPalettes := in_world getSavedPalettes in
     let! _ := setPalettes savedPalettes in
     setError None)
    (fun msg => setError (Some msg)).

(** The operations the view-model hands to its caller. *)
Inductive Call : Type :=
| CallSave (paletteData : Obj)
| CallUpdate (id : string) (updates : Obj)
| CallDelete (id : string)
| CallSearch (query : string)
| CallByCategory (category : string)
| CallExport
| CallImport (jsonData : string)
| CallClearAll
| CallStats
| CallRefresh.

(** The state after a call; what the call returned or raised is dropped. *)
Definition perform (c : Call) (s : View * World) : View * World :=
  match c with
  | CallSave d => snd (saveNewPalette d s)
  | CallUpdate id u => snd (updateExistingPalette id u s)
  | CallDelete id => snd (removePalette id s)
  | CallSearch q => snd (search q s)
  | CallByCategory c => snd (getByCategory c s)
  | CallExport => snd (exportData s)
  | CallImport t => snd (importData t s)
  | CallClearAll => snd (clearAll s)
  | CallStats => snd (getStats s)
  | CallRefresh => snd (refresh s)
  end.

End ViewModel.
(** ** A concrete pair of JSON built-ins *)

(** [text_stringify] prints JSON text the way [JSON.stringify(v, null, indent)]
    lays it out; [text_parse] reads JSON text whose numbers are integers,
    whose [\u] escapes name a byte and whose objects do not repeat a key
    (a repeated key is read as two members). *)

Definition dquote : ascii := ascii_of_nat 34.
Definition backslash : ascii := ascii_of_nat 92.
Definition newline : ascii := ascii_of_nat 10.

Definition hex_digit (n : nat) : ascii :=
  ascii_of_nat (if (n <? 10)%nat then 48 + n else 87 + n).

(** One character of a string literal, escaped as [JSON.stringify] does. *)
Definition escape_char (c : ascii) : string :=
  let n := nat_of_ascii c in
  if (n =? 34)%nat then String backslash (String dquote EmptyString)
  else if (n =? 92)%nat then String backslash (String backslash EmptyString)
  else if (n =? 8)%nat then String backslash "b"
  else if (n =? 9)%nat then String backslash "t"
  else if (n =? 10)%nat then String backslash "n"
  else if (n =? 12)%nat then String backslash "f"
  else if (n =? 13)%nat then String backslash "r"
  else if (n <? 32)%nat then
    String backslash
      (String "u" (String "0" (String "0"
        (String (hex_digit (n / 16)) (String (hex_digit (n mod 16)) EmptyString)))))
  else String c EmptyString.

(** The emitters take the text that follows as their last argument. *)
Fixpoint emit_chars (s : string) (k : string) : string :=
  match s with
  | EmptyString => k
  | String c s' => escape_char c +:+ emit_chars s' k
  end.

Definition emit_string (s : string) (k : string) : string :=
  String dquote (emit_chars s (String dquote k)).

(** The line break and indentation before an item; nothing when [gap] is empty. *)
Definition line (gap ind : string) : string :=
  if String.eqb gap "" then "" else String newline ind.

Definition colon (gap : string) : string :=
  if String.eqb gap "" then ":" else ": ".

Section Emitters.
Variable pr : JSON -> string -> string.
Variables sep col : string.

Fixpoint emit_items (l : list JSON) (k : string) : string :=
  match l with
  | [] => k
  | x :: l' => "," +:+ sep +:+ pr x (emit_items l' k)
  end.

Fixpoint emit_members (l : list (string * JSON)) (k : string) : string :=
  match l with
  | [] => k
  | (key, x) :: l' =>
      "," +:+ sep +:+ emit_string key (col +:+ pr x (emit_members l' k))
  end.

End Emitters.

Fixpoint emit (gap ind : string) (v : JSON) (k : string) : string :=
  match v with
  | JNull => "null" +:+ k
  | JBool true => "true" +:+ k
  | JBool false => "false" +:+ k
  | JNum n => Z_to_string n +:+ k
  | JStr s => emit_string s k
  | JArr [] => "[]" +:+ k
  | JArr (x :: l) =>
      let ind' := ind +:+ gap in
      "[" +:+ line gap ind' +:+
      emit gap ind' x
        (emit_items (emit gap ind') (line gap ind') l
           (line gap ind +:+ "]" +:+ k))
  | JObj [] => "{}" +:+ k
  | JObj ((key, x) :: l) =>
      let ind' := ind +:+ gap in
      "{" +:+ line gap ind' +:+
      emit_string key (colon gap +:+
        emit gap ind' x
          (emit_members (emit gap ind') (line gap ind') (colon gap) l
             (line gap ind +:+ "}" +:+ k)))
  end.

Fixpoint spaces (n : nat) : string :=
  match n with
  | O => ""
  | S n' => String " " (spaces n')
  end.

(** [JSON.stringify(v, null, indent)]; the indentation is at most ten spaces. *)
Definition text_stringify (v : JSON) (indent : nat) : string :=
  emit (spaces (Nat.min indent 10)) "" v "".

Definition is_ws (c : ascii) : bool :=
  let n := nat_of_ascii c in
  (n =? 32)%nat || (n =? 10)%nat || (n =? 13)%nat || (n =? 9)%nat.

Fixpoint skip_ws (s : string) : string :=
  match s with
  | EmptyString => EmptyString
  | String c s' => if is_ws c then skip_ws s' else s
  end.

Definition is_digit (c : ascii) : bool :=
  let n := nat_of_ascii c in (48 <=? n)%nat && (n <=? 57)%nat.

Definition hex_value (c : ascii) : option nat :=
  let n := nat_of_ascii c in
  if (48 <=? n)%nat && (n <=? 57)%nat then Some (n - 48)%nat
  else if (97 <=? n)%nat && (n <=? 102)%nat then Some (n - 87)%nat
  else if (65 <=? n)%nat && (n <=? 70)%nat then Some (n - 55)%nat
  else None.

(** The character [ꯍ] names, when it is a byte. *)
Definition hex4 (a b c d : ascii) : option ascii :=
  match hex_value a, hex_value b, hex_value c, hex_value d with
  | Some x, Some y, Some z, Some t =>
      let n := (((x * 16 + y) * 16 + z) * 16 + t)%nat in
      if (n <? 256)%nat then Some (ascii_of_nat n) else None
  | _, _, _, _ => None
  end.

(** The character a one-letter escape names. *)
Definition unescape (e : ascii) : option ascii :=
  let n := nat_of_ascii e in
  if (n =? 34)%nat then Some dquote
  else if (n =? 92)%nat then Some backslash
  else if (n =? 47)%nat then Some "/"%char
  else if (n =? 98)%nat then Some (ascii_of_nat 8)
  else if (n =? 116)%nat then Some (ascii_of_nat 9)
  else if (n =? 110)%nat then Some (ascii_of_nat 10)
  else if (n =? 102)%nat then Some (ascii_of_nat 12)
  else if (n =? 114)%nat then Some (ascii_of_nat 13)
  else None.

Definition cons_char (c : ascii) (r : option (string * string)) : option (string * string) :=
  match r with
  | Some (s, rest) => Some (String c s, rest)
  | None => None
  end.

(** A string literal after its opening quote: its characters and the text
    after the closing quote. *)
Fixpoint string_body (s : string) : option (string * string) :=
  match s with
  | EmptyString => None
  | String c s' =>
      if Ascii.eqb c dquote then Some (EmptyString, s')
      else if Ascii.eqb c backslash then
        match s' with
        | EmptyString => None
        | String e s'' =>
            if Ascii.eqb e "u" then
              match s'' with
              | String h1 (String h2 (String h3 (String h4 r))) =>
                  match hex4 h1 h2 h3 h4 with
                  | Some x => cons_char x (string_body r)
                  | None => None
                  end
              | _ => None
              end
            else
              match unescape e with
              | Some x => cons_char x (string_body s'')
              | None => None
              end
        end
      else if (nat_of_ascii c <? 32)%nat then None
      else cons_char c (string_body s')
  end.

Fixpoint span_digits (s : string) : string * string :=
  match s with
  | EmptyString => (EmptyString, EmptyString)
  | String c s' =>
      if is_digit c then
        match span_digits s' with
        | (d, r) => (String c d, r)
        end
      else (EmptyString, s)
  end.

Definition parse_nat (s : string) : option (Z * string) :=
  match span_digits s with
  | (d, r) =>
      match NilZero.uint_of_string d with
      | Some u => Some (Z.of_N (N.of_uint u), r)
      | None => None
      end
  end.

Definition parse_number (s : string) : option (Z * string) :=
  match s with
  | String c s' =>
      if Ascii.eqb c "-" then
        match parse_nat s' with
        | Some (n, r) => Some (- n, r)
        | None => None
        end
      else parse_nat s
  | EmptyString => None
  end.

(** [expect lit s]: the text after [lit] when [s] starts with it. *)
Fixpoint expect (lit s : string) : option string :=
  match lit with
  | EmptyString => Some s
  | String a lit' =>
      match s with
      | String b s' => if Ascii.eqb a b then expect lit' s' else None
      | EmptyString => None
      end
  end.

(** The items of an array after the first bracket, up to the closing one. *)
Fixpoint parse_items (n : nat) (pv : string -> option (JSON * string)) (s : string)
  : option (list JSON * string) :=
  match n with
  | O => None
  | S n' =>
      match pv s with
      | None => None
      | Some (x, r) =>
          match skip_ws r with
          | String c r' =>
              if Ascii.eqb c "," then
                match parse_items n' pv r' with
                | Some (l, r'') => Some (x :: l, r'')
                | None => None
                end
              else if Ascii.eqb c "]" then Some ([x], r')
              else None
          | EmptyString => None
          end
      end
  end.

Fixpoint parse_members (n : nat) (pv : string -> option (JSON * string)) (s : string)
  : option (list (string * JSON) * string) :=
  match n with
  | O => None
  | S n' =>
      match skip_ws s with
      | String q s1 =>
          if Ascii.eqb q dquote then
            match string_body s1 with
            | None => None
            | Some (key, s2) =>
                match skip_ws s2 with
                | String c s3 =>
                    if Ascii.eqb c ":" then
                      match pv s3 with
                      | None => None
                      | Some (x, r) =>
                          match skip_ws r with
                          | String c' r' =>
                              if Ascii.eqb c' "," then
                                match parse_members n' pv r' with
                                | Some (l, r'') => Some ((key, x) :: l, r'')
                                | None => None
                                end
                              else if Ascii.eqb c' "}" then Some ([(key, x)], r')
                              else None
                          | EmptyString => None
                          end
                      end
                    else None
                | EmptyString => None
                end
            end
          else None
      | EmptyString => None
      end
  end.

Definition with_value (v : JSON) (r : option string) : option (JSON * string) :=
  match r with
  | Some rest => Some (v, rest)
  | None => None
  end.

(** The value that starts with the character [c], followed by [r]; [pv]
    reads the values nested in it. *)
Definition parse_token (n : nat) (pv : string -> option (JSON * string))
    (c : ascii) (r : string) : option (JSON * string) :=
  if Ascii.eqb c "n" then with_value JNull (expect "ull" r)
  else if Ascii.eqb c "t" then with_value (JBool true) (expect "rue" r)
  else if Ascii.eqb c "f" then with_value (JBool false) (expect "alse" r)
  else if Ascii.eqb c dquote then
    match string_body r with
    | Some (x, r') => Some (JStr x, r')
    | None => None
    end
  else if Ascii.eqb c "[" then
    match expect "]" (skip_ws r) with
    | Some r' => Some (JArr [], r')
    | None =>
        match parse_items n pv r with
        | Some (l, r') => Some (JArr l, r')
        | None => None
        end
    end
  else if Ascii.eqb c "{" then
    match expect "}" (skip_ws r) with
    | Some r' => Some (JObj [], r')
    | None =>
        match parse_members n pv r with
        | Some (l, r') => Some (JObj l, r')
        | None => None
        end
    end
  else
    match parse_number (String c r) with
    | Some (n, r') => Some (JNum n, r')
    | None => None
    end.

Fixpoint parse_value (fuel : nat) (s : string) : option (JSON * string) :=
  match fuel with
  | O => None
  | S fuel' =>
      match skip_ws s with
      | EmptyString => None
      | String c r => parse_token fuel' (parse_value fuel') c r
      end
  end.

(** [JSON.parse]; it raises a SyntaxError on any other text. *)
Definition text_parse (s : string) : Result JSON :=
  match parse_value (S (String.length s)) s with
  | Some (v, r) =>
      if String.eqb (skip_ws r) "" then Ok v
      else Throw "Unexpected non-whitespace character after JSON"
  | None => Throw "Unexpected token in JSON"
  end.

#[export] Instance text_codec : JSONBuiltin := {|
  JSON_parse := text_parse;
  JSON_stringify := text_stringify;
|}.

(** ** A concrete lowering *)

(** [sample_toLowerCase] lowers texts of ASCII characters and Greek capital
    sigmas as [String.prototype.toLowerCase] does.  A capital sigma (the
    bytes 206 163) becomes the final sigma (207 130) when a cased letter
    comes before it and none comes after it, the characters that are
    ignored for case (apostrophe, full stop, colon, circumflex, grave
    accent) being passed over on either side; otherwise it becomes the
    small sigma (207 131).  Bytes of other characters are kept. *)

Definition capital_sigma : string :=
  String (ascii_of_nat 206) (String (ascii_of_nat 163) EmptyString).

Definition small_sigma : string :=
  String (ascii_of_nat 207) (String (ascii_of_nat 131) EmptyString).

Definition final_sigma : string :=
  String (ascii_of_nat 207) (String (ascii_of_nat 130) EmptyString).

Definition is_letter (c : ascii) : bool :=
  let n := nat_of_ascii c in
  ((65 <=? n)%nat && (n <=? 90)%nat) || ((97 <=? n)%nat && (n <=? 122)%nat).

Definition case_ignorable (c : ascii) : bool :=
  let n := nat_of_ascii c in
  (n =? 39)%nat || (n =? 46)%nat || (n =? 58)%nat || (n =? 94)%nat || (n =? 96)%nat.

(** The bytes [c d] are a capital sigma. *)
Definition sigma_bytes (c d : ascii) : bool :=
  (nat_of_ascii c =? 206)%nat && (nat_of_ascii d =? 163)%nat.

(** A cased letter comes next, characters ignored for case apart. *)
Fixpoint cased_ahead (s : string) : bool :=
  match s with
  | EmptyString => false
  | String c s' =>
      if is_letter c then true
      else if case_ignorable c then cased_ahead s'
      else match s' with
           | String d _ => sigma_bytes c d
           | EmptyString => false
           end
  end.

(** Whether a cased letter was the last character that counts, after [c]. *)
Definition cased_after (before : bool) (c : ascii) : bool :=
  if is_letter c then true
  else if case_ignorable c then before
  else false.

Fixpoint lower_from (cased_before : bool) (s : string) : string :=
  match s with
  | EmptyString => EmptyString
  | String c s' =>
      match s' with
      | String d s'' =>
          if sigma_bytes c d then
            if cased_before && negb (cased_ahead s'')
            then String (ascii_of_nat 207) (String (ascii_of_nat 130) (lower_from true s''))
            else String (ascii_of_nat 207) (String (ascii_of_nat 131) (lower_from true s''))
          else String (lower_ascii c) (lower_from (cased_after cased_before c) s')
      | EmptyString => String (lower_ascii c) EmptyString
      end
  end.

Definition sample_toLowerCase (s : string) : string := lower_from false s.

#[export] Instance sample_text : TextBuiltin := {|
  toLowerCase := sample_toLowerCase;
|}.
(** ** Measures and predicates used to state the properties *)

(** A text of blanks only. *)
Fixpoint blank (s : string) : bool :=
  match s with
  | EmptyString => true
  | String c s' => is_ws c && blank s'
  end.

(** A text a number can stand in front of: it does not go on with a digit. *)
Definition stop (k : string) : bool :=
  match k with
  | EmptyString => true
  | String c _ => negb (is_digit c)
  end.

(** A text of digits and minus signs. *)
Fixpoint numeric (s : string) : bool :=
  match s with
  | EmptyString => true
  | String c s' => (is_digit c || Ascii.eqb c "-") && numeric s'
  end.

(** The number of nodes of a value. *)
Fixpoint weight (v : JSON) : nat :=
  match v with
  | JArr l => S (list_sum (List.map weight l))
  | JObj o => S (list_sum (List.map (fun kv => weight (snd kv)) o))
  | _ => 1%nat
  end.

Section Specification.
Context {json : JSONBuiltin} {txt : TextBuiltin}.

(** The value [getSavedPalettes] reads in a world. *)
Definition stored (w : World) : JSON :=
  if window_defined w then
    match localStorage w with
    | Some s =>
        if String.eqb s "" then JArr []
        else match JSON_parse s with
             | Ok v => v
             | Throw _ => JArr []
             end
    | None => JArr []
    end
  else JArr [].

(** Whether [setItem] stores [value]: there is a window and the storage
    takes the value. *)
Definition can_write (w : World) (value : string) : bool :=
  window_defined w && accepts w value.

(** The world a rejected [setItem] leaves. *)
Definition rejected (value : string) (w : World) : World :=
  if window_defined w then with_log (SetItem value false) w else w.

(** [p.id === id] for an object [p] *)
Definition id_is (id : string) (p : Obj) : bool :=
  match obj_get "id" p with
  | Some (JStr s) => String.eqb s id
  | _ => false
  end.

(** The first position of a palette with the given id. *)
Fixpoint index_of (id : string) (ps : list Obj) : option nat :=
  match ps with
  | [] => None
  | p :: ps' =>
      if id_is id p then Some O
      else match index_of id ps' with
           | Some i => Some (S i)
           | None => None
           end
  end.

(** The record [updatePalette] puts in the place of [p]. *)
Definition updated_record (now : string) (updates p : Obj) : Obj :=
  obj_set "updatedAt" (JStr now) (obj_spread (obj_spread [] p) updates).

(** The text [updatePalette] writes for the palette at position [i]. *)
Definition update_text (w : World) (updates : Obj) (ps : list Obj) (i : nat) (p : Obj) : string :=
  JSON_stringify
    (JArr (map JObj
       (<[i := updated_record (toISOString (clock w (ticks w))) updates p]> ps))) 0.

(** *** What [importPalettes] does with a batch *)

(** The records the import loop accepts: objects with a truthy [name] and an
    array under [colors]. *)
Definition acceptable (p : JSON) : bool :=
  match p with
  | JObj o => truthy_opt (obj_get "name" o) && isArray (obj_get "colors" o)
  | _ => false
  end.

(** The message the loop reports for a record it does not accept. *)
Definition rejection (p : JSON) : string :=
  match get_prop p "name" with
  | Throw msg => "Error importing palette: " +:+ msg
  | Ok name => "Invalid palette: " +:+ js_to_string (or_else name (JStr "unnamed"))
  end.

(** The world after one accepted record: [generateId] has read the clock and
    the random source, [new Date()] has read the clock again. *)
Definition stamp (w : World) : World :=
  with_tick
    (with_issued (clock w (ticks w), substr 2 9 (random w (draws w)))
       (with_draw (with_tick w))).

(** The id and the time stamp of the [k]-th record accepted in a batch that
    starts in the world [w]. *)
Definition fresh_id (w : World) (k : nat) : string :=
  make_id (clock w (ticks w + 2 * k)) (substr 2 9 (random w (draws w + k))).

Definition import_time (w : World) (k : nat) : string :=
  toISOString (clock w (ticks w + 2 * k + 1)).

(** The palette stored for the [k]-th accepted record [p]. *)
Definition imported (w : World) (k : nat) (p : JSON) : Obj :=
  let o := own_props p in
  [("id", JStr (fresh_id w k));
   ("name", defined (obj_get "name" o));
   ("description", or_else (obj_get "description" o) (JStr ""));
   ("colors", defined (obj_get "colors" o));
   ("colorTheory", or_else (obj_get "colorTheory" o) (JStr ""));
   ("useCases", or_else (obj_get "useCases" o) (JArr []));
   ("category", or_else (obj_get "category" o) (JStr "custom"));
   ("createdAt", or_else (obj_get "createdAt" o) (JStr (import_time w k)));
   ("updatedAt", JStr (import_time w k))].

(** The palettes stored for a batch, [k] records having been accepted before. *)
Fixpoint import_from (w : World) (k : nat) (records : list JSON) : list Obj :=
  match records with
  | [] => []
  | p :: rest =>
      if acceptable p then imported w k p :: import_from w (S k) rest
      else import_from w k rest
  end.

Definition accepted (records : list JSON) : list JSON :=
  List.filter acceptable records.

Definition refused (records : list JSON) : list JSON :=
  List.filter (fun p => negb (acceptable p)) records.

(** The text [importPalettes] writes when the catalog holds [existing]. *)
Definition import_text (w : World) (existing records : list JSON) : string :=
  JSON_stringify (JArr (existing ++ map JObj (import_from w O records))) 0.

(** *** Valid palettes (the data model of the specification) *)

Definition is_string (x : option JSON) : bool :=
  match x with
  | Some (JStr _) => true
  | _ => false
  end.

Definition is_nonempty_string (x : option JSON) : bool :=
  match x with
  | Some (JStr s) => negb (String.eqb s "")
  | _ => false
  end.

(** [{hex: string, name: string, role: string}] *)
Definition is_color (c : JSON) : bool :=
  match c with
  | JObj o =>
      is_string (obj_get "hex" o) && is_string (obj_get "name" o)
      && is_string (obj_get "role" o)
  | _ => false
  end.

Definition is_colors (x : option JSON) : bool :=
  match x with
  | Some (JArr cs) => forallb is_color cs
  | _ => false
  end.

Definition is_strings (x : option JSON) : bool :=
  match x with
  | Some (JArr l) => forallb (fun v => is_string (Some v)) l
  | _ => false
  end.

Definition category_names : list string :=
  ["classic"; "modern"; "seasonal"; "brand"; "nature"; "custom"].

Definition is_category (x : option JSON) : bool :=
  match x with
  | Some (JStr c) => existsb (String.eqb c) category_names
  | _ => false
  end.

(** A [SavedPalette]: a non-empty name, texts, colors, use cases, one of the
    six categories, and time stamps, which are never empty. *)
Definition valid_palette (p : Obj) : bool :=
  is_string (obj_get "id" p)
  && is_nonempty_string (obj_get "name" p)
  && is_string (obj_get "description" p)
  && is_colors (obj_get "colors" p)
  && is_string (obj_get "colorTheory" p)
  && is_strings (obj_get "useCases" p)
  && is_category (obj_get "category" p)
  && is_nonempty_string (obj_get "createdAt" p)
  && is_nonempty_string (obj_get "updatedAt" p).

(** *** Searching *)

(** A text of ASCII characters. *)
Fixpoint plain (s : string) : bool :=
  match s with
  | EmptyString => true
  | String c s' => (nat_of_ascii c <? 128)%nat && plain s'
  end.

Definition is_capital (c : ascii) : bool :=
  (65 <=? nat_of_ascii c)%nat && (nat_of_ascii c <=? 90)%nat.

(** The same character, or a capital ASCII letter and its small letter. *)
Definition same_letter (a b : ascii) : bool :=
  Ascii.eqb a b
  || (is_capital a && (nat_of_ascii b =? nat_of_ascii a + 32)%nat)
  || (is_capital b && (nat_of_ascii a =? nat_of_ascii b + 32)%nat).

Fixpoint same_letters (s t : string) : bool :=
  match s, t with
  | EmptyString, EmptyString => true
  | String a s', String b t' => same_letter a b && same_letters s' t'
  | _, _ => false
  end.

(** [S] occurs in [T] when case is ignored: some stretch of [T] is [S] up to
    the case of its letters. *)
Definition occurs_ci (S T : string) : Prop :=
  exists pre mid post, T = pre +:+ mid +:+ post /\ same_letters mid S = true.

(** The lowered [S] is a part of the lowered [T]. *)
Definition lowered_in (S T : string) : Prop :=
  exists pre post, toLowerCase T = pre +:+ toLowerCase S +:+ post.

(** The property [x] is a text whose lowering has the lowered [S] as a part. *)
Definition text_mentions (S : string) (x : option JSON) : Prop :=
  exists t, x = Some (JStr t) /\ lowered_in S t.

(** The lowered [S] is a part of the lowered name, description or color
    theory of the palette, or of the lowered name or hex code of one of its
    colors. *)
Definition mentions (S : string) (p : Obj) : Prop :=
  text_mentions S (obj_get "name" p)
  \/ text_mentions S (obj_get "description" p)
  \/ text_mentions S (obj_get "colorTheory" p)
  \/ exists cs c, obj_get "colors" p = Some (JArr cs) /\ In (JObj c) cs
       /\ (text_mentions S (obj_get "name" c) \/ text_mentions S (obj_get "hex" c)).

(** The palettes [searchPalettes] can go through without raising: the texts
    it lowers are strings. *)
Definition searchable_color (c : JSON) : bool :=
  match c with
  | JObj o => is_string (obj_get "name" o) && is_string (obj_get "hex" o)
  | _ => false
  end.

Definition searchable (p : Obj) : bool :=
  is_string (obj_get "name" p)
  && is_string (obj_get "description" p)
  && is_string (obj_get "colorTheory" p)
  && match obj_get "colors" p with
     | Some (JArr cs) => forallb searchable_color cs
     | _ => false
     end.

(** The lowered query [q] is part of the lowered text [x]. *)
Definition text_has (q : string) (x : option JSON) : bool :=
  match x with
  | Some (JStr t) => includes (toLowerCase t) q
  | _ => false
  end.

Definition color_has (q : string) (c : JSON) : bool :=
  text_has q (obj_get "name" (own_props c)) || text_has q (obj_get "hex" (own_props c)).

Definition palette_has (q : string) (p : Obj) : bool :=
  text_has q (obj_get "name" p)
  || text_has q (obj_get "description" p)
  || text_has q (obj_get "colorTheory" p)
  || match obj_get "colors" p with
     | Some (JArr cs) => existsb (color_has q) cs
     | _ => false
     end.

(** *** The view-model's error slot *)

(** The repository calls an operation of the view-model wraps in its [try];
    the flag is the boolean the repository signals, [true] where it signals
    none. *)
Definition wrapped (c : Call) : M bool :=
  match c with
  | CallSave d =>
      let! id := savePalette d in
      let! _ := getPaletteById id in
      ret true
  | CallUpdate id u => updatePalette id u
  | CallDelete id => deletePalette id
  | CallSearch q => let! _ := searchPalettes q in ret true
  | CallByCategory c => let! _ := getPalettesByCategory c in ret true
  | CallExport => let! _ := exportPalettes in ret true
  | CallImport t =>
      let! r := importPalettes t in
      let! _ := if (0 <? success r)%nat then getSavedPalettes else ret JNull in
      ret true
  | CallClearAll => let! _ := clearAllPalettes in ret true
  | CallStats => let! _ := getStorageStats in ret true
  | CallRefresh => let! _ := getSavedPalettes in ret true
  end.

(** The operations that call [setError(null)] when they get through. *)
Definition clears (c : Call) : bool :=
  match c with
  | CallSave _ | CallUpdate _ _ | CallDelete _ | CallImport _
  | CallClearAll | CallRefresh => true
  | CallSearch _ | CallByCategory _ | CallExport | CallStats => false
  end.

(** *** Histories *)

(** A call that changes the catalog. *)
Inductive Op : Type :=
| OpSave (palette : Obj)
| OpUpdate (id : string) (updates : Obj)
| OpDelete (id : string)
| OpImport (jsonData : string)
| OpClear.

(** The world after a call, whatever it returned or raised. *)
Definition exec (op : Op) (w : World) : World :=
  match op with
  | OpSave palette => snd (savePalette palette w)
  | OpUpdate id updates => snd (updatePalette id updates w)
  | OpDelete id => snd (deletePalette id w)
  | OpImport jsonData => snd (importPalettes jsonData w)
  | OpClear => snd (clearAllPalettes w)
  end.

Definition run (ops : list Op) (w : World) : World :=
  fold_left (fun w op => exec op w) ops w.

(** [savePalette] and [importPalettes], the calls that add palettes. *)
Definition creates (op : Op) : bool :=
  match op with
  | OpSave _ | OpImport _ => true
  | _ => false
  end.

(** The record [savePalette] appends. *)
Definition saved_record (id now : string) (palette : Obj) : Obj :=
  obj_set "updatedAt" (JStr now)
    (obj_set "createdAt" (JStr now)
       (obj_set "id" (JStr id) (obj_spread [] palette))).

(** The text [savePalette] writes when the catalog holds [items]. *)
Definition save_text (w : World) (items : list JSON) (palette : Obj) : string :=
  JSON_stringify
    (JArr (items ++ [JObj (saved_record (fresh_id w 0) (import_time w 0) palette)])) 0.

(** The (time, suffix) pair [generateId] uses for the [k]-th id it makes
    from the world [w] on, every id being followed by one more reading of
    the clock. *)
Definition draw_of (w : World) (k : nat) : Z * string :=
  (clock w (ticks w + 2 * k), substr 2 9 (random w (draws w + k))).

(** The keys of an object. *)
Definition keys (o : Obj) : list string := map fst o.



(** The catalog is a list of palettes whose ids are among the ids issued, in
    the order of their issue. *)
Definition ids_issued (w : World) : Prop :=
  exists ps ds,
    stored w = JArr (map JObj ps)
    /\ sublist ds (issued w)
    /\ Forall2 (fun p d => obj_get "id" p = Some (JStr (make_id (fst d) (snd d)))) ps ds.

(** Two worlds with the same storage entry, storage log, clock and random
    source: between them only readings were taken. *)
Definition quiet (w w' : World) : Prop :=
  window_defined w' = window_defined w
  /\ localStorage w' = localStorage w
  /\ accepts w' = accepts w
  /\ clock w' = clock w
  /\ random w' = random w
  /\ storage_log w' = storage_log w.

End Specification.
(** ** Sample worlds *)

(** A browser clock ticking one millisecond per reading. *)
Definition sample_clock (n : nat) : Z := 1700000000000 + Z.of_nat n.

(** A random source that never returns the same text twice. *)
Definition sample_random (n : nat) : string :=
  "0.k" +:+ Z_to_string (Z.of_nat n) +:+ "x7qpl2f9w3".

(** A browser world at its first clock reading: the storage entry holds
    [text] and takes new values when [accept] is set. *)
Definition browser (text : option string) (accept : bool)
    (clk : nat -> Z) (rnd : nat -> string) : World :=
  mkWorld true text (fun _ => accept) clk O rnd O [] [].

(** The text of a catalog, as the repository stores it. *)
Definition catalog_text (ps : list Obj) : string :=
  text_stringify (JArr (map JObj ps)) 0.

Definition coral : JSON :=
  JObj [("hex", JStr "#FF5733"); ("name", JStr "Coral"); ("role", JStr "primary")].

(** A stored palette. *)
Definition sunset : Obj :=
  [("name", JStr "Sunset");
   ("description", JStr "Warm evening tones");
   ("colors", JArr [coral]);
   ("colorTheory", JStr "analogous");
   ("useCases", JArr [JStr "posters"]);
   ("category", JStr "nature");
   ("id", JStr "palette_1699999999000_abc123xyz");
   ("createdAt", JStr "2023-11-14T21:59:59.000Z");
   ("updatedAt", JStr "2023-11-14T21:59:59.000Z")].

(** Records of an import batch: one with the two required fields, one
    without a name, one whose name is the empty string, and one whose
    [createdAt] is the empty string. *)
Definition good_record : JSON :=
  JObj [("name", JStr "Good"); ("colors", JArr [])].

Definition unnamed_record : JSON :=
  JObj [("colors", JArr [])].

Definition empty_name_record : JSON :=
  JObj [("name", JStr ""); ("colors", JArr [])].

Definition undated_record : JSON :=
  JObj [("name", JStr "Dawn"); ("colors", JArr []); ("createdAt", JStr "")].

(** An empty catalog in a browser whose storage takes every write. *)
Definition empty_browser : World :=
  browser None true sample_clock sample_random.

(** A browser whose storage holds [[sunset]] and rejects every write. *)
Definition full_browser : World :=
  browser (Some (catalog_text [sunset])) false sample_clock sample_random.

(** A draft handed to [savePalette]. *)
Definition sunrise_draft : Obj :=
  [("name", JStr "Sunrise");
   ("description", JStr "");
   ("colors", JArr [coral]);
   ("colorTheory", JStr "");
   ("useCases", JArr []);
   ("category", JStr "nature")].

(** The record [savePalette] makes of the draft in [empty_browser]. *)
Definition sunrise : Obj :=
  saved_record (fresh_id empty_browser 0) (import_time empty_browser 0) sunrise_draft.

(** A browser whose clock stands still and whose random source repeats
    itself. *)
Definition stuck_browser : World :=
  browser None true (fun _ => 1700000000000) (fun _ => "0.4fzyo82mvyr").

(** A view-model that has finished loading, with and without an earlier
    error. *)
Definition ready_view : View := mkView (JArr []) false None.

Definition failed_view : View :=
  mkView (JArr []) false (Some "Failed to save palette").
(** ** Further notions: categories, counts and the mirror *)

(** [palette.category === category] for an object *)
Definition category_is (category : string) (p : Obj) : bool :=
  match obj_get "category" p with
  | Some (JStr s) => String.eqb s category
  | _ => false
  end.

(** The count a statistics record holds for a key; 0 when it has none. *)
Fixpoint count_of (k : string) (counts : list (string * nat)) : nat :=
  match counts with
  | [] => O
  | (k', n) :: rest => if String.eqb k k' then n else count_of k rest
  end.

(** The key under which [getStorageStats] counts a palette. *)
Definition category_key (p : Obj) : string := prop_key (obj_get "category" p).

(** The fields [savePalette] sets itself. *)
Definition set_by_save (k : string) : bool :=
  String.eqb k "id" || String.eqb k "createdAt" || String.eqb k "updatedAt".

Section Mirror.
Context {json : JSONBuiltin} {txt : TextBuiltin}.

(** The mirror of the view-model shows what the storage holds. *)
Definition in_step (s : View * World) : Prop :=
  palettes (fst s) = stored (snd s).

(** The text [deletePalette] writes. *)
Definition delete_text (id : string) (ps : list Obj) : string :=
  JSON_stringify
    (JArr (map JObj (List.filter (fun p => negb (id_is id p)) ps))) 0.

End Mirror.

(** A browser opened without a window (rendering on the server). *)
Definition server : World :=
  mkWorld false None (fun _ => true) sample_clock O sample_random O [] [].

(** A browser whose storage holds [[sunset]] and takes every write. *)
Definition sunset_browser : World :=
  browser (Some (catalog_text [sunset])) true sample_clock sample_random.

(** A browser whose storage entry holds the text of an object, not of an
    array. *)
Definition damaged_browser : World :=
  browser (Some "{}") true sample_clock sample_random.

(** A view-model that shows the catalog [[sunset]]. *)
Definition sunset_view : View := mkView (JArr [JObj sunset]) false None.

(** A palette stored without a description. *)
Definition bare : Obj := [("name", JStr "Bare"); ("colors", JArr [])].

Definition bare_browser : World :=
  browser (Some (catalog_text [bare])) true sample_clock sample_random.

(** A palette whose name is a capital A followed by a capital sigma. *)
Definition sigma_name : string := String "A" capital_sigma.

Definition sigma_palette : Obj :=
  [("name", JStr sigma_name);
   ("description", JStr "");
   ("colors", JArr []);
   ("colorTheory", JStr "");
   ("useCases", JArr []);
   ("category", JStr "custom");
   ("id", JStr "palette_1699999999000_sig123abc");
   ("createdAt", JStr "2023-11-14T21:59:59.000Z");
   ("updatedAt", JStr "2023-11-14T21:59:59.000Z")].

Definition sigma_browser : World :=
  browser (Some (catalog_text [sigma_palette])) true sample_clock sample_random.

(** A record of an import batch whose name is a number. *)
Definition numbered_record : JSON :=
  JObj [("name", JNum 5); ("colors", JArr [])].
(** * Properties *)

(** ** Sanity checks of the date and string helpers *)

Example toISOString_epoch : toISOString 0 = "1970-01-01T00:00:00.000Z".
Proof. reflexivity. Qed.
Example toISOString_2023 : toISOString 1700000000123 = "2023-11-14T22:13:20.123Z".
Proof. vm_compute. reflexivity. Qed.
Example toISOString_leap : toISOString 951782400000 = "2000-02-29T00:00:00.000Z".
Proof. vm_compute. reflexivity. Qed.
Example toISOString_neg : toISOString (-1) = "1969-12-31T23:59:59.999Z".
Proof. vm_compute. reflexivity. Qed.
Example js_to_string_ex : js_to_string (JArr [JNum 1; JNull; JStr "a"; JArr [JNum (-2); JBool true]]) = "1,,a,-2,true".
Proof. vm_compute. reflexivity. Qed.
Example text_stringify_ex :
  text_stringify (JArr [JObj [("name", JStr "A"); ("colors", JArr []); ("n", JNum (-12))]; JNull]) 0
  = "[{" +:+ String dquote "name" +:+ String dquote ":" +:+ String dquote "A" +:+ String dquote ","
    +:+ String dquote "colors" +:+ String dquote ":[]," +:+ String dquote "n" +:+ String dquote ":-12},null]".
Proof. vm_compute. reflexivity. Qed.
Example text_parse_ex :
  let v := JArr [JObj [("name", JStr "A b"); ("colors", JArr [JObj []; JArr [JNum 0]]); ("n", JNum (-12))]; JNull; JBool true] in
  text_parse (text_stringify v 2) = Ok v /\ text_parse (text_stringify v 0) = Ok v.
Proof. vm_compute. split; reflexivity. Qed.
(** ** The concrete JSON built-ins read back what they print *)

Section JSON_induction.
Variable P : JSON -> Prop.
Hypothesis Hnull : P JNull.
Hypothesis Hbool : forall b, P (JBool b).
Hypothesis Hnum : forall n, P (JNum n).
Hypothesis Hstr : forall s, P (JStr s).
Hypothesis Harr : forall l, Forall P l -> P (JArr l).
Hypothesis Hobj : forall o, Forall (fun kv => P (snd kv)) o -> P (JObj o).

Lemma JSON_nested_ind : forall v, P v.
Proof.
  fix IH 1. intros [ | b | n | s | l | o].
  - exact Hnull.
  - apply Hbool.
  - apply Hnum.
  - apply Hstr.
  - apply Harr. induction l as [|x l IHl]; constructor; [apply IH | exact IHl].
  - apply Hobj. induction o as [|[k x] o IHo]; constructor; [apply IH | exact IHo].
Qed.
End JSON_induction.

Lemma skip_ws_blank ws k : blank ws = true -> skip_ws (ws +:+ k) = skip_ws k.
Proof.
  induction ws as [|c ws IH]; simpl; [done|].
  intros [Hc Hws]%andb_prop. rewrite Hc. auto.
Qed.

Lemma blank_app a b : blank a = true -> blank b = true -> blank (a +:+ b) = true.
Proof.
  induction a as [|c a IH]; simpl; [done|].
  intros [Hc Ha]%andb_prop Hb. rewrite Hc. simpl. auto.
Qed.

Lemma blank_spaces n : blank (spaces n) = true.
Proof. induction n; simpl; auto. Qed.

Lemma blank_line gap ind :
  blank gap = true -> blank ind = true -> blank (line gap ind) = true.
Proof.
  intros Hg Hi. unfold line. destruct (String.eqb gap ""); simpl; auto.
Qed.

Lemma string_body_escape c tail :
  string_body (escape_char c +:+ tail) = cons_char c (string_body tail).
Proof.
  destruct c as [[] [] [] [] [] [] [] []]; reflexivity.
Qed.

Lemma string_body_emit_chars s k :
  string_body (emit_chars s (String dquote k)) = Some (s, k).
Proof.
  induction s as [|c s IH]; simpl.
  - reflexivity.
  - rewrite string_body_escape, IH. reflexivity.
Qed.

Lemma length_append a b :
  String.length (a +:+ b) = (String.length a + String.length b)%nat.
Proof. induction a as [|c a IH]; simpl; [done|]. by rewrite IH. Qed.

Lemma span_digits_uint u k :
  stop k = true ->
  span_digits (NilEmpty.string_of_uint u +:+ k) = (NilEmpty.string_of_uint u, k).
Proof.
  intros Hk. induction u; simpl; try (rewrite IHu; reflexivity).
  destruct k as [|c k]; simpl in *; [done|].
  apply negb_true_iff in Hk. by rewrite Hk.
Qed.

Lemma span_digits_N m k :
  stop k = true ->
  span_digits (NilZero.string_of_uint (N.to_uint m) +:+ k)
  = (NilZero.string_of_uint (N.to_uint m), k).
Proof.
  intros Hk. destruct (N.to_uint m) eqn:E;
    try (apply (span_digits_uint _ k Hk)).
  simpl. destruct k as [|c k]; simpl in *; [done|].
  apply negb_true_iff in Hk. by rewrite Hk.
Qed.

Lemma N_to_uint_nonnil m : N.to_uint m <> Decimal.Nil.
Proof.
  destruct m as [|p]; simpl; [discriminate|].
  apply DecimalPos.Unsigned.to_uint_nonnil.
Qed.

Lemma parse_nat_digits m k :
  stop k = true ->
  parse_nat (NilZero.string_of_uint (N.to_uint m) +:+ k) = Some (Z.of_N m, k).
Proof.
  intros Hk. unfold parse_nat. rewrite span_digits_N by done.
  rewrite NilZero.usu by apply N_to_uint_nonnil.
  by rewrite DecimalN.Unsigned.of_to.
Qed.

Lemma uint_head u :
  exists c r, NilZero.string_of_uint u = String c r /\ is_digit c = true.
Proof. destruct u; simpl; eauto. Qed.

Lemma Z_to_string_head n :
  exists c r, Z_to_string n = String c r /\ (is_digit c || Ascii.eqb c "-") = true.
Proof.
  unfold Z_to_string. destruct (n <? 0)%Z.
  - simpl. eauto.
  - destruct (uint_head (N.to_uint (Z.to_N n))) as (c & r & -> & Hc).
    exists c, r. by rewrite Hc.
Qed.

Lemma parse_number_Z n k :
  stop k = true -> parse_number (Z_to_string n +:+ k) = Some (n, k).
Proof.
  intros Hk. unfold Z_to_string. destruct (Z.ltb_spec n 0).
  - change (match parse_nat (NilZero.string_of_uint (N.to_uint (Z.to_N (- n))) +:+ k) with
            | Some (m, r) => Some (- m, r)
            | None => None
            end = Some (n, k)).
    rewrite parse_nat_digits by done. f_equal. f_equal. lia.
  - pose proof (parse_nat_digits (Z.to_N n) k Hk) as Hp.
    destruct (uint_head (N.to_uint (Z.to_N n))) as (c & r & E & Hc).
    rewrite E in *.
    change (String c r +:+ k) with (String c (r +:+ k)) in *.
    unfold parse_number.
    replace (Ascii.eqb c "-") with false.
    + rewrite Hp. f_equal. f_equal. lia.
    + clear -Hc. destruct c as [[] [] [] [] [] [] [] []]; try discriminate; reflexivity.
Qed.

Lemma skip_ws_head c r : is_ws c = false -> skip_ws (String c r) = String c r.
Proof. intros H. simpl. by rewrite H. Qed.

Lemma parse_value_token fuel ws c r :
  blank ws = true -> is_ws c = false ->
  parse_value (S fuel) (ws +:+ String c r) = parse_token fuel (parse_value fuel) c r.
Proof.
  intros Hws Hc. cbn [parse_value].
  by rewrite skip_ws_blank, skip_ws_head.
Qed.

Lemma emit_head gap ind v k :
  exists c r, emit gap ind v k = String c r /\ is_ws c = false
              /\ Ascii.eqb c "]" = false /\ Ascii.eqb c "}" = false.
Proof.
  destruct v as [ | [] | n | s | [|x l] | [|[key x] o]];
    try (do 2 eexists; split; [reflexivity | done]).
  destruct (Z_to_string_head n) as (c & r & E & Hc).
  exists c, (r +:+ k). cbn [emit]. rewrite E. split; [done|].
  clear -Hc. destruct c as [[] [] [] [] [] [] [] []]; try discriminate; done.
Qed.

Lemma stop_emit_items pr sep l gap ind k :
  stop (emit_items pr sep l (line gap ind +:+ String "]" k)) = true.
Proof.
  destruct l as [|x l]; [|done].
  simpl. unfold line. by destruct (String.eqb gap "").
Qed.

Lemma stop_emit_members pr sep col o gap ind k :
  stop (emit_members pr sep col o (line gap ind +:+ String "}" k)) = true.
Proof.
  destruct o as [|[key x] o]; [|done].
  simpl. unfold line. by destruct (String.eqb gap "").
Qed.

Lemma skip_ws_line gap ind c r :
  blank gap = true -> blank ind = true -> is_ws c = false ->
  skip_ws (line gap ind +:+ String c r) = String c r.
Proof.
  intros Hg Hi Hc. rewrite skip_ws_blank by by apply blank_line.
  by apply skip_ws_head.
Qed.

(** [parse_items] reads back the items [emit_items] has laid out. *)
Lemma parse_items_emit gap ind ind0 (f : nat) :
  blank gap = true -> blank ind = true -> blank ind0 = true ->
  forall l, Forall (fun y =>
              forall k ws, blank ws = true -> stop k = true ->
                parse_value f (ws +:+ emit gap ind y k) = Some (y, k)) l ->
  forall x k n ws,
    (forall k ws, blank ws = true -> stop k = true ->
       parse_value f (ws +:+ emit gap ind x k) = Some (x, k)) ->
    blank ws = true -> (length l < n)%nat ->
    parse_items n (parse_value f)
      (ws +:+ emit gap ind x
                (emit_items (emit gap ind) (line gap ind) l
                   (line gap ind0 +:+ String "]" k)))
    = Some (x :: l, k).
Proof.
  intros Hg Hi Hi0 l Hl. induction Hl as [|y l Hy Hl IH]; intros x k n ws Hx Hws Hn.
  - destruct n as [|n]; [simpl in Hn; lia|]. cbn [parse_items emit_items].
    rewrite Hx; [|done|apply (stop_emit_items (emit gap ind) "" [] gap ind0 k)].
    by rewrite skip_ws_line.
  - destruct n as [|n]; [simpl in Hn; lia|]. cbn [parse_items].
    rewrite Hx; [|done|done].
    cbn [emit_items]. change ("," +:+ ?a) with (String "," a).
    rewrite skip_ws_head by done. cbn [Ascii.eqb Bool.eqb].
    rewrite (IH y k n (line gap ind)); [done|done|by apply blank_line|simpl in Hn; lia].
Qed.

Lemma colon_split gap :
  exists ws, blank ws = true /\ forall t, colon gap +:+ t = String ":" (ws +:+ t).
Proof.
  unfold colon. destruct (String.eqb gap "").
  - by exists "".
  - by exists " ".
Qed.

(** [parse_members] reads back the members [emit_members] has laid out. *)
Lemma parse_members_emit gap ind ind0 (f : nat) :
  blank gap = true -> blank ind = true -> blank ind0 = true ->
  forall o, Forall (fun kv =>
              forall k ws, blank ws = true -> stop k = true ->
                parse_value f (ws +:+ emit gap ind (snd kv) k) = Some (snd kv, k)) o ->
  forall key x k n ws,
    (forall k ws, blank ws = true -> stop k = true ->
       parse_value f (ws +:+ emit gap ind x k) = Some (x, k)) ->
    blank ws = true -> (length o < n)%nat ->
    parse_members n (parse_value f)
      (ws +:+ emit_string key (colon gap +:+ emit gap ind x
                (emit_members (emit gap ind) (line gap ind) (colon gap) o
                   (line gap ind0 +:+ String "}" k))))
    = Some ((key, x) :: o, k).
Proof.
  intros Hg Hi Hi0 o Ho.
  destruct (colon_split gap) as (cw & Hcw & Hcolon).
  induction Ho as [|[key' y] o Hy Ho IH]; intros key x k n ws Hx Hws Hn;
    (destruct n as [|n]; [simpl in Hn; lia|]); cbn [parse_members];
    rewrite skip_ws_blank by done; unfold emit_string at 1;
    rewrite skip_ws_head by done;
    change (Ascii.eqb dquote dquote) with true; cbv iota;
    rewrite string_body_emit_chars, Hcolon, skip_ws_head by done;
    cbn [Ascii.eqb Bool.eqb].
  - cbn [emit_members].
    rewrite Hx; [|done|apply (stop_emit_members (emit gap ind) "" "" [] gap ind0 k)].
    by rewrite skip_ws_line.
  - rewrite Hx; [|done|done].
    cbn [emit_members]. change ("," +:+ ?a) with (String "," a).
    rewrite skip_ws_head by done. cbn [Ascii.eqb Bool.eqb].
    rewrite (IH key' y k n (line gap ind)); [done|done|by apply blank_line|simpl in Hn; lia].
Qed.

Lemma weight_pos v : (1 <= weight v)%nat.
Proof. destruct v; simpl; lia. Qed.

Lemma weight_items_bound (l : list JSON) :
  (length l <= list_sum (List.map weight l))%nat
  /\ Forall (fun y => (weight y <= list_sum (List.map weight l))%nat) l.
Proof.
  induction l as [|x l [IH1 IH2]]; simpl; [by split|].
  pose proof (weight_pos x). split; [lia|].
  constructor; [lia|]. eapply Forall_impl; [exact IH2|]. simpl. intros; lia.
Qed.

Lemma weight_members_bound (o : Obj) :
  (length o <= list_sum (List.map (fun kv => weight (snd kv)) o))%nat
  /\ Forall (fun kv => (weight (snd kv) <= list_sum (List.map (fun kv => weight (snd kv)) o))%nat) o.
Proof.
  induction o as [|[key x] o [IH1 IH2]]; simpl; [by split|].
  pose proof (weight_pos x). split; [lia|].
  constructor; [simpl; lia|]. eapply Forall_impl; [exact IH2|]. simpl. intros; lia.
Qed.

Lemma parse_token_number f pv c r :
  (is_digit c || Ascii.eqb c "-") = true ->
  parse_token f pv c r =
  match parse_number (String c r) with
  | Some (n, r') => Some (JNum n, r')
  | None => None
  end.
Proof.
  intros Hc. destruct c as [[] [] [] [] [] [] [] []]; try discriminate; reflexivity.
Qed.

(** [parse_value] reads back what [emit] prints, whatever the indentation, the
    blanks in front and the text behind. *)
Lemma parse_emit v :
  forall gap ind fuel, blank gap = true -> blank ind = true ->
    (weight v <= fuel)%nat ->
    forall k ws, blank ws = true -> stop k = true ->
      parse_value fuel (ws +:+ emit gap ind v k) = Some (v, k).
Proof.
  induction v as [ | b | n | s | l IHl | o IHo] using JSON_nested_ind;
    intros gap ind fuel Hg Hi Hw k ws Hws Hk;
    (destruct fuel as [|f]; [pose proof (weight_pos JNull); simpl in Hw; lia|]).
  - cbn [emit]. change ("null" +:+ k) with (String "n" ("ull" +:+ k)).
    by rewrite parse_value_token.
  - destruct b; cbn [emit].
    + change ("true" +:+ k) with (String "t" ("rue" +:+ k)).
      by rewrite parse_value_token.
    + change ("false" +:+ k) with (String "f" ("alse" +:+ k)).
      by rewrite parse_value_token.
  - cbn [emit]. destruct (Z_to_string_head n) as (c & r & E & Hc).
    pose proof (parse_number_Z n k Hk) as Hp. rewrite E in *.
    change (String c r +:+ k) with (String c (r +:+ k)) in *.
    rewrite parse_value_token, parse_token_number, Hp; try done.
    clear -Hc. destruct c as [[] [] [] [] [] [] [] []]; try discriminate; done.
  - cbn [emit]. unfold emit_string. rewrite parse_value_token by done.
    change (parse_token f (parse_value f) dquote ?r)
      with (match string_body r with
            | Some (x, r') => Some (JStr x, r')
            | None => None
            end).
    by rewrite string_body_emit_chars.
  - destruct l as [|x l].
    + cbn [emit]. change ("[]" +:+ k) with (String "[" ("]" +:+ k)).
      by rewrite parse_value_token.
    + cbn [emit]. change ("[" +:+ ?a) with (String "[" a).
      rewrite parse_value_token by done.
      change ("]" +:+ k) with (String "]" k).
      set (ind' := ind +:+ gap).
      assert (Hi' : blank ind' = true) by by apply blank_app.
      destruct (emit_head gap ind' x
                  (emit_items (emit gap ind') (line gap ind') l (line gap ind +:+ String "]" k)))
        as (c & r & E & Hc1 & Hc2 & _).
      unfold parse_token. cbn [Ascii.eqb Bool.eqb dquote ascii_of_nat].
      change (Ascii.eqb "[" dquote) with false. cbv iota.
      rewrite skip_ws_blank by by apply blank_line.
      rewrite E, skip_ws_head by done. cbn [expect].
      rewrite Ascii.eqb_sym, Hc2, <- E.
      pose proof (weight_pos x) as Hx1.
      change (weight (JArr (x :: l))) with (S (weight x + list_sum (List.map weight l))) in Hw.
      destruct (weight_items_bound l) as [Hlen Hall].
      apply Forall_cons in IHl as [IHx IHl].
      rewrite (parse_items_emit gap ind' ind f); try done.
      * eapply Forall_impl; [apply Forall_and; split; [exact IHl | exact Hall]|].
        simpl. intros y [Hy Hwy] k0 ws0 ? ?. apply Hy; try done. lia.
      * intros k0 ws0 ? ?. apply IHx; try done. lia.
      * by apply blank_line.
      * lia.
  - destruct o as [|[key x] o].
    + cbn [emit]. change ("{}" +:+ k) with (String "{" ("}" +:+ k)).
      by rewrite parse_value_token.
    + cbn [emit]. change ("{" +:+ ?a) with (String "{" a).
      rewrite parse_value_token by done.
      change ("}" +:+ k) with (String "}" k).
      set (ind' := ind +:+ gap).
      assert (Hi' : blank ind' = true) by by apply blank_app.
      set (R := line gap ind' +:+ emit_string key _).
      assert (Hexp : expect "}" (skip_ws R) = None).
      { subst R. rewrite skip_ws_blank by by apply blank_line.
        unfold emit_string. by rewrite skip_ws_head. }
      unfold parse_token. cbn [Ascii.eqb Bool.eqb].
      change (Ascii.eqb "{" dquote) with false. cbv iota.
      rewrite Hexp. subst R.
      pose proof (weight_pos x) as Hx1.
      change (weight (JObj ((key, x) :: o)))
        with (S (weight x + list_sum (List.map (fun kv => weight (snd kv)) o))) in Hw.
      destruct (weight_members_bound o) as [Hlen Hall].
      apply Forall_cons in IHo as [IHx IHo]. simpl in IHx.
      rewrite (parse_members_emit gap ind' ind f); try done.
      * eapply Forall_impl; [apply Forall_and; split; [exact IHo | exact Hall]|].
        simpl. intros y [Hy Hwy] k0 ws0 ? ?. apply Hy; try done. lia.
      * intros k0 ws0 ? ?. apply IHx; try done. lia.
      * by apply blank_line.
      * lia.
Qed.

Lemma emit_chars_length s k :
  (String.length k <= String.length (emit_chars s k))%nat.
Proof.
  induction s as [|c s IH]; simpl; [lia|].
  rewrite length_append. lia.
Qed.

Lemma emit_string_length s k :
  (String.length k < String.length (emit_string s k))%nat.
Proof.
  unfold emit_string. cbn [String.length].
  pose proof (emit_chars_length s (String dquote k)) as H.
  cbn [String.length] in H. lia.
Qed.

Lemma emit_items_length pr sep l k :
  Forall (fun x => forall k', (weight x + String.length k' <= String.length (pr x k'))%nat) l ->
  (list_sum (List.map weight l) + String.length k
   <= String.length (emit_items pr sep l k))%nat.
Proof.
  induction 1 as [|x l Hx Hl IH]; [simpl; lia|].
  change (list_sum (List.map weight (x :: l)))
    with (weight x + list_sum (List.map weight l))%nat.
  cbn [emit_items]. change ("," +:+ ?a) with (String "," a). cbn [String.length].
  rewrite length_append. specialize (Hx (emit_items pr sep l k)). lia.
Qed.

Lemma emit_members_length pr sep col o k :
  Forall (fun kv => forall k', (weight (snd kv) + String.length k'
                                <= String.length (pr (snd kv) k'))%nat) o ->
  (list_sum (List.map (fun kv => weight (snd kv)) o) + String.length k
   <= String.length (emit_members pr sep col o k))%nat.
Proof.
  induction 1 as [|[key x] o Hx Ho IH]; [simpl; lia|].
  change (list_sum (List.map (fun kv => weight (snd kv)) ((key, x) :: o)))
    with (weight x + list_sum (List.map (fun kv => weight (snd kv)) o))%nat.
  cbn [emit_members]. change ("," +:+ ?a) with (String "," a). cbn [String.length].
  rewrite length_append.
  pose proof (emit_string_length key
                (col +:+ pr x (emit_members pr sep col o k))) as Hs.
  rewrite length_append in Hs. specialize (Hx (emit_members pr sep col o k)).
  cbn [snd] in Hx. lia.
Qed.

(** Every node of a value takes at least one character of its text. *)
Lemma emit_length v :
  forall gap ind k,
    (weight v + String.length k <= String.length (emit gap ind v k))%nat.
Proof.
  induction v as [ | b | n | s | l IHl | o IHo] using JSON_nested_ind;
    intros gap ind k.
  - cbn [emit weight]. rewrite length_append. simpl. lia.
  - destruct b; cbn [emit weight]; rewrite length_append; simpl; lia.
  - cbn [emit weight]. rewrite length_append.
    destruct (Z_to_string_head n) as (c & r & -> & _). simpl. lia.
  - cbn [emit weight]. pose proof (emit_string_length s k). lia.
  - destruct l as [|x l]; [cbn [emit]; rewrite length_append; simpl; lia|].
    apply Forall_cons in IHl as [IHx IHl].
    cbn [emit]. change (weight (JArr (x :: l)))
      with (S (weight x + list_sum (List.map weight l))).
    change ("[" +:+ ?a) with (String "[" a). cbn [String.length].
    rewrite length_append.
    set (ind' := ind +:+ gap).
    specialize (IHx gap ind'
      (emit_items (emit gap ind') (line gap ind') l (line gap ind +:+ "]" +:+ k))).
    pose proof (emit_items_length (emit gap ind') (line gap ind') l
                  (line gap ind +:+ "]" +:+ k)) as Hit.
    rewrite !length_append in Hit.
    assert (Hall : Forall (fun x => forall k',
              (weight x + String.length k' <= String.length (emit gap ind' x k'))%nat) l).
    { eapply Forall_impl; [exact IHl|]. simpl. intros y Hy k'. apply Hy. }
    specialize (Hit Hall). lia.
  - destruct o as [|[key x] o]; [cbn [emit]; rewrite length_append; simpl; lia|].
    apply Forall_cons in IHo as [IHx IHo]. simpl in IHx.
    cbn [emit]. change (weight (JObj ((key, x) :: o)))
      with (S (weight x + list_sum (List.map (fun kv => weight (snd kv)) o))).
    change ("{" +:+ ?a) with (String "{" a). cbn [String.length].
    rewrite length_append.
    set (ind' := ind +:+ gap).
    set (K := emit_members (emit gap ind') (line gap ind') (colon gap) o
                (line gap ind +:+ "}" +:+ k)).
    pose proof (emit_string_length key (colon gap +:+ emit gap ind' x K)) as Hs.
    rewrite length_append in Hs.
    specialize (IHx gap ind' K).
    pose proof (emit_members_length (emit gap ind') (line gap ind') (colon gap) o
                  (line gap ind +:+ "}" +:+ k)) as Hit.
    rewrite !length_append in Hit. fold K in Hit.
    assert (Hall : Forall (fun kv => forall k',
              (weight (snd kv) + String.length k'
               <= String.length (emit gap ind' (snd kv) k'))%nat) o).
    { eapply Forall_impl; [exact IHo|]. simpl. intros y Hy k'. apply Hy. }
    specialize (Hit Hall). lia.
Qed.

(** The law of the JSON built-ins the catalog relies on, for the concrete
    pair: parsing the text of a value gives the value back. *)
Lemma text_parse_stringify v indent :
  text_parse (text_stringify v indent) = Ok v.
Proof.
  unfold text_parse, text_stringify.
  set (gap := spaces (Nat.min indent 10)).
  pose proof (emit_length v gap "" "") as Hlen. simpl in Hlen.
  rewrite (parse_emit v gap "" _ (blank_spaces _) eq_refl) with (ws := "") (k := "");
    [done|lia|done|done].
Qed.

Lemma text_stringify_nonempty v indent : text_stringify v indent <> "".
Proof.
  unfold text_stringify.
  destruct (emit_head (spaces (Nat.min indent 10)) "" v "") as (c & r & -> & _).
  discriminate.
Qed.
(** ** Reading and writing the storage entry *)

Section Catalog.
Context {json : JSONBuiltin} {txt : TextBuiltin}.

Lemma getSavedPalettes_stored w : getSavedPalettes w = (Ok (stored w), w).
Proof.
  unfold getSavedPalettes, stored, try_catch, bind, localStorage_getItem, lift, ret.
  destruct (window_defined w); simpl; [|done].
  destruct (localStorage w) as [s|]; [|done].
  destruct (String.eqb s ""); [done|].
  by destruct (JSON_parse s).
Qed.

Lemma setItem_accepted value w :
  can_write w value = true ->
  localStorage_setItem value w
  = (Ok tt, with_storage (Some value) (SetItem value true) w).
Proof.
  unfold can_write, localStorage_setItem.
  intros [-> ->]%andb_prop. done.
Qed.

Lemma setItem_rejected value w :
  can_write w value = false ->
  exists msg, localStorage_setItem value w = (Throw msg, rejected value w).
Proof.
  unfold can_write, localStorage_setItem, rejected.
  destruct (window_defined w); simpl; [|eauto].
  intros ->. eauto.
Qed.

Lemma stored_rejected value w : stored (rejected value w) = stored w.
Proof. unfold rejected. by destruct (window_defined w) eqn:E. Qed.

Lemma localStorage_rejected value w :
  localStorage (rejected value w) = localStorage w.
Proof. unfold rejected. by destruct (window_defined w). Qed.

Lemma has_id_obj id p : has_id id (JObj p) = Ok (id_is id p).
Proof.
  unfold has_id, id_is. simpl.
  destruct (obj_get "id" p) as [[]|]; done.
Qed.

Lemma id_is_false id p :
  obj_get "id" p <> Some (JStr id) -> id_is id p = false.
Proof.
  unfold id_is. destruct (obj_get "id" p) as [[ | b | n | s | l | o]|]; try done.
  intros H. apply String.eqb_neq. congruence.
Qed.

Lemma id_is_true id p :
  id_is id p = true <-> obj_get "id" p = Some (JStr id).
Proof.
  unfold id_is. destruct (obj_get "id" p) as [[ | b | n | s | l | o]|]; try done.
  rewrite String.eqb_eq. split; congruence.
Qed.

(** *** Looking a missing id up *)

Lemma findIndex_missing id (ps : list Obj) :
  Forall (fun p => id_is id p = false) ps ->
  findIndex (has_id id) (map JObj ps) = Ok None.
Proof.
  induction 1 as [|p ps Hp _ IH]; simpl; [done|].
  by rewrite has_id_obj, Hp, IH.
Qed.

Lemma find_missing id (ps : list Obj) :
  Forall (fun p => id_is id p = false) ps ->
  find (has_id id) (map JObj ps) = Ok None.
Proof.
  induction 1 as [|p ps Hp _ IH]; simpl; [done|].
  by rewrite has_id_obj, Hp.
Qed.

Lemma filter_missing id (ps : list Obj) :
  Forall (fun p => id_is id p = false) ps ->
  filter_r (has_other_id id) (map JObj ps) = Ok (map JObj ps).
Proof.
  induction 1 as [|p ps Hp _ IH]; simpl; [done|].
  unfold has_other_id at 1. by rewrite has_id_obj, Hp, IH.
Qed.

Lemma missing_Forall id (ps : list Obj) :
  (forall p, In p ps -> obj_get "id" p <> Some (JStr id)) ->
  Forall (fun p => id_is id p = false) ps.
Proof.
  intros H. apply List.Forall_forall. intros p Hp. by apply id_is_false, H.
Qed.

Lemma updatePalette_missing id updates w (ps : list Obj) :
  stored w = JArr (map JObj ps) ->
  Forall (fun p => id_is id p = false) ps ->
  updatePalette id updates w = (Ok false, w).
Proof.
  intros Hs Hid. unfold updatePalette, bind, lift.
  rewrite getSavedPalettes_stored, Hs. simpl.
  by rewrite findIndex_missing.
Qed.

Lemma deletePalette_missing id w (ps : list Obj) :
  stored w = JArr (map JObj ps) ->
  Forall (fun p => id_is id p = false) ps ->
  deletePalette id w = (Ok false, w).
Proof.
  intros Hs Hid. unfold deletePalette, bind, lift.
  rewrite getSavedPalettes_stored, Hs. simpl.
  rewrite filter_missing by done. by rewrite Nat.eqb_refl.
Qed.

Lemma getPaletteById_missing id w (ps : list Obj) :
  stored w = JArr (map JObj ps) ->
  Forall (fun p => id_is id p = false) ps ->
  getPaletteById id w = (Ok JNull, w).
Proof.
  intros Hs Hid. unfold getPaletteById, bind, lift.
  rewrite getSavedPalettes_stored, Hs. simpl.
  by rewrite find_missing.
Qed.

(** *** Updating a palette that is there *)

Lemma findIndex_index_of id (ps : list Obj) :
  findIndex (has_id id) (map JObj ps) = Ok (index_of id ps).
Proof.
  induction ps as [|p ps IH]; simpl; [done|].
  rewrite has_id_obj. destruct (id_is id p); [done|].
  rewrite IH. by destruct (index_of id ps).
Qed.

Lemma index_of_lookup id (ps : list Obj) i :
  index_of id ps = Some i ->
  exists p, ps !! i = Some p /\ id_is id p = true
            /\ forall j q, (j < i)%nat -> ps !! j = Some q -> id_is id q = false.
Proof.
  revert i. induction ps as [|p ps IH]; simpl; [done|]. intros i.
  destruct (id_is id p) eqn:E.
  - intros [= <-]. exists p. repeat split; [done|]. intros; lia.
  - destruct (index_of id ps) as [i'|]; [|done]. intros [= <-].
    destruct (IH i' eq_refl) as (q & Hq & Hid & Hbefore).
    exists q. repeat split; [done..|].
    intros [|j] r Hj; simpl; [by intros [= <-]|].
    apply Hbefore. lia.
Qed.

Lemma index_of_none id (ps : list Obj) :
  index_of id ps = None <-> Forall (fun p => id_is id p = false) ps.
Proof.
  induction ps as [|p ps IH]; simpl; [by split|].
  destruct (id_is id p) eqn:E.
  - split; [done|]. intros H. apply Forall_cons in H as [H _]. congruence.
  - destruct (index_of id ps).
    + split; [done|]. intros H. apply Forall_cons in H as [_ H].
      apply IH in H. done.
    + split; [|done]. intros _. constructor; [done|]. by apply IH.
Qed.

Lemma nth_map_JObj (ps : list Obj) i p :
  ps !! i = Some p -> nth i (map JObj ps) JNull = JObj p.
Proof.
  revert i. induction ps as [|q ps IH]; intros [|i]; simpl; try done.
  - by intros [= ->].
  - apply IH.
Qed.

Lemma insert_map_JObj (ps : list Obj) i x :
  <[i := JObj x]> (map JObj ps) = map JObj (<[i := x]> ps).
Proof.
  revert i. induction ps as [|q ps IH]; intros [|i]; simpl; try done.
  by rewrite IH.
Qed.

(** [updatePalette] on a palette that is there: one reading of the clock, one
    write; the result tells whether the storage took the text. *)
Lemma updatePalette_found id updates w (ps : list Obj) i p :
  stored w = JArr (map JObj ps) ->
  index_of id ps = Some i -> ps !! i = Some p ->
  updatePalette id updates w
  = if can_write w (update_text w updates ps i p)
    then (Ok true, with_storage (Some (update_text w updates ps i p))
                     (SetItem (update_text w updates ps i p) true) (with_tick w))
    else (Ok false, rejected (update_text w updates ps i p) (with_tick w)).
Proof.
  intros Hs Hi Hp. unfold updatePalette, bind, lift.
  rewrite getSavedPalettes_stored, Hs. simpl.
  rewrite findIndex_index_of, Hi. simpl.
  rewrite (nth_map_JObj ps i p Hp). simpl.
  rewrite insert_map_JObj. fold (updated_record (toISOString (clock w (ticks w))) updates p).
  fold (update_text w updates ps i p).
  set (text := update_text w updates ps i p).
  unfold try_catch.
  destruct (can_write w text) eqn:Hc.
  - assert (Hc' : can_write (with_tick w) text = true) by done.
    by rewrite (setItem_accepted _ _ Hc').
  - assert (Hc' : can_write (with_tick w) text = false) by done.
    destruct (setItem_rejected _ _ Hc') as [msg ->]. done.
Qed.

(** C7.  Not-found signalling: when the stored collection holds no palette
    with the given id, [updatePalette] and [deletePalette] return [false],
    [getPaletteById] returns [null], none of them raises, and the world (so
    the stored collection, and what [getSavedPalettes] reads) is left as it
    was. *)
Theorem not_found_is_signalled id updates w (ps : list Obj) :
  stored w = JArr (map JObj ps) ->
  (forall p, In p ps -> obj_get "id" p <> Some (JStr id)) ->
  updatePalette id updates w = (Ok false, w)
  /\ deletePalette id w = (Ok false, w)
  /\ getPaletteById id w = (Ok JNull, w)
  /\ getSavedPalettes w = (Ok (JArr (map JObj ps)), w).
Proof.
  intros Hs Hid. apply missing_Forall in Hid. repeat split.
  - by eapply updatePalette_missing.
  - by eapply deletePalette_missing.
  - by eapply getPaletteById_missing.
  - by rewrite getSavedPalettes_stored, Hs.
Qed.

Lemma index_of_some id (ps : list Obj) :
  (exists p, In p ps /\ obj_get "id" p = Some (JStr id)) ->
  exists i p, index_of id ps = Some i /\ ps !! i = Some p.
Proof.
  intros (p & Hin & Hid). destruct (index_of id ps) as [i|] eqn:E.
  - destruct (index_of_lookup _ _ _ E) as (q & Hq & _). eauto.
  - apply index_of_none in E. rewrite List.Forall_forall in E.
    apply E in Hin. apply id_is_true in Hid. congruence.
Qed.

(** C5, as the code has it.  [updatePalette] raises in neither failure mode.
    Without a palette of the given id it returns [false] and touches
    nothing.  With one, it attempts a single write of some text: when the
    storage takes the text the call returns [true] and the text is stored;
    when the storage rejects it the call returns [false], without raising,
    and the stored collection is as before. *)
Theorem update_failure_modes id updates w (ps : list Obj) :
  stored w = JArr (map JObj ps) ->
  ((forall p, In p ps -> obj_get "id" p <> Some (JStr id)) ->
     updatePalette id updates w = (Ok false, w))
  /\ ((exists p, In p ps /\ obj_get "id" p = Some (JStr id)) ->
       exists text w',
         (window_defined w = true ->
            storage_log w' = storage_log w ++ [SetItem text (accepts w text)])
         /\ ((can_write w text = true
              /\ updatePalette id updates w = (Ok true, w')
              /\ localStorage w' = Some text)
             \/ (can_write w text = false
                 /\ updatePalette id updates w = (Ok false, w')
                 /\ localStorage w' = localStorage w
                 /\ stored w' = stored w))).
Proof.
  intros Hs. split.
  - intros Hid. eapply updatePalette_missing; [done|]. by apply missing_Forall.
  - intros Hex. destruct (index_of_some _ _ Hex) as (i & p & Hi & Hp).
    pose proof (updatePalette_found id updates w ps i p Hs Hi Hp) as Hu.
    set (text := update_text w updates ps i p) in *.
    exists text. destruct (can_write w text) eqn:Hc.
    + exists (with_storage (Some text) (SetItem text true) (with_tick w)).
      split; [|left; by repeat split].
      intros _. simpl. unfold can_write in Hc.
      apply andb_prop in Hc as [_ ->]. done.
    + exists (rejected text (with_tick w)).
      split; [|right; split; [done|]; split; [exact Hu|]; split].
      * intros Hw. unfold rejected. simpl. rewrite Hw. simpl.
        unfold can_write in Hc. rewrite Hw in Hc. simpl in Hc. by rewrite Hc.
      * by rewrite localStorage_rejected.
      * by rewrite stored_rejected.
Qed.

End Catalog.
(** ** Importing a batch *)

Section ImportLoop.
Context {json : JSONBuiltin} {txt : TextBuiltin}.

Lemma quiet_refl w : quiet w w.
Proof. by repeat split. Qed.

Lemma quiet_trans w1 w2 w3 : quiet w1 w2 -> quiet w2 w3 -> quiet w1 w3.
Proof.
  unfold quiet. intros (?&?&?&?&?&?) (?&?&?&?&?&?).
  repeat split; congruence.
Qed.

Lemma quiet_stamp w : quiet w (stamp w).
Proof. by repeat split. Qed.

Lemma quiet_iter_stamp n w : quiet w (Nat.iter n stamp w).
Proof.
  induction n as [|n IH]; simpl; [apply quiet_refl|].
  eapply quiet_trans; [exact IH|apply quiet_stamp].
Qed.

Lemma quiet_stored w w' : quiet w w' -> stored w' = stored w.
Proof. unfold quiet, stored. intros (-> & -> & _). done. Qed.

Lemma quiet_can_write w w' text :
  quiet w w' -> can_write w' text = can_write w text.
Proof. unfold quiet, can_write. intros (-> & _ & -> & _). done. Qed.

Lemma ticks_iter_stamp n w : ticks (Nat.iter n stamp w) = (ticks w + 2 * n)%nat.
Proof. induction n as [|n IH]; simpl; [lia|]. rewrite IH. lia. Qed.

Lemma draws_iter_stamp n w : draws (Nat.iter n stamp w) = (draws w + n)%nat.
Proof. induction n as [|n IH]; simpl; [lia|]. rewrite IH. lia. Qed.

Lemma generateId_stamp w :
  bind generateId (fun id => bind Date_toISOString (fun now => ret (id, now))) w
  = (Ok (fresh_id w 0, import_time w 0), stamp w).
Proof.
  unfold fresh_id, import_time. rewrite !Nat.add_0_r. simpl. by rewrite Nat.add_1_r.
Qed.

(** The loop's test is the negation of [acceptable]. *)
Lemma acceptable_test (o : Obj) :
  negb (truthy_opt (obj_get "name" o)) || negb (truthy_opt (obj_get "colors" o))
    || negb (isArray (obj_get "colors" o))
  = negb (acceptable (JObj o)).
Proof.
  simpl. destruct (truthy_opt (obj_get "name" o)); simpl; [|done].
  destruct (obj_get "colors" o) as [[]|]; simpl; by rewrite ?orb_true_r.
Qed.

(** A record the loop does not accept costs one error message and nothing
    else. *)
Lemma import_one_refused p acc w :
  acceptable p = false ->
  import_one p acc w
  = (Ok (mkImportAcc (acc_palettes acc) (acc_errors acc ++ [rejection p])
           (acc_success acc)), w).
Proof.
  intros Hp. unfold import_one, try_catch, bind, lift, rejection.
  destruct p as [ | b | n | s | l | o]; try done.
  simpl get_prop. cbv beta iota. rewrite acceptable_test, Hp. done.
Qed.

(** An accepted record is pushed, with the id and time stamp of the moment. *)
Lemma import_one_accepted p existing errs n w :
  acceptable p = true ->
  import_one p (mkImportAcc (JArr existing) errs n) w
  = (Ok (mkImportAcc (JArr (existing ++ [JObj (imported w 0 p)])) errs (S n)),
     stamp w).
Proof.
  intros Hp. destruct p as [ | b | m | s | l | o]; try done.
  unfold import_one, try_catch, bind, lift.
  simpl get_prop. cbv beta iota. rewrite acceptable_test, Hp.
  unfold imported, fresh_id, import_time. rewrite !Nat.add_0_r, Nat.add_1_r.
  reflexivity.
Qed.

Lemma imported_shift w k p :
  imported (Nat.iter k stamp w) 0 p = imported w k p.
Proof.
  destruct (quiet_iter_stamp k w) as (_ & _ & _ & Hc & Hr & _).
  unfold imported, fresh_id, import_time.
  rewrite Hc, Hr, ticks_iter_stamp, draws_iter_stamp, !Nat.add_0_r.
  done.
Qed.

Lemma iter_stamp_S k w : stamp (Nat.iter k stamp w) = Nat.iter (S k) stamp w.
Proof. done. Qed.

(** The import loop over a catalog that is an array. *)
Lemma for_of_import records :
  forall w k existing errs n,
    for_of records import_one (mkImportAcc (JArr existing) errs n) (Nat.iter k stamp w)
    = (Ok (mkImportAcc
             (JArr (existing ++ map JObj (import_from w k records)))
             (errs ++ map rejection (refused records))
             (n + length (accepted records))),
       Nat.iter (k + length (accepted records)) stamp w).
Proof.
  induction records as [|p records IH]; intros w k existing errs n.
  - simpl. unfold ret. by rewrite !app_nil_r, !Nat.add_0_r.
  - cbn [for_of]. unfold bind at 1. unfold accepted, refused. cbn [List.filter import_from].
    destruct (acceptable p) eqn:Hp.
    + rewrite import_one_accepted by done.
      rewrite imported_shift, iter_stamp_S, IH. cbn [negb length map].
      rewrite <- app_assoc. cbn [app]. fold (accepted records) (refused records).
      replace (S n + length (accepted records))%nat
        with (n + S (length (accepted records)))%nat by lia.
      replace (S k + length (accepted records))%nat
        with (k + S (length (accepted records)))%nat by lia.
      done.
    + rewrite import_one_refused by done. cbn [acc_palettes acc_errors acc_success].
      rewrite IH. cbn [negb map]. rewrite <- app_assoc. done.
Qed.

(** Whatever the catalog holds, one turn of the loop returns, leaves the
    storage alone and counts at most the record at hand, which then is an
    acceptable one. *)
Lemma import_one_quiet p acc w :
  exists acc' w',
    import_one p acc w = (Ok acc', w') /\ quiet w w'
    /\ (acc_success acc' = acc_success acc
        \/ (acc_success acc' = S (acc_success acc) /\ acceptable p = true)).
Proof.
  destruct (acceptable p) eqn:Hp.
  - destruct acc as [existing errs n].
    destruct p as [ | b | m | s | l | o]; try done.
    destruct existing as [ | b | m | s | l | o'];
      try (do 2 eexists; split; [by apply import_one_accepted|];
           split; [apply quiet_stamp | right; by split]);
      (unfold import_one, try_catch, bind, lift;
       simpl get_prop; cbv beta iota; rewrite acceptable_test, Hp;
       do 2 eexists; split; [reflexivity|]; split; [by repeat split | by left]).
  - do 2 eexists. split; [by apply import_one_refused|].
    split; [apply quiet_refl | by left].
Qed.

Lemma for_of_import_quiet records :
  forall acc w,
    exists acc' w',
      for_of records import_one acc w = (Ok acc', w') /\ quiet w w'
      /\ (acc_success acc <= acc_success acc')%nat
      /\ ((acc_success acc < acc_success acc')%nat ->
          exists p, In p records /\ acceptable p = true).
Proof.
  induction records as [|p records IH]; intros acc w.
  - exists acc, w. split; [done|]. split; [apply quiet_refl|].
    split; [lia | simpl; lia].
  - destruct (import_one_quiet p acc w) as (acc1 & w1 & E1 & Hq1 & H1).
    destruct (IH acc1 w1) as (acc2 & w2 & E2 & Hq2 & Hle & Hacc).
    exists acc2, w2. cbn [for_of]. unfold bind at 1. rewrite E1, E2.
    split; [done|]. split; [by eapply quiet_trans|]. split; [lia|].
    intros Hlt. destruct H1 as [H1|[H1 Hp]].
    + destruct Hacc as (q & Hq & Hqa); [lia|]. exists q. split; [by right|done].
    + exists p. split; [by left|done].
Qed.

(** [importPalettes] on a text that parses to an array, when the catalog
    holds an array: without an acceptable record nothing happens but the
    report; with one, the whole new catalog is written, once. *)
Lemma importPalettes_batch text w records existing :
  JSON_parse text = Ok (JArr records) ->
  stored w = JArr existing ->
  let n := length (accepted records) in
  let w1 := Nat.iter n stamp w in
  let new_text := import_text w existing records in
  (n = O ->
     importPalettes text w
     = (Ok (mkImportResult O (map rejection (refused records))), w))
  /\ (n <> O -> can_write w new_text = true ->
      importPalettes text w
      = (Ok (mkImportResult n (map rejection (refused records))),
         with_storage (Some new_text) (SetItem new_text true) w1))
  /\ (n <> O -> can_write w new_text = false ->
      exists msg,
        importPalettes text w
        = (Ok (mkImportResult O ["Failed to parse JSON: " +:+ msg]),
           rejected new_text w1)).
Proof.
  intros Hparse Hs n w1 new_text.
  assert (Hloop :
    for_of records import_one (mkImportAcc (JArr existing) [] O) w
    = (Ok (mkImportAcc (JArr (existing ++ map JObj (import_from w O records)))
             (map rejection (refused records)) n), w1)).
  { apply (for_of_import records w O existing [] O). }
  assert (Himp :
    importPalettes text w
    = match (if (0 <? n)%nat then localStorage_setItem new_text else ret tt) w1 with
      | (Ok _, w2) => (Ok (mkImportResult n (map rejection (refused records))), w2)
      | (Throw msg, w2) =>
          (Ok (mkImportResult O ["Failed to parse JSON: " +:+ msg]), w2)
      end).
  { unfold importPalettes, try_catch, bind at 1, lift.
    rewrite Hparse. unfold bind at 1. rewrite getSavedPalettes_stored, Hs.
    unfold bind at 1. rewrite Hloop. cbn [acc_success acc_palettes acc_errors].
    unfold bind, ret. unfold new_text, import_text.
    by destruct ((if (0 <? n)%nat then localStorage_setItem _
                  else fun s => (Ok tt, s)) w1) as [[u|msg] w2]. }
  rewrite Himp. clear Himp. split; [|split].
  - intros Hn. unfold w1. rewrite Hn. done.
  - intros Hn Hw. replace (0 <? n)%nat with true by (symmetry; apply Nat.ltb_lt; lia).
    rewrite setItem_accepted; [done|].
    by rewrite (quiet_can_write w w1 _ (quiet_iter_stamp n w)).
  - intros Hn Hw. replace (0 <? n)%nat with true by (symmetry; apply Nat.ltb_lt; lia).
    destruct (setItem_rejected new_text w1) as [msg ->].
    + by rewrite (quiet_can_write w w1 _ (quiet_iter_stamp n w)).
    + by exists msg.
Qed.

(** A text that does not parse to an array costs one message and nothing
    else. *)
Lemma importPalettes_unreadable text w :
  (forall records, JSON_parse text <> Ok (JArr records)) ->
  exists msg, importPalettes text w = (Ok (mkImportResult O [msg]), w).
Proof.
  intros Hno. unfold importPalettes, try_catch, bind at 1, lift.
  destruct (JSON_parse text) as [[ | b | m | s | records | o]|msg] eqn:Hparse;
    try (eexists; reflexivity).
  by destruct (Hno records).
Qed.

(** What a call of [setItem] adds to the storage log. *)
Lemma setItem_log value w :
  exists r w' writes,
    localStorage_setItem value w = (r, w')
    /\ storage_log w' = storage_log w ++ writes
    /\ (length writes <= 1)%nat
    /\ (forall e, In e writes -> exists b, e = SetItem value b).
Proof.
  unfold localStorage_setItem.
  destruct (window_defined w); [destruct (accepts w value)|].
  - do 2 eexists. exists [SetItem value true]. repeat split; [simpl; lia|].
    intros e [<-|[]]. eauto.
  - do 2 eexists. exists [SetItem value false]. repeat split; [simpl; lia|].
    intros e [<-|[]]. eauto.
  - do 2 eexists. exists []. repeat split; [by rewrite app_nil_r | simpl; lia | done].
Qed.

(** C4.  [importPalettes] always returns.  It calls [setItem] at most once;
    it does so after the whole batch has been gone through, with the text of
    the entire new collection, and only when some record of the batch was
    accepted.  A text that does not parse, or that parses to something else
    than an array, gives the count 0 and exactly one error message, and the
    world, so the stored collection, is left as it was. *)
Theorem import_writes_at_most_once text w :
  exists r w' writes,
    importPalettes text w = (Ok r, w')
    /\ storage_log w' = storage_log w ++ writes
    /\ (length writes <= 1)%nat
    /\ (writes <> [] ->
        exists records p,
          JSON_parse text = Ok (JArr records) /\ In p records /\ acceptable p = true)
    /\ (forall records existing e,
          JSON_parse text = Ok (JArr records) -> stored w = JArr existing ->
          In e writes ->
          exists b, e = SetItem (import_text w existing records) b)
    /\ (writes = [] -> localStorage w' = localStorage w)
    /\ ((forall records, JSON_parse text <> Ok (JArr records)) ->
        w' = w /\ writes = [] /\ exists msg, r = mkImportResult O [msg]).
Proof.
  assert (Hbad : forall msg,
    exists r w' writes,
      (Ok (mkImportResult O [msg]), w) = (Ok r, w')
      /\ storage_log w' = storage_log w ++ writes
      /\ (length writes <= 1)%nat
      /\ (writes <> [] ->
          exists records p,
            JSON_parse text = Ok (JArr records) /\ In p records /\ acceptable p = true)
      /\ (forall records existing e,
            JSON_parse text = Ok (JArr records) -> stored w = JArr existing ->
            In e writes ->
            exists b, e = SetItem (import_text w existing records) b)
      /\ (writes = [] -> localStorage w' = localStorage w)
      /\ ((forall records, JSON_parse text <> Ok (JArr records)) ->
          w' = w /\ writes = [] /\ exists msg, r = mkImportResult O [msg])).
  { intros msg. exists (mkImportResult O [msg]), w, [].
    split; [done|]. split; [by rewrite app_nil_r|]. split; [simpl; lia|].
    split; [done|]. split; [done|]. split; [done|]. eauto. }
  unfold importPalettes, try_catch, bind at 1, lift.
  destruct (JSON_parse text) as [[ | b | m | s | records | o]|msg] eqn:Hparse;
    try apply Hbad.
  unfold bind at 1. rewrite getSavedPalettes_stored. unfold bind at 1.
  destruct (for_of_import_quiet records (mkImportAcc (stored w) [] O) w)
    as (acc & w1 & Hloop & Hq & _ & Hacc).
  rewrite Hloop. unfold bind, ret.
  destruct (0 <? acc_success acc)%nat eqn:Hpos.
  - destruct (setItem_log (JSON_stringify (acc_palettes acc) 0) w1)
      as (r & w2 & writes & Hset & Hlog & Hlen & Hval).
    rewrite Hset.
    assert (Hlog' : storage_log w2 = storage_log w ++ writes).
    { destruct Hq as (_ & _ & _ & _ & _ & <-). done. }
    assert (Hwhy : writes <> [] ->
      exists records0 p, Ok (A:=JSON) (JArr records) = Ok (JArr records0)
                         /\ In p records0 /\ acceptable p = true).
    { intros _. destruct Hacc as (p & Hp & Hpa); [simpl; by apply Nat.ltb_lt|].
      by exists records, p. }
    assert (Hwhat : forall records0 existing e,
      Ok (A:=JSON) (JArr records) = Ok (JArr records0) -> stored w = JArr existing ->
      In e writes -> exists b, e = SetItem (import_text w existing records0) b).
    { intros records0 existing e [= <-] Hs He.
      rewrite Hs in Hloop.
      pose proof (for_of_import records w O existing [] O) as Hl.
      change (Nat.iter O stamp w) with w in Hl. rewrite Hl in Hloop.
      injection Hloop as <- _. by apply Hval. }
    assert (Hkeep : writes = [] -> localStorage w2 = localStorage w).
    { intros ->. destruct Hq as (_ & <- & _).
      unfold localStorage_setItem in Hset.
      destruct (window_defined w1); [destruct (accepts w1 _)|];
        injection Hset as _ <-; simpl in Hlog; try done;
        apply (f_equal (@length _)) in Hlog; rewrite !length_app in Hlog;
        simpl in Hlog; lia. }
    destruct r as [u|msg]; do 2 eexists; exists writes;
      (split; [reflexivity|]); (split; [done|]); (split; [done|]);
      (split; [done|]); (split; [done|]); (split; [done|]);
      intros Hno; by destruct (Hno records).
  - exists (mkImportResult (acc_success acc) (acc_errors acc)), w1, [].
    split; [done|]. split; [rewrite app_nil_r; by destruct Hq as (_&_&_&_&_&?)|].
    split; [simpl; lia|]. split; [done|]. split; [done|].
    split; [intros _; by destruct Hq as (_&?&_)|].
    intros Hno. by destruct (Hno records).
Qed.

End ImportLoop.
(** ** What the import stores and reports *)

Section ImportClaims.
Context {json : JSONBuiltin} {txt : TextBuiltin}.

(** The law of the JSON built-ins: the text of a value is not empty and
    parses back to the value. *)
Hypothesis parse_stringify :
  forall v indent, JSON_parse (JSON_stringify v indent) = Ok v.
Hypothesis stringify_nonempty :
  forall v indent, JSON_stringify v indent <> "".

Lemma stored_written v indent e w :
  window_defined w = true ->
  stored (with_storage (Some (JSON_stringify v indent)) e w) = v.
Proof.
  intros Hw. unfold stored. simpl. rewrite Hw.
  destruct (String.eqb_spec (JSON_stringify v indent) "") as [E|_].
  - by apply stringify_nonempty in E.
  - by rewrite parse_stringify.
Qed.

Lemma can_write_window w text : can_write w text = true -> window_defined w = true.
Proof. unfold can_write. by intros [-> _]%andb_prop. Qed.

Lemma import_from_length w k records :
  length (import_from w k records) = length (accepted records).
Proof.
  revert k. induction records as [|p records IH]; intros k; simpl; [done|].
  unfold accepted. simpl. destruct (acceptable p); simpl; by rewrite IH.
Qed.

Lemma import_from_lookup w k records j p :
  accepted records !! j = Some p ->
  import_from w k records !! j = Some (imported w (k + j) p).
Proof.
  revert k j. induction records as [|q records IH]; intros k j; [done|].
  unfold accepted. simpl. destruct (acceptable q); simpl.
  - destruct j as [|j]; simpl.
    + intros [= ->]. by rewrite Nat.add_0_r.
    + intros Hj. rewrite (IH (S k) j Hj). f_equal. f_equal. lia.
  - apply IH.
Qed.

Lemma accepted_acceptable records j p :
  accepted records !! j = Some p -> acceptable p = true.
Proof.
  intros Hj. apply list_elem_of_lookup_2, list_elem_of_In in Hj.
  unfold accepted in Hj. by apply filter_In in Hj as [_ ?].
Qed.

Lemma acceptable_shape p :
  acceptable p = true <->
  exists o n cs, p = JObj o /\ obj_get "name" o = Some n /\ truthy n = true
                 /\ obj_get "colors" o = Some (JArr cs).
Proof.
  split.
  - destruct p as [ | b | m | s | l | o]; try done. simpl.
    intros [Hn Hc]%andb_prop.
    destruct (obj_get "name" o) as [n|] eqn:En; [|done].
    destruct (obj_get "colors" o) as [[ | b | m | s | cs | o']|] eqn:Ec; try done.
    exists o, n, cs. simpl in Hn. by repeat split.
  - intros (o & n & cs & -> & Hn & Ht & Hc).
    unfold acceptable. rewrite Hn, Hc. simpl. by rewrite Ht.
Qed.

(** The batch as a whole, when the storage takes the final write (or no
    record is accepted, and nothing is written). *)
Lemma importPalettes_stored text w records existing :
  JSON_parse text = Ok (JArr records) ->
  stored w = JArr existing ->
  (accepted records <> [] -> can_write w (import_text w existing records) = true) ->
  exists w',
    importPalettes text w
    = (Ok (mkImportResult (length (accepted records)) (map rejection (refused records))),
       w')
    /\ stored w' = JArr (existing ++ map JObj (import_from w O records)).
Proof.
  intros Hparse Hs Hw.
  destruct (importPalettes_batch text w records existing Hparse Hs) as (H0 & H1 & _).
  destruct (accepted records) as [|a l] eqn:Hacc.
  - exists w. split; [by apply H0|].
    pose proof (import_from_length w O records) as Hlen. rewrite Hacc in Hlen.
    destruct (import_from w O records); [|done]. by rewrite Hs, app_nil_r.
  - specialize (Hw ltac:(done)). eexists. split; [by apply H1|].
    unfold import_text. rewrite stored_written; [done|].
    destruct (quiet_iter_stamp (length (a :: l)) w) as (-> & _).
    by eapply can_write_window.
Qed.

(** C3, as the code has it.  For every input array, when the catalog holds
    an array and the storage takes the final write: every record is judged
    on its own; each refused record (among them every record without a
    [name] or without an array under [colors]) costs one error message and
    does not stop the batch; each accepted record is stored after the
    existing ones with a newly generated id and [updatedAt] set to the time
    of its import; [createdAt] is the input's when that is present and
    truthy and the time of the import otherwise; [description],
    [colorTheory], [useCases] and [category] are the input's when truthy and
    [""], [""], [[]] and ["custom"] otherwise, so also when absent; the
    returned count is the number of accepted records. *)
Theorem import_validates_and_defaults text w records existing :
  JSON_parse text = Ok (JArr records) ->
  stored w = JArr existing ->
  (accepted records <> [] -> can_write w (import_text w existing records) = true) ->
  exists w' news,
    importPalettes text w
    = (Ok (mkImportResult (length (accepted records)) (map rejection (refused records))),
       w')
    /\ stored w' = JArr (existing ++ map JObj news)
    /\ length news = length (accepted records)
    /\ length (map rejection (refused records)) = length (refused records)
    /\ (forall o, In (JObj o) records ->
          obj_get "name" o = None \/ isArray (obj_get "colors" o) = false ->
          In (JObj o) (refused records))
    /\ (forall k p, accepted records !! k = Some p ->
          exists o q,
            p = JObj o /\ news !! k = Some q
            /\ obj_get "id" q = Some (JStr (fresh_id w k))
            /\ obj_get "updatedAt" q = Some (JStr (import_time w k))
            /\ obj_get "name" q = obj_get "name" o
            /\ obj_get "colors" q = obj_get "colors" o
            /\ obj_get "createdAt" q
               = Some (or_else (obj_get "createdAt" o) (JStr (import_time w k)))
            /\ obj_get "description" q
               = Some (or_else (obj_get "description" o) (JStr ""))
            /\ obj_get "colorTheory" q
               = Some (or_else (obj_get "colorTheory" o) (JStr ""))
            /\ obj_get "useCases" q
               = Some (or_else (obj_get "useCases" o) (JArr []))
            /\ obj_get "category" q
               = Some (or_else (obj_get "category" o) (JStr "custom"))).
Proof.
  intros Hparse Hs Hw.
  destruct (importPalettes_stored text w records existing Hparse Hs Hw) as (w' & Hi & Hst).
  exists w', (import_from w O records).
  split; [done|]. split; [done|]. split; [apply import_from_length|].
  split; [apply length_map|]. split.
  - intros o Hin Hbad. unfold refused. apply filter_In. split; [done|].
    simpl. destruct Hbad as [-> | Hc]; [done|].
    rewrite Hc. by rewrite andb_false_r.
  - intros k p Hk.
    pose proof (accepted_acceptable _ _ _ Hk) as Hp.
    apply acceptable_shape in Hp as (o & n & cs & -> & Hn & _ & Hc).
    exists o, (imported w k (JObj o)).
    split; [done|]. split; [by rewrite (import_from_lookup w O records k _ Hk)|].
    unfold imported. simpl own_props. rewrite Hn, Hc. by repeat split.
Qed.

(** C10.  [importPalettes] accepts a record exactly when its [name] is
    truthy and its [colors] is an array: with the catalog an array and the
    final write taken, the stored catalog grows by one palette per such
    record, in order, the count is their number, and every other record is
    reported by one message, in order.  A record whose [name] is the empty
    string is among the others, under the name 'unnamed'. *)
Theorem import_accepts_truthy_name_and_array_colors text w records existing :
  JSON_parse text = Ok (JArr records) ->
  stored w = JArr existing ->
  (accepted records <> [] -> can_write w (import_text w existing records) = true) ->
  (forall p, In p (accepted records) <->
     In p records /\ exists o n cs, p = JObj o /\ obj_get "name" o = Some n
                      /\ truthy n = true /\ obj_get "colors" o = Some (JArr cs))
  /\ (exists w' news,
        importPalettes text w
        = (Ok (mkImportResult (length (accepted records))
                 (map rejection (refused records))), w')
        /\ stored w' = JArr (existing ++ map JObj news)
        /\ Forall2 (fun p q => obj_get "name" q = obj_get "name" (own_props p))
             (accepted records) news)
  /\ (forall o, In (JObj o) records -> obj_get "name" o = Some (JStr "") ->
        In (JObj o) (refused records)
        /\ rejection (JObj o) = "Invalid palette: unnamed").
Proof.
  intros Hparse Hs Hw. split; [|split].
  - intros p. unfold accepted. rewrite filter_In, acceptable_shape. done.
  - destruct (importPalettes_stored text w records existing Hparse Hs Hw) as (w' & Hi & Hst).
    exists w', (import_from w O records). split; [done|]. split; [done|].
    apply Forall2_same_length_lookup. split.
    + by rewrite import_from_length.
    + intros k p q Hk. rewrite (import_from_lookup w O records k p Hk).
      intros [= <-].
      pose proof (accepted_acceptable _ _ _ Hk) as Hp.
      apply acceptable_shape in Hp as (o & n & cs & -> & Hn & _ & Hc).
      simpl. by rewrite Hn.
  - intros o Hin Hname. split.
    + unfold refused. apply filter_In. split; [done|]. simpl. by rewrite Hname.
    + unfold rejection. simpl. by rewrite Hname.
Qed.

(** *** Exporting and importing again *)

Lemma or_else_string x : is_string x = true -> Some (or_else x (JStr "")) = x.
Proof.
  destruct x as [[ | b | m | s | l | o]|]; try done. intros _. simpl.
  destruct (String.eqb_spec s ""); by subst.
Qed.

Lemma or_else_nonempty x d :
  is_nonempty_string x = true -> Some (or_else x d) = x.
Proof.
  destruct x as [[ | b | m | s | l | o]|]; try done. simpl. by intros ->.
Qed.

Lemma or_else_strings x d : is_strings x = true -> Some (or_else x d) = x.
Proof. by destruct x as [[ | b | m | s | l | o]|]. Qed.

Lemma or_else_category x d : is_category x = true -> Some (or_else x d) = x.
Proof.
  destruct x as [[ | b | m | s | l | o]|]; try done. simpl.
  destruct (String.eqb_spec s ""); by subst.
Qed.

Lemma valid_palette_fields p :
  valid_palette p = true ->
  is_nonempty_string (obj_get "name" p) = true
  /\ is_string (obj_get "description" p) = true
  /\ is_colors (obj_get "colors" p) = true
  /\ is_string (obj_get "colorTheory" p) = true
  /\ is_strings (obj_get "useCases" p) = true
  /\ is_category (obj_get "category" p) = true
  /\ is_nonempty_string (obj_get "createdAt" p) = true.
Proof.
  unfold valid_palette. rewrite !andb_true_iff. tauto.
Qed.

Lemma valid_acceptable p : valid_palette p = true -> acceptable (JObj p) = true.
Proof.
  intros (Hn & _ & Hc & _)%valid_palette_fields. simpl.
  destruct (obj_get "name" p) as [[ | b | m | s | l | o]|]; try done.
  destruct (obj_get "colors" p) as [[ | b' | m' | s' | l' | o']|]; try done.
  simpl in *. by rewrite Hn.
Qed.

Lemma accepted_valid (L : list Obj) :
  Forall (fun p => valid_palette p = true) L ->
  accepted (map JObj L) = map JObj L /\ refused (map JObj L) = [].
Proof.
  unfold accepted, refused.
  induction 1 as [|p L Hp _ [IH1 IH2]]; [done|]. cbn [map List.filter].
  rewrite (valid_acceptable p Hp). cbn [negb]. by rewrite IH1, IH2.
Qed.

Lemma exportPalettes_stored w :
  exportPalettes w = (Ok (JSON_stringify (stored w) 2), w).
Proof. unfold exportPalettes, bind. by rewrite getSavedPalettes_stored. Qed.

(** C1.  Round trip: the text [exportPalettes] makes of a stored list [L] of
    valid palettes, imported into an empty catalog whose storage takes the
    write, gives a stored list of the same length; its palettes agree with
    those of [L], position by position, on [name], [description], [colors],
    [colorTheory], [useCases], [category] and [createdAt]; every [id] is the
    one [generateId] made during the import and every [updatedAt] is the time
    of the import. *)
Theorem export_import_round_trip w1 w0 (L : list Obj) :
  stored w1 = JArr (map JObj L) ->
  Forall (fun p => valid_palette p = true) L ->
  stored w0 = JArr [] ->
  (L <> [] -> can_write w0 (import_text w0 [] (map JObj L)) = true) ->
  exists text w' L',
    exportPalettes w1 = (Ok text, w1)
    /\ importPalettes text w0 = (Ok (mkImportResult (length L) []), w')
    /\ stored w' = JArr (map JObj L')
    /\ length L' = length L
    /\ forall k p, L !! k = Some p ->
         exists q, L' !! k = Some q
           /\ obj_get "name" q = obj_get "name" p
           /\ obj_get "description" q = obj_get "description" p
           /\ obj_get "colors" q = obj_get "colors" p
           /\ obj_get "colorTheory" q = obj_get "colorTheory" p
           /\ obj_get "useCases" q = obj_get "useCases" p
           /\ obj_get "category" q = obj_get "category" p
           /\ obj_get "createdAt" q = obj_get "createdAt" p
           /\ obj_get "id" q = Some (JStr (fresh_id w0 k))
           /\ obj_get "updatedAt" q = Some (JStr (import_time w0 k)).
Proof.
  intros Hs1 Hvalid Hs0 Hw.
  destruct (accepted_valid L Hvalid) as [Hacc Href].
  assert (Hparse : JSON_parse (JSON_stringify (stored w1) 2) = Ok (JArr (map JObj L))).
  { by rewrite parse_stringify, Hs1. }
  destruct (importPalettes_stored _ w0 _ [] Hparse Hs0) as (w' & Hi & Hst).
  { intros Hne. apply Hw. intros ->. by rewrite Hacc in Hne. }
  rewrite Hacc, Href, length_map in Hi. simpl in Hi, Hst.
  exists (JSON_stringify (stored w1) 2), w', (import_from w0 O (map JObj L)).
  split; [apply exportPalettes_stored|]. split; [done|]. split; [done|].
  split; [by rewrite import_from_length, Hacc, length_map|].
  intros k p Hk.
  assert (Hk' : accepted (map JObj L) !! k = Some (JObj p)).
  { rewrite Hacc. clear -Hk. revert k Hk.
    induction L as [|q L IH]; intros [|k]; simpl; try done.
    - by intros [= ->].
    - apply IH. }
  exists (imported w0 k (JObj p)).
  split; [by rewrite (import_from_lookup w0 O _ k _ Hk')|].
  rewrite List.Forall_forall in Hvalid.
  assert (Hp : valid_palette p = true).
  { apply Hvalid. by apply list_elem_of_In, list_elem_of_lookup_2 with k. }
  apply valid_palette_fields in Hp as (Hn & Hd & Hc & Ht & Hu & Hcat & Hcr).
  unfold imported. simpl own_props. cbn [obj_get String.eqb Ascii.eqb Bool.eqb].
  rewrite (or_else_string _ Hd), (or_else_string _ Ht), (or_else_strings _ _ Hu),
    (or_else_category _ _ Hcat), (or_else_nonempty _ _ Hcr).
  destruct (obj_get "name" p) as [n|]; [|done].
  destruct (obj_get "colors" p) as [c|]; [|done].
  by repeat split.
Qed.

End ImportClaims.
(** ** Searching *)

Lemma append_cons x a b : String x a +:+ b = String x (a +:+ b).
Proof. done. Qed.

Lemma append_nil b : "" +:+ b = b.
Proof. done. Qed.

Lemma starts_with_spec a b : starts_with a b = true <-> exists post, b = a +:+ post.
Proof.
  revert b. induction a as [|x a IH]; intros b.
  - split; [|done]. intros _. by exists b.
  - destruct b as [|y b]; cbn [starts_with].
    + split; [done|]. intros [post H]. discriminate.
    + rewrite andb_true_iff, IH, Ascii.eqb_eq. split.
      * intros [-> [post ->]]. by exists post.
      * intros [post Hp]. rewrite append_cons in Hp. injection Hp as -> ->.
        split; [done|]. by exists post.
Qed.

Lemma includes_spec s sub :
  includes s sub = true <-> exists pre post, s = pre +:+ sub +:+ post.
Proof.
  induction s as [|x s IH].
  - cbn [includes]. rewrite orb_false_r, starts_with_spec. split.
    + intros [post Hp]. by exists "", post.
    + intros (pre & post & Hp). destruct pre; [|discriminate].
      by exists post.
  - cbn [includes]. rewrite orb_true_iff, starts_with_spec, IH. split.
    + intros [[post Hp]|(pre & post & Hp)].
      * by exists "", post.
      * exists (String x pre), post. rewrite append_cons. by f_equal.
    + intros (pre & post & Hp). destruct pre as [|y pre].
      * left. by exists post.
      * right. rewrite append_cons in Hp. injection Hp as _ Hp. by exists pre, post.
Qed.

Lemma lower_letters_app a b :
  lower_letters (a +:+ b) = lower_letters a +:+ lower_letters b.
Proof.
  induction a as [|x a IH]; [done|].
  rewrite append_cons. cbn [lower_letters]. by rewrite append_cons, IH.
Qed.

Lemma lower_letters_split T a b :
  lower_letters T = a +:+ b ->
  exists T1 T2, T = T1 +:+ T2 /\ lower_letters T1 = a /\ lower_letters T2 = b.
Proof.
  revert T. induction a as [|x a IH]; intros T.
  - intros H. by exists "", T.
  - destruct T as [|y T]; [done|]. rewrite append_cons. cbn [lower_letters].
    intros [= Hx Hrest]. destruct (IH T Hrest) as (T1 & T2 & -> & H1 & H2).
    exists (String y T1), T2. cbn [lower_letters]. by rewrite Hx, H1.
Qed.

Lemma nat_of_ascii_inj a b : nat_of_ascii a = nat_of_ascii b -> a = b.
Proof.
  intros H. rewrite <- (ascii_nat_embedding a), <- (ascii_nat_embedding b).
  by rewrite H.
Qed.

Lemma lower_ascii_nat c :
  nat_of_ascii (lower_ascii c)
  = if is_capital c then (nat_of_ascii c + 32)%nat else nat_of_ascii c.
Proof.
  unfold lower_ascii, is_capital.
  destruct ((65 <=? nat_of_ascii c)%nat && (nat_of_ascii c <=? 90)%nat) eqn:E; [|done].
  apply nat_ascii_embedding. apply andb_prop in E as [_ E%Nat.leb_le]. lia.
Qed.

(** Two characters are the same letter exactly when their small letters
    are the same. *)
Lemma same_letter_spec a b :
  same_letter a b = true <-> lower_ascii a = lower_ascii b.
Proof.
  assert (Heq : Ascii.eqb a b = true <-> nat_of_ascii a = nat_of_ascii b).
  { rewrite Ascii.eqb_eq. split; [by intros ->|apply nat_of_ascii_inj]. }
  assert (Hlow : lower_ascii a = lower_ascii b
                 <-> nat_of_ascii (lower_ascii a) = nat_of_ascii (lower_ascii b)).
  { split; [by intros ->|apply nat_of_ascii_inj]. }
  rewrite Hlow, !lower_ascii_nat. unfold same_letter.
  rewrite !orb_true_iff, !andb_true_iff, Heq, !Nat.eqb_eq. unfold is_capital.
  destruct (Nat.leb_spec 65 (nat_of_ascii a)), (Nat.leb_spec (nat_of_ascii a) 90),
    (Nat.leb_spec 65 (nat_of_ascii b)), (Nat.leb_spec (nat_of_ascii b) 90);
    cbn [andb]; intuition (try congruence; try lia).
Qed.

Lemma same_letters_spec s t :
  same_letters s t = true <-> lower_letters s = lower_letters t.
Proof.
  revert t. induction s as [|a s IH]; intros [|b t]; cbn [same_letters lower_letters];
    try done.
  rewrite andb_true_iff, same_letter_spec, IH. split.
  - by intros [-> ->].
  - by intros [= -> ->].
Qed.

Lemma plain_app a b : plain (a +:+ b) = plain a && plain b.
Proof.
  induction a as [|x a IH]; [done|].
  rewrite append_cons. cbn [plain]. by rewrite IH, andb_assoc.
Qed.

(** For the lowering of the ASCII letters, the lowered query is a part of
    the lowered text exactly when the query occurs in the text, case
    ignored. *)
Lemma lower_letters_occurs S T :
  (exists pre post, lower_letters T = pre +:+ lower_letters S +:+ post)
  <-> occurs_ci S T.
Proof.
  unfold occurs_ci. split.
  - intros (a & b & H).
    apply lower_letters_split in H as (T1 & T23 & -> & <- & H).
    apply lower_letters_split in H as (T2 & T3 & -> & H2 & <-).
    exists T1, T2, T3. split; [done|]. by apply same_letters_spec.
  - intros (pre & mid & post & -> & H). apply same_letters_spec in H.
    exists (lower_letters pre), (lower_letters post).
    by rewrite !lower_letters_app, H.
Qed.

Section SearchLaw.
Context {json : JSONBuiltin} {txt : TextBuiltin}.

(** The test [searchPalettes] applies to a text. *)
Lemma includes_lowered S T :
  includes (toLowerCase T) (toLowerCase S) = true <-> lowered_in S T.
Proof. apply includes_spec. Qed.

Lemma text_has_mentions S x :
  text_has (toLowerCase S) x = true <-> text_mentions S x.
Proof.
  unfold text_has, text_mentions.
  destruct x as [[ | b | m | t | l | o]|];
    try (split; [done | by intros (t' & [=] & _)]).
  rewrite includes_lowered. split.
  - intros H. by exists t.
  - by intros (t' & [= <-] & H).
Qed.

Lemma filter_r_total (f : JSON -> Result bool) (g : JSON -> bool) l :
  Forall (fun x => f x = Ok (g x)) l -> filter_r f l = Ok (List.filter g l).
Proof.
  induction 1 as [|x l Hx _ IH]; simpl; [done|]. by rewrite Hx, IH.
Qed.

Lemma some_total (f : JSON -> Result bool) (g : JSON -> bool) l :
  Forall (fun x => f x = Ok (g x)) l -> some f l = Ok (existsb g l).
Proof.
  induction 1 as [|x l Hx _ IH]; simpl; [done|]. rewrite Hx.
  by destruct (g x).
Qed.

Lemma field_includes_string recv o k q :
  is_string (obj_get k o) = true ->
  field_includes recv (JObj o) k q = Ok (text_has q (obj_get k o)).
Proof.
  unfold field_includes, text_has. simpl.
  by destruct (obj_get k o) as [[ | b | m | t | l | o']|].
Qed.

Lemma color_matches_searchable q c :
  searchable_color c = true -> color_matches q c = Ok (color_has q c).
Proof.
  destruct c as [ | b | m | t | l | o]; try done. simpl.
  intros [Hn Hh]%andb_prop. unfold color_matches, color_has. simpl.
  rewrite !field_includes_string by done.
  by destruct (text_has q (obj_get "name" o)).
Qed.

Lemma palette_matches_searchable q p :
  searchable p = true -> palette_matches q (JObj p) = Ok (palette_has q p).
Proof.
  unfold searchable. rewrite !andb_true_iff. intros [[[Hn Hd] Ht] Hc].
  unfold palette_matches, palette_has.
  rewrite !field_includes_string by done. simpl get_prop.
  destruct (obj_get "colors" p) as [[ | b | m | t | cs | o']|]; try done.
  simpl as_array. cbv beta iota. rewrite (some_total _ (color_has q)).
  - by destruct (text_has q (obj_get "name" p)),
         (text_has q (obj_get "description" p)),
         (text_has q (obj_get "colorTheory" p)).
  - apply List.Forall_forall. intros c Hin. apply color_matches_searchable.
    rewrite forallb_forall in Hc. by apply Hc.
Qed.

Lemma palette_has_mentions S p :
  searchable p = true ->
  palette_has (toLowerCase S) p = true <-> mentions S p.
Proof.
  unfold searchable. rewrite !andb_true_iff. intros [_ Hc].
  unfold palette_has, mentions.
  rewrite !orb_true_iff, !text_has_mentions.
  destruct (obj_get "colors" p) as [[ | b | m | t | cs | o']|]; try done.
  rewrite existsb_exists. split.
  - intros [[[H|H]|H]|(c & Hin & Hhas)]; [tauto..|].
    right. right. right.
    rewrite forallb_forall in Hc. specialize (Hc c Hin).
    destruct c as [ | b | m | t | l | o]; try done.
    unfold color_has in Hhas. simpl in Hhas.
    rewrite orb_true_iff, !text_has_mentions in Hhas. by exists cs, o.
  - intros [H|[H|[H|(cs' & c & [= <-] & Hin & Hhas)]]]; [tauto..|].
    right. exists (JObj c). split; [done|].
    unfold color_has. simpl. by rewrite orb_true_iff, !text_has_mentions.
Qed.

Lemma In_map_JObj p (ps : list Obj) : In (JObj p) (map JObj ps) <-> In p ps.
Proof.
  rewrite in_map_iff. split.
  - by intros (q & [= ->] & H).
  - intros H. by exists p.
Qed.

Lemma filter_map_JObj (g : Obj -> bool) (ps : list Obj) :
  List.filter (fun v => g (own_props v)) (map JObj ps) = map JObj (List.filter g ps).
Proof.
  induction ps as [|p ps IH]; simpl; [done|].
  destruct (g p); simpl; by rewrite IH.
Qed.

(** What the law needs of [toLowerCase]: on a text of ASCII characters it
    lowers the capitals and keeps the rest. *)
Hypothesis lower_plain :
  forall s, plain s = true -> toLowerCase s = lower_letters s.

Lemma lowered_occurs S T :
  plain S = true -> plain T = true -> lowered_in S T <-> occurs_ci S T.
Proof.
  intros HS HT. unfold lowered_in. rewrite (lower_plain S HS), (lower_plain T HT).
  apply lower_letters_occurs.
Qed.

Lemma includes_empty s : includes s "" = true.
Proof. by destruct s. Qed.

Lemma filter_empty_query (ps : list Obj) :
  Forall (fun p => searchable p = true) ps ->
  List.filter (palette_has (toLowerCase "")) ps = ps.
Proof.
  rewrite (lower_plain "" eq_refl). cbn [lower_letters].
  induction 1 as [|p ps Hp _ IH]; [done|]. cbn [List.filter].
  assert (Hhas : palette_has "" p = true).
  { unfold searchable in Hp. rewrite !andb_true_iff in Hp.
    destruct Hp as [[[Hn _] _] _]. unfold palette_has.
    destruct (obj_get "name" p) as [[ | b | m | t | l | o']|]; try done.
    cbn [text_has]. by rewrite includes_empty. }
  by rewrite Hhas, IH.
Qed.

(** C6, as the code has it.  Search membership law.  Over a catalog of
    palettes whose searched fields are texts, [searchPalettes S] returns,
    without raising and without touching the world, exactly the stored
    palettes for which the lowered [S] is a part of the lowered name,
    description or color theory, or of the lowered name or hex code of some
    color.  For a query and a text of ASCII characters this is the
    occurrence of [S] in the text, case ignored; so a palette with such a
    name is found by any case-insensitive substring of its name; and the
    empty query returns the full list. *)
Theorem search_membership_law w (ps : list Obj) S :
  stored w = JArr (map JObj ps) ->
  Forall (fun p => searchable p = true) ps ->
  exists found,
    searchPalettes S w = (Ok found, w)
    /\ (forall p, In (JObj p) found <-> In p ps /\ mentions S p)
    /\ (forall t, plain S = true -> plain t = true ->
          (lowered_in S t <-> occurs_ci S t))
    /\ (forall p t, In p ps -> obj_get "name" p = Some (JStr t) ->
          plain S = true -> plain t = true ->
          occurs_ci S t -> In (JObj p) found)
    /\ (S = "" -> found = map JObj ps).
Proof.
  intros Hs Hall.
  exists (map JObj (List.filter (palette_has (toLowerCase S)) ps)).
  assert (Hmem : forall p,
    In (JObj p) (map JObj (List.filter (palette_has (toLowerCase S)) ps))
    <-> In p ps /\ mentions S p).
  { intros p. rewrite In_map_JObj, filter_In. split.
    - intros [Hin Hhas]. split; [done|]. apply palette_has_mentions; [|done].
      rewrite List.Forall_forall in Hall. by apply Hall.
    - intros [Hin Hm]. split; [done|]. apply palette_has_mentions; [|done].
      rewrite List.Forall_forall in Hall. by apply Hall. }
  split; [|split; [done|split; [|split]]].
  - unfold searchPalettes, bind, lift.
    rewrite getSavedPalettes_stored, Hs. simpl as_array. cbv beta iota.
    rewrite (filter_r_total _ (fun v => palette_has (toLowerCase S) (own_props v))).
    + by rewrite filter_map_JObj.
    + apply List.Forall_forall. intros v Hv.
      apply in_map_iff in Hv as (p & <- & Hp).
      rewrite List.Forall_forall in Hall. by apply palette_matches_searchable, Hall.
  - intros t HS Ht. by apply lowered_occurs.
  - intros p t Hin Hname HS Ht Hocc. apply Hmem. split; [done|].
    left. exists t. split; [done|]. by apply lowered_occurs.
  - intros ->. f_equal. by apply filter_empty_query.
Qed.

End SearchLaw.

(** The sample lowering is the lowering of the ASCII letters on texts of
    ASCII characters. *)
Lemma sigma_bytes_plain c d : (nat_of_ascii c <? 128)%nat = true -> sigma_bytes c d = false.
Proof.
  intros H%Nat.ltb_lt. unfold sigma_bytes.
  destruct (Nat.eqb_spec (nat_of_ascii c) 206); [lia|done].
Qed.

Lemma lower_from_plain s :
  forall before, plain s = true -> lower_from before s = lower_letters s.
Proof.
  induction s as [|c s IH]; intros before; [done|].
  cbn [plain]. intros [Hc Hs]%andb_prop. cbn [lower_from lower_letters].
  destruct s as [|d s]; [done|].
  rewrite (sigma_bytes_plain c d Hc). f_equal. by apply IH.
Qed.

Lemma sample_lower_plain s :
  plain s = true -> toLowerCase (TextBuiltin := sample_text) s = lower_letters s.
Proof. apply lower_from_plain. Qed.

(** The sample lowering on a capital sigma: final after a cased letter at the
    end of the word, small elsewhere. *)
Example sample_lower_sigma :
  sample_toLowerCase capital_sigma = small_sigma
  /\ sample_toLowerCase (String "A" capital_sigma) = String "a" final_sigma
  /\ sample_toLowerCase (String "A" (capital_sigma +:+ "B")) = String "a" (small_sigma +:+ "b")
  /\ sample_toLowerCase (String "A" (String "." capital_sigma))
     = String "a" (String "." final_sigma)
  /\ sample_toLowerCase "Sunset #FF5733" = "sunset #ff5733".
Proof. repeat split; vm_compute; reflexivity. Qed.
(** ** The error slot of the view-model *)

Section ViewModelClaims.
Context {json : JSONBuiltin} {txt : TextBuiltin}.

Lemma setPalettes_with_error f v w :
  exists v' w', setPalettes_with f (v, w) = (Ok tt, (v', w')) /\ error v' = error v.
Proof.
  unfold setPalettes_with. simpl.
  destruct (f (palettes v) w) as [[p|msg] w']; by do 2 eexists.
Qed.

Ltac use_updater :=
  match goal with
  | |- context [setPalettes_with ?f (?v, ?w)] =>
      let v' := fresh "v" in
      let w' := fresh "w" in
      let E := fresh "E" in
      let He := fresh "He" in
      destruct (setPalettes_with_error f v w) as (v' & w' & E & He);
      rewrite E; cbn [fst snd error]; try rewrite He
  end.

(** C9, as the code has it.  After any operation of the view-model the error
    slot holds the message of the failure when the wrapped repository call
    raised; it is cleared when a save, an update or delete that returned
    [true], an import, a clear-all or a refresh got through; it is what it
    was when [updatePalette] or [deletePalette] returned [false], and after a
    search, a category filter, an export or a statistics call that got
    through. *)
Theorem view_error_slot c v w :
  error (fst (perform c (v, w)))
  = match fst (wrapped c w) with
    | Throw msg => Some msg
    | Ok true => if clears c then None else error v
    | Ok false => error v
    end.
Proof.
  destruct c as [d | id u | id | q | cat | | t | | | ];
    unfold perform, wrapped, clears.
  - unfold saveNewPalette, try_catch, bind, in_world, setError, ret, throw.
    cbn [fst snd].
    destruct (savePalette d w) as [[id|msg] w1]; [|done]. cbn [fst snd].
    destruct (getPaletteById id w1) as [[np|msg] w2]; [|done]. cbn [fst snd].
    destruct (truthy np); [|done]. by use_updater.
  - unfold updateExistingPalette, try_catch, bind, in_world, setError, ret.
    cbn [fst snd].
    destruct (updatePalette id u w) as [[[]|msg] w1]; [|done..]. by use_updater.
  - unfold removePalette, try_catch, bind, in_world, setError, ret.
    cbn [fst snd].
    destruct (deletePalette id w) as [[[]|msg] w1]; [|done..]. by use_updater.
  - unfold search, try_catch, bind, in_world, setError, ret. simpl.
    by destruct (searchPalettes q w) as [[l|msg] w1].
  - unfold getByCategory, try_catch, bind, in_world, setError, ret. simpl.
    by destruct (getPalettesByCategory cat w) as [[l|msg] w1].
  - unfold exportData, try_catch, bind, in_world, setError, ret. simpl.
    by destruct (exportPalettes w) as [[l|msg] w1].
  - unfold importData, try_catch, bind, in_world, setError, setPalettes, ret.
    cbn [fst snd].
    destruct (importPalettes t w) as [[r|msg] w1]; [|done]. cbn [fst snd].
    destruct (0 <? success r)%nat; [|done].
    cbn [fst snd]. by rewrite getSavedPalettes_stored.
  - unfold clearAll, try_catch, bind, in_world, setError, setPalettes, ret. simpl.
    by destruct (clearAllPalettes w) as [[l|msg] w1].
  - unfold getStats, try_catch, bind, in_world, setError, ret. simpl.
    by destruct (getStorageStats w) as [[l|msg] w1].
  - unfold refresh, try_catch, bind, in_world, setError, setPalettes, ret.
    cbn [fst snd]. by rewrite getSavedPalettes_stored.
Qed.

End ViewModelClaims.
(** ** Saving, deleting and clearing *)

Section Steps.
Context {json : JSONBuiltin} {txt : TextBuiltin}.

Lemma generateId_eq w :
  generateId w
  = (Ok (fresh_id w 0),
     with_issued (clock w (ticks w), substr 2 9 (random w (draws w)))
       (with_draw (with_tick w))).
Proof. unfold fresh_id. by rewrite !Nat.add_0_r. Qed.

(** [savePalette] on a catalog that is an array: an id and a time stamp are
    taken, the catalog with the new record is written, and the call raises
    when the storage rejects it. *)
Lemma savePalette_step palette w items :
  stored w = JArr items ->
  savePalette palette w
  = if can_write w (save_text w items palette)
    then (Ok (fresh_id w 0),
          with_storage (Some (save_text w items palette))
            (SetItem (save_text w items palette) true) (stamp w))
    else (Throw "Failed to save palette",
          rejected (save_text w items palette) (stamp w)).
Proof.
  intros Hs. unfold savePalette. unfold bind at 1. rewrite generateId_eq.
  unfold bind at 1, Date_toISOString, bind at 1, Date_now, ret.
  cbn [clock ticks with_issued with_draw with_tick].
  unfold bind at 1. rewrite getSavedPalettes_stored.
  fold (stamp w). rewrite (quiet_stored w (stamp w) (quiet_stamp w)), Hs.
  unfold bind at 1, lift. cbn [spread_iter]. unfold try_catch, bind, ret, throw.
  fold (saved_record (fresh_id w 0) (toISOString (clock w (S (ticks w)))) palette).
  replace (toISOString (clock w (S (ticks w)))) with (import_time w 0)
    by (unfold import_time; by rewrite Nat.add_0_r, Nat.add_1_r).
  fold (save_text w items palette).
  destruct (can_write w (save_text w items palette)) eqn:Hc.
  - rewrite setItem_accepted; [done|].
    by rewrite (quiet_can_write w (stamp w) _ (quiet_stamp w)).
  - destruct (setItem_rejected (save_text w items palette) (stamp w)) as [msg ->]; [|done].
    by rewrite (quiet_can_write w (stamp w) _ (quiet_stamp w)).
Qed.

Lemma filter_other_ids id (ps : list Obj) :
  filter_r (has_other_id id) (map JObj ps)
  = Ok (map JObj (List.filter (fun p => negb (id_is id p)) ps)).
Proof.
  induction ps as [|p ps IH]; simpl; [done|].
  unfold has_other_id at 1. rewrite has_id_obj, IH.
  by destruct (id_is id p).
Qed.

(** [deletePalette] on a catalog of objects. *)
Lemma deletePalette_step id w (ps : list Obj) :
  stored w = JArr (map JObj ps) ->
  let kept := List.filter (fun p => negb (id_is id p)) ps in
  let text := JSON_stringify (JArr (map JObj kept)) 0 in
  deletePalette id w
  = if (length kept =? length ps)%nat then (Ok false, w)
    else if can_write w text
         then (Ok true, with_storage (Some text) (SetItem text true) w)
         else (Ok false, rejected text w).
Proof.
  intros Hs kept text. unfold deletePalette, bind, lift.
  rewrite getSavedPalettes_stored, Hs. simpl as_array. cbv beta iota.
  rewrite filter_other_ids. fold kept. rewrite !length_map.
  destruct (length kept =? length ps)%nat; [done|].
  unfold try_catch. fold text.
  destruct (can_write w text) eqn:Hc.
  - by rewrite setItem_accepted.
  - by destruct (setItem_rejected text w Hc) as [msg ->].
Qed.

Lemma clearAllPalettes_step w :
  clearAllPalettes w
  = (Ok tt, if window_defined w then with_storage None RemoveItem w else w).
Proof.
  unfold clearAllPalettes, try_catch, localStorage_removeItem.
  by destruct (window_defined w).
Qed.

End Steps.
(** ** Objects *)

Lemma obj_get_set_eq k v (o : Obj) : obj_get k (obj_set k v o) = Some v.
Proof.
  induction o as [|[k' v'] o IH]; simpl.
  - by rewrite String.eqb_refl.
  - destruct (String.eqb_spec k k') as [->|Hne]; simpl.
    + by rewrite String.eqb_refl.
    + by destruct (String.eqb_spec k k').
Qed.

Lemma obj_get_set_ne k k' v (o : Obj) :
  k <> k' -> obj_get k (obj_set k' v o) = obj_get k o.
Proof.
  intros Hne. induction o as [|[k1 v1] o IH]; simpl.
  - by destruct (String.eqb_spec k k').
  - destruct (String.eqb_spec k' k1) as [->|Hne']; simpl.
    + by destruct (String.eqb_spec k k1).
    + destruct (String.eqb_spec k k1); [done|apply IH].
Qed.

Lemma obj_get_None k (o : Obj) : ~ In k (keys o) -> obj_get k o = None.
Proof.
  induction o as [|[k' v'] o IH]; simpl; [done|]. intros Hn.
  destruct (String.eqb_spec k k') as [->|_]; [tauto|]. apply IH. tauto.
Qed.





(** A spread over distinct keys: the source wins, the target fills in. *)
Lemma obj_get_spread k (t s : Obj) :
  NoDup (keys s) ->
  obj_get k (obj_spread t s)
  = match obj_get k s with
    | Some v => Some v
    | None => obj_get k t
    end.
Proof.
  unfold obj_spread. revert t. induction s as [|[k1 v1] s IH]; intros t Hnd; [done|].
  apply NoDup_cons in Hnd as [Hnotin Hnd]. cbn [fold_left fst snd].
  rewrite IH by done. cbn [obj_get].
  destruct (String.eqb_spec k k1) as [->|Hne].
  - rewrite obj_get_None; [apply obj_get_set_eq|].
    intros Hin. by apply Hnotin, list_elem_of_In.
  - by rewrite obj_get_set_ne.
Qed.

Lemma obj_get_spread_nil k (p : Obj) :
  NoDup (keys p) -> obj_get k (obj_spread [] p) = obj_get k p.
Proof. intros Hnd. rewrite obj_get_spread by done. by destruct (obj_get k p). Qed.
(** ** Histories: time stamps *)

Section Histories.
Context {json : JSONBuiltin} {txt : TextBuiltin}.

Hypothesis parse_stringify :
  forall v indent, JSON_parse (JSON_stringify v indent) = Ok v.
Hypothesis stringify_nonempty :
  forall v indent, JSON_stringify v indent <> "".








Lemma issued_rejected text w : issued (rejected text w) = issued w.
Proof. unfold rejected. by destruct (window_defined w). Qed.






Lemma map_app_JObj (ps qs : list Obj) :
  map JObj ps ++ map JObj qs = map JObj (ps ++ qs).
Proof. by rewrite map_app. Qed.




End Histories.
(** ** Histories: ids *)

Lemma append_inj_l a x y : a +:+ x = a +:+ y -> x = y.
Proof.
  induction a as [|c a IH]; [done|]. rewrite !append_cons. intros [= H]. by apply IH.
Qed.

Lemma numeric_uint u : numeric (NilEmpty.string_of_uint u) = true.
Proof. induction u; simpl; auto. Qed.

Lemma numeric_Z_to_string n : numeric (Z_to_string n) = true.
Proof.
  assert (H : forall u, numeric (NilZero.string_of_uint u) = true).
  { intros u. destruct u; try apply (numeric_uint (_ u)); done. }
  unfold Z_to_string. destruct (n <? 0)%Z; [|apply H].
  change ("-" +:+ ?x) with (String "-" x). cbn [numeric]. by rewrite H.
Qed.

(** Two texts cut at their first underscore. *)
Lemma split_at_underscore a a' s s' :
  numeric a = true -> numeric a' = true ->
  a +:+ String "_" s = a' +:+ String "_" s' -> a = a' /\ s = s'.
Proof.
  revert a'. induction a as [|c a IH]; intros [|c' a'] Ha Ha'; rewrite ?append_cons.
  - by intros [= ->].
  - intros [= <- _]. by cbn in Ha'.
  - intros [= -> _]. by cbn in Ha.
  - intros [= -> H]. cbn [numeric] in Ha, Ha'.
    apply andb_prop in Ha as [_ Ha]. apply andb_prop in Ha' as [_ Ha'].
    destruct (IH a' Ha Ha' H) as [-> ->]. done.
Qed.

Lemma append_empty_r a : a +:+ "" = a.
Proof. induction a as [|c a IH]; [done|]. by rewrite append_cons, IH. Qed.

Lemma Z_to_string_inj n m : Z_to_string n = Z_to_string m -> n = m.
Proof.
  intros H. pose proof (parse_number_Z n "" eq_refl) as Hn.
  pose proof (parse_number_Z m "" eq_refl) as Hm.
  rewrite H, Hm in Hn. by injection Hn.
Qed.

(** Two ids are the same only when made of the same time and suffix. *)
Lemma make_id_inj t s t' s' : make_id t s = make_id t' s' -> t = t' /\ s = s'.
Proof.
  unfold make_id. intros H%append_inj_l.
  apply split_at_underscore in H as [Ht ->]; [|apply numeric_Z_to_string..].
  split; [by apply Z_to_string_inj|done].
Qed.

Lemma NoDup_make_id (ds : list (Z * string)) :
  NoDup ds -> NoDup (map (fun d => make_id (fst d) (snd d)) ds).
Proof.
  induction 1 as [|d ds Hd Hnd IH]; cbn [map]; constructor; [|done].
  intros Hin. apply list_elem_of_In, in_map_iff in Hin as ([t s] & Heq & Hin).
  destruct d as [t' s']. cbn [fst snd] in Heq.
  apply make_id_inj in Heq as [-> ->]. by apply Hd, list_elem_of_In.
Qed.

Section Ids.
Context {json : JSONBuiltin} {txt : TextBuiltin}.

Hypothesis parse_stringify :
  forall v indent, JSON_parse (JSON_stringify v indent) = Ok v.
Hypothesis stringify_nonempty :
  forall v indent, JSON_stringify v indent <> "".

Lemma issued_stamp w : issued (stamp w) = issued w ++ [draw_of w 0].
Proof. unfold draw_of. by rewrite !Nat.add_0_r. Qed.

Lemma draw_of_iter_stamp n w : draw_of (Nat.iter n stamp w) 0 = draw_of w n.
Proof.
  unfold draw_of. rewrite ticks_iter_stamp, draws_iter_stamp, !Nat.add_0_r.
  destruct (quiet_iter_stamp n w) as (_ & _ & _ & -> & -> & _). done.
Qed.

Lemma issued_iter_stamp n w :
  issued (Nat.iter n stamp w) = issued w ++ map (draw_of w) (seq 0 n).
Proof.
  induction n as [|n IH]; [by rewrite app_nil_r|].
  change (Nat.iter (S n) stamp w) with (stamp (Nat.iter n stamp w)).
  rewrite issued_stamp, IH, draw_of_iter_stamp, seq_S, map_app, app_assoc.
  done.
Qed.

Lemma imported_ids w k0 records :
  Forall2 (fun p d => obj_get "id" p = Some (JStr (make_id (fst d) (snd d))))
    (import_from w k0 records)
    (map (draw_of w) (seq k0 (length (accepted records)))).
Proof.
  revert k0. induction records as [|p records IH]; intros k0; [constructor|].
  unfold accepted in *. cbn [import_from List.filter].
  destruct (acceptable p); [|apply IH].
  cbn [length seq map]. constructor; [done|apply IH].
Qed.

Lemma saved_record_id id now palette :
  obj_get "id" (saved_record id now palette) = Some (JStr id).
Proof.
  unfold saved_record. rewrite !obj_get_set_ne by done. apply obj_get_set_eq.
Qed.

(** Saving and importing keep the ids of the catalog among the issued ones. *)
Lemma exec_ids_issued op w :
  creates op = true -> ids_issued w -> ids_issued (exec op w).
Proof.
  intros Hop (ps & ds & Hs & Hsub & Hids).
  destruct op as [palette | id updates | id | text | ]; try done; unfold exec.
  - rewrite (savePalette_step palette w (map JObj ps) Hs).
    destruct (can_write w _) eqn:Hc; cbn [snd].
    + exists (ps ++ [saved_record (fresh_id w 0) (import_time w 0) palette]),
        (ds ++ [draw_of w 0]).
      split; [|split].
      * unfold save_text.
        rewrite (stored_written parse_stringify stringify_nonempty)
          by by eapply can_write_window.
        by rewrite map_app.
      * cbn [issued with_storage stamp with_tick with_issued with_draw].
        apply sublist_app; [done|]. unfold draw_of. by rewrite !Nat.add_0_r.
      * apply Forall2_app; [done|]. constructor; [|constructor].
        apply saved_record_id.
    + exists ps, ds. split; [|split; [|done]].
      * by rewrite stored_rejected, (quiet_stored w (stamp w) (quiet_stamp w)).
      * rewrite issued_rejected. cbn [issued stamp with_tick with_issued with_draw].
        by apply sublist_inserts_r.
  - destruct (JSON_parse text) as [[ | b | m | s | records | o]|msg] eqn:Hparse;
      try (destruct (importPalettes_unreadable text w) as [msg' ->];
           [intros records; congruence |];
           cbn [snd]; by exists ps, ds).
    destruct (importPalettes_batch text w records (map JObj ps) Hparse Hs)
      as (H0 & H1 & H2).
    destruct (Nat.eq_dec (length (accepted records)) O) as [Hn|Hn].
    + rewrite (H0 Hn). cbn [snd]. by exists ps, ds.
    + destruct (can_write w (import_text w (map JObj ps) records)) eqn:Hc.
      * rewrite (H1 Hn eq_refl). cbn [snd].
        exists (ps ++ import_from w O records),
          (ds ++ map (draw_of w) (seq 0 (length (accepted records)))).
        split; [|split].
        -- unfold import_text.
           rewrite (stored_written parse_stringify stringify_nonempty).
           ++ by rewrite map_app.
           ++ destruct (quiet_iter_stamp (length (accepted records)) w) as (-> & _).
              by eapply can_write_window.
        -- cbn [issued with_storage]. rewrite issued_iter_stamp.
           by apply sublist_app.
        -- apply Forall2_app; [done|apply imported_ids].
      * destruct (H2 Hn eq_refl) as [msg ->]. cbn [snd].
        exists ps, ds. split; [|split; [|done]].
        -- by rewrite stored_rejected, (quiet_stored w _ (quiet_iter_stamp _ w)).
        -- rewrite issued_rejected, issued_iter_stamp. by apply sublist_inserts_r.
Qed.

Lemma run_ids_issued ops w :
  forallb creates ops = true -> ids_issued w -> ids_issued (run ops w).
Proof.
  revert w. induction ops as [|op ops IH]; intros w Hops Hw; [done|].
  cbn [forallb] in Hops. apply andb_prop in Hops as [Hop Hops].
  simpl. apply IH; [done|]. by apply exec_ids_issued.
Qed.

End Ids.
(** ** The claims on sample worlds *)

(** A browser whose storage is full: it holds the catalog [[sunset]] and
    rejects every write. *)
Lemma update_failure_modes_witness :
  let w := full_browser in
  stored w = JArr (map JObj [sunset])
  /\ exists text w',
       (window_defined w = true ->
          storage_log w' = storage_log w ++ [SetItem text (accepts w text)])
       /\ ((can_write w text = true
            /\ updatePalette "palette_1699999999000_abc123xyz" [("name", JStr "X")] w = (Ok true, w')
            /\ localStorage w' = Some text)
           \/ (can_write w text = false
               /\ updatePalette "palette_1699999999000_abc123xyz" [("name", JStr "X")] w = (Ok false, w')
               /\ localStorage w' = localStorage w
               /\ stored w' = stored w)).
Proof.
  intros w.
  assert (Hs : stored w = JArr (map JObj [sunset])) by (vm_compute; reflexivity).
  split; [exact Hs|].
  apply (update_failure_modes "palette_1699999999000_abc123xyz" [("name", JStr "X")] w [sunset] Hs).
  exists sunset. split; [left; reflexivity | reflexivity].
Defined.

(** C5 as the spec states it fails: with a palette of the given id in the
    catalog and a storage that rejects every write, [updatePalette] returns
    [false]; it does not raise. *)
Lemma update_write_failure_does_not_raise :
  ~ (forall (w : World) (id : string) (updates : Obj) (ps : list Obj),
       stored w = JArr (map JObj ps) ->
       (exists p, In p ps /\ obj_get "id" p = Some (JStr id)) ->
       (forall text, can_write w text = false) ->
       exists msg, fst (updatePalette id updates w) = Throw msg).
Proof.
  intros H.
  destruct (H (full_browser)
              "palette_1699999999000_abc123xyz" [("name", JStr "X")] [sunset])
    as [msg Hmsg].
  - vm_compute. reflexivity.
  - exists sunset. split; [left; reflexivity | reflexivity].
  - reflexivity.
  - vm_compute in Hmsg. discriminate.
Qed.

(** The catalog [[sunset]] holds no palette with the id "nope". *)
Lemma not_found_is_signalled_witness :
  let w := browser (Some (catalog_text [sunset])) true sample_clock sample_random in
  stored w = JArr (map JObj [sunset])
  /\ updatePalette "nope" [("name", JStr "X")] w = (Ok false, w)
  /\ deletePalette "nope" w = (Ok false, w)
  /\ getPaletteById "nope" w = (Ok JNull, w)
  /\ getSavedPalettes w = (Ok (JArr (map JObj [sunset])), w).
Proof.
  intros w.
  assert (Hs : stored w = JArr (map JObj [sunset])) by (vm_compute; reflexivity).
  split; [exact Hs|].
  apply (not_found_is_signalled "nope" [("name", JStr "X")] w [sunset] Hs).
  intros p [<-|[]]. discriminate.
Defined.

(** The batch of the specification's scenario, a good record and one without
    a name, imported into an empty catalog. *)
Lemma import_validates_and_defaults_witness :
  let text := text_stringify (JArr [good_record; unnamed_record]) 2 in
  JSON_parse text = Ok (JArr [good_record; unnamed_record])
  /\ stored empty_browser = JArr []
  /\ exists w' news,
       importPalettes text empty_browser
       = (Ok (mkImportResult 1 ["Invalid palette: unnamed"]), w')
       /\ stored w' = JArr (map JObj news)
       /\ length news = 1%nat.
Proof.
  intros text.
  assert (Hp : JSON_parse text = Ok (JArr [good_record; unnamed_record]))
    by apply text_parse_stringify.
  assert (Hs : stored empty_browser = JArr []) by reflexivity.
  split; [exact Hp|]. split; [exact Hs|].
  destruct (import_validates_and_defaults (json := text_codec) text_parse_stringify text_stringify_nonempty
              text empty_browser [good_record; unnamed_record] [] Hp Hs)
    as (w' & news & Hi & Hst & Hlen & _).
  - intros _. reflexivity.
  - exists w', news. split; [exact Hi|]. split; [exact Hst | exact Hlen].
Defined.

(** C3 as the spec states it fails on two points.  A record whose
    [createdAt] is present but empty is stored with the time of the import,
    not with the value it came with.  And when the storage rejects the final
    write, the count returned is 0 although a record was accepted, and the
    only message is the one of the outer handler. *)
Lemma import_claim_fails_as_stated :
  (let text := text_stringify (JArr [undated_record]) 0 in
   obj_get "createdAt" (own_props undated_record) = Some (JStr "")
   /\ fst (importPalettes text empty_browser) = Ok (mkImportResult 1 [])
   /\ exists q,
        stored (snd (importPalettes text empty_browser)) = JArr [JObj q]
        /\ obj_get "createdAt" q = Some (JStr "2023-11-14T22:13:20.001Z"))
  /\ (let text := text_stringify (JArr [good_record]) 0 in
      length (accepted [good_record]) = 1%nat
      /\ fst (importPalettes text full_browser)
         = Ok (mkImportResult 0
                 ["Failed to parse JSON: Failed to execute 'setItem' on 'Storage': Setting the value of 'color-forge-palettes' exceeded the quota."])).
Proof.
  split.
  - split; [reflexivity|]. split; [vm_compute; reflexivity|].
    eexists. split; vm_compute; reflexivity.
  - split; [reflexivity|]. vm_compute. reflexivity.
Qed.

(** A batch with a good record and one whose name is the empty string. *)
Lemma import_accepts_truthy_name_and_array_colors_witness :
  let text := text_stringify (JArr [good_record; empty_name_record]) 0 in
  JSON_parse text = Ok (JArr [good_record; empty_name_record])
  /\ stored empty_browser = JArr []
  /\ (exists w' news,
        importPalettes text empty_browser
        = (Ok (mkImportResult 1 ["Invalid palette: unnamed"]), w')
        /\ stored w' = JArr (map JObj news))
  /\ In empty_name_record (refused [good_record; empty_name_record]).
Proof.
  intros text.
  assert (Hp : JSON_parse text = Ok (JArr [good_record; empty_name_record]))
    by apply text_parse_stringify.
  assert (Hs : stored empty_browser = JArr []) by reflexivity.
  split; [exact Hp|]. split; [exact Hs|].
  destruct (import_accepts_truthy_name_and_array_colors (json := text_codec)
              text_parse_stringify text_stringify_nonempty
              text empty_browser [good_record; empty_name_record] [] Hp Hs)
    as (_ & (w' & news & Hi & Hst & _) & Hempty).
  - intros _. reflexivity.
  - split.
    + exists w', news. split; [exact Hi | exact Hst].
    + apply (Hempty [("name", JStr ""); ("colors", JArr [])]).
      * right. left. reflexivity.
      * reflexivity.
Defined.

(** The catalog [[sunset]], exported and imported into an empty catalog. *)
Lemma export_import_round_trip_witness :
  let w1 := browser (Some (catalog_text [sunset])) true sample_clock sample_random in
  stored w1 = JArr (map JObj [sunset])
  /\ Forall (fun p => valid_palette p = true) [sunset]
  /\ stored empty_browser = JArr []
  /\ exists text w' L',
       exportPalettes w1 = (Ok text, w1)
       /\ importPalettes text empty_browser = (Ok (mkImportResult 1 []), w')
       /\ stored w' = JArr (map JObj L')
       /\ length L' = 1%nat.
Proof.
  intros w1.
  assert (Hs1 : stored w1 = JArr (map JObj [sunset])) by (vm_compute; reflexivity).
  assert (Hv : Forall (fun p => valid_palette p = true) [sunset])
    by (constructor; [reflexivity | constructor]).
  assert (Hs0 : stored empty_browser = JArr []) by reflexivity.
  split; [exact Hs1|]. split; [exact Hv|]. split; [exact Hs0|].
  destruct (export_import_round_trip (json := text_codec) text_parse_stringify text_stringify_nonempty
              w1 empty_browser [sunset] Hs1 Hv Hs0)
    as (text & w' & L' & He & Hi & Hst & Hlen & _).
  - intros _. reflexivity.
  - exists text, w', L'. split; [exact He|]. split; [exact Hi|].
    split; [exact Hst | exact Hlen].
Defined.

(** C2.  Ids are not always distinct.  In a browser whose clock gives the
    same reading to two calls of [generateId] and whose random source gives
    them the same number, two calls of [savePalette] from an empty catalog
    return the same id, and [getSavedPalettes] then lists two palettes that
    carry it. *)
Lemma ids_can_collide :
  let w1 := snd (savePalette sunrise_draft stuck_browser) in
  let w2 := snd (savePalette sunrise_draft w1) in
  stored stuck_browser = JArr []
  /\ fst (savePalette sunrise_draft stuck_browser) = Ok "palette_1700000000000_4fzyo82mv"
  /\ fst (savePalette sunrise_draft w1) = Ok "palette_1700000000000_4fzyo82mv"
  /\ exists a b,
       fst (getSavedPalettes w2) = Ok (JArr [JObj a; JObj b])
       /\ obj_get "id" a = Some (JStr "palette_1700000000000_4fzyo82mv")
       /\ obj_get "id" b = Some (JStr "palette_1700000000000_4fzyo82mv").
Proof.
  intros w1 w2. split; [reflexivity|].
  split; [vm_compute; reflexivity|]. split; [vm_compute; reflexivity|].
  do 2 eexists. split; [vm_compute; reflexivity|]. split; vm_compute; reflexivity.
Qed.

(** Searching the catalog [[sunset]] for "SUN", with the sample lowering. *)
Lemma search_membership_law_witness :
  let w := browser (Some (catalog_text [sunset])) true sample_clock sample_random in
  stored w = JArr (map JObj [sunset])
  /\ Forall (fun p => searchable p = true) [sunset]
  /\ (forall s, plain s = true -> toLowerCase s = lower_letters s)
  /\ exists found, searchPalettes "SUN" w = (Ok found, w) /\ In (JObj sunset) found.
Proof.
  intros w.
  assert (Hs : stored w = JArr (map JObj [sunset])) by (vm_compute; reflexivity).
  assert (Hall : Forall (fun p => searchable p = true) [sunset])
    by (constructor; [reflexivity | constructor]).
  split; [exact Hs|]. split; [exact Hall|]. split; [exact sample_lower_plain|].
  destruct (search_membership_law (txt := sample_text) sample_lower_plain
              w [sunset] "SUN" Hs Hall)
    as (found & Hfound & _ & _ & Hname & _).
  exists found. split; [exact Hfound|].
  apply (Hname sunset "Sunset").
  - left. reflexivity.
  - reflexivity.
  - reflexivity.
  - reflexivity.
  - exists "", "Sun", "set". split; reflexivity.
Defined.

(** C6 as the spec states it fails on two points.  A palette named with a
    capital A and a capital sigma is not found by the query of one capital
    sigma, although the query is a part of the name as it stands: the name
    is lowered with a final sigma and the query with a small one.  And a
    palette that [importPalettes] stored with a number for its name makes
    [searchPalettes] raise. *)
Lemma search_claim_fails_as_stated :
  (stored sigma_browser = JArr [JObj sigma_palette]
   /\ obj_get "name" sigma_palette = Some (JStr ("A" +:+ capital_sigma +:+ ""))
   /\ occurs_ci capital_sigma sigma_name
   /\ fst (searchPalettes capital_sigma sigma_browser) = Ok [])
  /\ (let text := text_stringify (JArr [numbered_record]) 0 in
      fst (importPalettes text empty_browser) = Ok (mkImportResult 1 [])
      /\ fst (searchPalettes "x" (snd (importPalettes text empty_browser)))
         = Throw "palette.name.toLowerCase is not a function").
Proof.
  split.
  - split; [vm_compute; reflexivity|]. split; [reflexivity|]. split.
    + exists "A", capital_sigma, "". split; reflexivity.
    + vm_compute. reflexivity.
  - split; vm_compute; reflexivity.
Qed.


(** C9 as the spec states it fails on two points.  When [deletePalette] or
    [updatePalette] returns [false] the error slot is not set: it stays
    empty.  And a search that gets through does not clear the slot: the
    earlier message stays. *)
Lemma error_slot_claim_fails :
  (fst (removePalette "nope" (ready_view, empty_browser)) = Ok false
   /\ error (fst (snd (removePalette "nope" (ready_view, empty_browser)))) = None)
  /\ (fst (updateExistingPalette "nope" [("name", JStr "X")] (ready_view, empty_browser))
      = Ok false
      /\ error (fst (snd (updateExistingPalette "nope" [("name", JStr "X")]
                            (ready_view, empty_browser)))) = None)
  /\ (fst (search "sun" (failed_view, empty_browser)) = Ok []
      /\ error (fst (snd (search "sun" (failed_view, empty_browser))))
         = Some "Failed to save palette").
Proof. repeat split; vm_compute; reflexivity. Qed.
(** * Further properties of the repository *)

Section Reading.
Context {json : JSONBuiltin} {txt : TextBuiltin}.

(** The operations that only read return the world they were given, also
    when they raise: [getSavedPalettes], [getPaletteById], [searchPalettes],
    [getPalettesByCategory], [exportPalettes] and [getStorageStats] make no
    call that writes, take no clock reading and draw no random text. *)
Theorem read_operations_leave_world w id query category :
  snd (getSavedPalettes w) = w
  /\ snd (getPaletteById id w) = w
  /\ snd (searchPalettes query w) = w
  /\ snd (getPalettesByCategory category w) = w
  /\ snd (exportPalettes w) = w
  /\ snd (getStorageStats w) = w.
Proof.
  unfold getPaletteById, searchPalettes, getPalettesByCategory, exportPalettes,
    getStorageStats, bind, lift, ret.
  rewrite !getSavedPalettes_stored. cbn [snd]. repeat split.
  - destruct (as_array "palettes" "find" (Some (stored w))) as [l|msg]; [|done].
    by destruct (find (has_id id) l).
  - destruct (as_array "palettes" "filter" (Some (stored w))) as [l|msg]; [|done].
    by destruct (filter_r _ l).
  - destruct (as_array "palettes" "filter" (Some (stored w))) as [l|msg]; [|done].
    by destruct (filter_r _ l).
  - destruct (as_array "palettes" "reduce" (Some (stored w))) as [l|msg]; [|done].
    by destruct (count_categories l []).
Qed.

(** [getSavedPalettes] never raises and validates nothing: it gives the
    empty array when there is no window, no stored text, an empty text or a
    text [JSON.parse] rejects, and otherwise whatever value the text parses
    to, array or not. *)
Theorem getSavedPalettes_degrades w :
  (window_defined w = false \/ localStorage w = None \/ localStorage w = Some ""
   \/ (exists s msg, localStorage w = Some s /\ JSON_parse s = Throw msg) ->
   getSavedPalettes w = (Ok (JArr []), w))
  /\ (forall s v, window_defined w = true -> localStorage w = Some s -> s <> "" ->
        JSON_parse s = Ok v -> getSavedPalettes w = (Ok v, w)).
Proof.
  rewrite getSavedPalettes_stored. unfold stored. split.
  - intros [-> | [-> | [-> | (s & msg & -> & Hp)]]]; try done.
    + by destruct (window_defined w).
    + by destruct (window_defined w).
    + destruct (window_defined w); [|done]. rewrite Hp. by destruct (String.eqb s "").
  - intros s v -> -> Hs ->. by destruct (String.eqb_spec s "").
Qed.

(** [clearAllPalettes] never raises; after it [getSavedPalettes] gives the
    empty array and [getStorageStats] the zero record, whose size is that of
    the text of the empty array; without a window the call changes nothing. *)
Theorem clear_empties_the_catalog w :
  exists w',
    clearAllPalettes w = (Ok tt, w')
    /\ getSavedPalettes w' = (Ok (JArr []), w')
    /\ getStorageStats w'
       = (Ok (mkStats O (String.length (JSON_stringify (JArr []) 0)) []), w')
    /\ (window_defined w = false -> w' = w)
    /\ (window_defined w = true -> localStorage w' = None).
Proof.
  rewrite clearAllPalettes_step. eexists. split; [reflexivity|].
  assert (Hs : stored (if window_defined w then with_storage None RemoveItem w else w)
               = JArr []).
  { unfold stored. destruct (window_defined w) eqn:Hw; simpl; by rewrite Hw. }
  unfold getStorageStats, bind, lift, ret. rewrite !getSavedPalettes_stored, Hs.
  repeat split; intros ->; done.
Qed.

End Reading.
(** ** Saving, finding, updating and deleting *)

Section Writing.
Context {json : JSONBuiltin} {txt : TextBuiltin}.

Hypothesis parse_stringify :
  forall v indent, JSON_parse (JSON_stringify v indent) = Ok v.
Hypothesis stringify_nonempty :
  forall v indent, JSON_stringify v indent <> "".

Lemma stored_written' v indent e w :
  window_defined w = true ->
  stored (with_storage (Some (JSON_stringify v indent)) e w) = v.
Proof. by apply stored_written. Qed.

Lemma find_index_of id (ps : list Obj) i p :
  index_of id ps = Some i -> ps !! i = Some p ->
  find (has_id id) (map JObj ps) = Ok (Some (JObj p)).
Proof.
  revert i. induction ps as [|q ps IH]; intros i; [done|]. cbn [index_of map find].
  rewrite has_id_obj. destruct (id_is id q).
  - intros [= <-] [= ->]. done.
  - destruct (index_of id ps) as [j|]; [|done]. intros [= <-] Hp. by apply (IH j).
Qed.

Lemma getPaletteById_found id w (ps : list Obj) i p :
  stored w = JArr (map JObj ps) -> index_of id ps = Some i -> ps !! i = Some p ->
  getPaletteById id w = (Ok (JObj p), w).
Proof.
  intros Hs Hi Hp. unfold getPaletteById, bind, lift.
  rewrite getSavedPalettes_stored, Hs. simpl as_array. cbv beta iota.
  by rewrite (find_index_of id ps i p Hi Hp).
Qed.

Lemma index_of_app_last id (ps : list Obj) rec :
  Forall (fun p => id_is id p = false) ps -> id_is id rec = true ->
  index_of id (ps ++ [rec]) = Some (length ps)
  /\ (ps ++ [rec]) !! length ps = Some rec.
Proof.
  intros Hall Hrec. split.
  - induction Hall as [|q ps Hq _ IH]; cbn [app index_of length].
    + by rewrite Hrec.
    + by rewrite Hq, IH.
  - rewrite lookup_app_r by lia. by rewrite Nat.sub_diag.
Qed.

Lemma filter_app_last id (ps : list Obj) rec :
  Forall (fun p => id_is id p = false) ps -> id_is id rec = true ->
  List.filter (fun p => negb (id_is id p)) (ps ++ [rec]) = ps.
Proof.
  intros Hall Hrec. induction Hall as [|q ps Hq _ IH]; cbn [app List.filter].
  - by rewrite Hrec.
  - by rewrite Hq, IH.
Qed.

Lemma filter_none id (ps : list Obj) :
  Forall (fun p => id_is id p = false) ps ->
  List.filter (fun p => negb (id_is id p)) ps = ps.
Proof.
  induction 1 as [|q ps Hq _ IH]; cbn [List.filter]; [done|]. by rewrite Hq, IH.
Qed.

Lemma saved_record_field id now (palette : Obj) k :
  NoDup (keys palette) -> set_by_save k = false ->
  obj_get k (saved_record id now palette) = obj_get k palette.
Proof.
  intros Hnd Hk. unfold set_by_save in Hk.
  apply orb_false_elim in Hk as [Hk Hu]. apply orb_false_elim in Hk as [Hi Hc].
  apply String.eqb_neq in Hi, Hc, Hu.
  unfold saved_record. rewrite !obj_get_set_ne by done. by apply obj_get_spread_nil.
Qed.

Lemma saved_record_stamps id now (palette : Obj) :
  obj_get "createdAt" (saved_record id now palette) = Some (JStr now)
  /\ obj_get "updatedAt" (saved_record id now palette) = Some (JStr now).
Proof.
  unfold saved_record. split.
  - rewrite obj_get_set_ne by done. apply obj_get_set_eq.
  - apply obj_get_set_eq.
Qed.

Lemma filter_shorter {A : Type} (f : A -> bool) (l : list A) :
  (length (List.filter f l) <= length l)%nat.
Proof.
  induction l as [|x l IH]; cbn [List.filter length]; [done|].
  destruct (f x); cbn [length]; lia.
Qed.

Lemma filter_drops {A : Type} (f : A -> bool) (l : list A) x :
  In x l -> f x = false -> (length (List.filter f l) < length l)%nat.
Proof.
  induction l as [|y l IH]; [done|]. cbn [List.filter length].
  intros [->|Hin] Hx.
  - rewrite Hx. pose proof (filter_shorter f l). lia.
  - specialize (IH Hin Hx). destruct (f y); cbn [length]; lia.
Qed.

(** Create, then find.  On a catalog of palettes none of which carries the
    id about to be made, and with a storage that takes the write,
    [savePalette] returns the new id and appends one record after the
    stored ones; [getPaletteById] of that id then returns this record; it
    has the fields of the draft, the new id, and one time stamp in both
    [createdAt] and [updatedAt]. *)
Theorem save_then_find (palette : Obj) w (ps : list Obj) :
  stored w = JArr (map JObj ps) ->
  NoDup (keys palette) ->
  Forall (fun p => id_is (fresh_id w 0) p = false) ps ->
  can_write w (save_text w (map JObj ps) palette) = true ->
  exists w' rec,
    savePalette palette w = (Ok (fresh_id w 0), w')
    /\ stored w' = JArr (map JObj (ps ++ [rec]))
    /\ getPaletteById (fresh_id w 0) w' = (Ok (JObj rec), w')
    /\ (forall k, set_by_save k = false -> obj_get k rec = obj_get k palette)
    /\ obj_get "id" rec = Some (JStr (fresh_id w 0))
    /\ obj_get "createdAt" rec = Some (JStr (import_time w 0))
    /\ obj_get "updatedAt" rec = Some (JStr (import_time w 0)).
Proof.
  intros Hs Hnd Hfresh Hc.
  set (rec := saved_record (fresh_id w 0) (import_time w 0) palette).
  pose proof (savePalette_step palette w (map JObj ps) Hs) as Hsave.
  rewrite Hc in Hsave.
  set (w' := with_storage _ _ _) in Hsave.
  assert (Hs' : stored w' = JArr (map JObj (ps ++ [rec]))).
  { unfold w', save_text. rewrite stored_written' by by eapply can_write_window.
    by rewrite map_app. }
  assert (Hid : id_is (fresh_id w 0) rec = true).
  { apply id_is_true. apply saved_record_id. }
  destruct (index_of_app_last _ ps rec Hfresh Hid) as [Hi Hl].
  exists w', rec. split; [done|]. split; [done|]. split.
  { by apply (getPaletteById_found _ w' (ps ++ [rec]) (length ps) rec). }
  split; [intros k Hk; by apply saved_record_field|].
  split; [apply saved_record_id|]. apply saved_record_stamps.
Qed.

(** When the storage rejects the write, [savePalette] raises the error
    'Failed to save palette' whatever the storage said, and the catalog is
    as before; the id and the time stamp it had taken are spent. *)
Theorem save_rejected_raises (palette : Obj) w items :
  stored w = JArr items ->
  can_write w (save_text w items palette) = false ->
  exists w',
    savePalette palette w = (Throw "Failed to save palette", w')
    /\ stored w' = JArr items
    /\ localStorage w' = localStorage w
    /\ ticks w' = (ticks w + 2)%nat
    /\ issued w' = issued w ++ [draw_of w 0].
Proof.
  intros Hs Hc. rewrite (savePalette_step palette w items Hs), Hc.
  eexists. split; [reflexivity|].
  rewrite stored_rejected, localStorage_rejected.
  split; [by rewrite (quiet_stored w (stamp w) (quiet_stamp w))|].
  split; [done|]. unfold rejected.
  destruct (window_defined (stamp w)); cbn [ticks issued with_log with_storage stamp
    with_tick with_issued with_draw]; unfold draw_of; rewrite !Nat.add_0_r;
    (split; [lia|done]).
Qed.

(** [deletePalette] removes every palette that carries the id, not only the
    first, and keeps the others in their order.  When the storage takes the
    write the call returns [true]; afterwards the id is not found and a
    second delete returns [false].  When the storage rejects the write the
    call returns [false] and the catalog is as before. *)
Theorem delete_removes_every_match id w (ps : list Obj) :
  stored w = JArr (map JObj ps) ->
  (exists p, In p ps /\ obj_get "id" p = Some (JStr id)) ->
  (can_write w (delete_text id ps) = true ->
     exists w',
       deletePalette id w = (Ok true, w')
       /\ stored w' = JArr (map JObj (List.filter (fun p => negb (id_is id p)) ps))
       /\ getPaletteById id w' = (Ok JNull, w')
       /\ deletePalette id w' = (Ok false, w'))
  /\ (can_write w (delete_text id ps) = false ->
        exists w', deletePalette id w = (Ok false, w') /\ stored w' = stored w).
Proof.
  intros Hs (p & Hin & Hp).
  pose proof (deletePalette_step id w ps Hs) as Hd. cbv zeta in Hd.
  fold (delete_text id ps) in Hd.
  set (kept := List.filter (fun p => negb (id_is id p)) ps) in *.
  assert (Hlen : (length kept =? length ps)%nat = false).
  { apply Nat.eqb_neq. apply id_is_true in Hp.
    assert (Hlt : (length kept < length ps)%nat).
    { apply (filter_drops _ ps p Hin). by rewrite Hp. }
    lia. }
  rewrite Hlen in Hd.
  assert (Hgone : Forall (fun q => id_is id q = false) kept).
  { apply List.Forall_forall. intros q [_ Hq]%filter_In.
    by apply negb_true_iff. }
  split; intros Hc; rewrite Hc in Hd.
  - eexists. split; [exact Hd|].
    assert (Hs' : stored (with_storage (Some (delete_text id ps))
                            (SetItem (delete_text id ps) true) w)
                  = JArr (map JObj kept)).
    { unfold delete_text. by rewrite stored_written' by by eapply can_write_window. }
    split; [done|]. split.
    + by eapply getPaletteById_missing.
    + by eapply deletePalette_missing.
  - eexists. split; [exact Hd|]. apply stored_rejected.
Qed.

Lemma updated_record_field now (updates p : Obj) k :
  NoDup (keys p) -> NoDup (keys updates) -> k <> "updatedAt" ->
  obj_get k (updated_record now updates p)
  = match obj_get k updates with
    | Some v => Some v
    | None => obj_get k p
    end.
Proof.
  intros Hp Hu Hk. unfold updated_record. rewrite obj_get_set_ne by done.
  rewrite obj_get_spread by done. destruct (obj_get k updates); [done|].
  by apply obj_get_spread_nil.
Qed.

(** [updatePalette] merges.  With a storage that takes the write, the first
    palette carrying the id is replaced, in place, by one whose [updatedAt]
    is the time of the call, whatever [updates] says about [updatedAt], and
    whose every other field is the one of [updates] when [updates] has it
    and the previous one otherwise. *)
Theorem update_merges_fields id (updates : Obj) w (ps : list Obj) i p :
  stored w = JArr (map JObj ps) ->
  index_of id ps = Some i -> ps !! i = Some p ->
  NoDup (keys p) -> NoDup (keys updates) ->
  can_write w (update_text w updates ps i p) = true ->
  exists w' p',
    updatePalette id updates w = (Ok true, w')
    /\ stored w' = JArr (map JObj (<[i := p']> ps))
    /\ obj_get "updatedAt" p' = Some (JStr (toISOString (clock w (ticks w))))
    /\ forall k, k <> "updatedAt" ->
         obj_get k p' = match obj_get k updates with
                        | Some v => Some v
                        | None => obj_get k p
                        end.
Proof.
  intros Hs Hi Hp Hndp Hndu Hc.
  pose proof (updatePalette_found id updates w ps i p Hs Hi Hp) as Hup.
  rewrite Hc in Hup.
  exists (with_storage (Some (update_text w updates ps i p))
            (SetItem (update_text w updates ps i p) true) (with_tick w)),
    (updated_record (toISOString (clock w (ticks w))) updates p).
  split; [done|]. split.
  { unfold update_text. by rewrite stored_written' by by eapply can_write_window. }
  split.
  { unfold updated_record. apply obj_get_set_eq. }
  intros k Hk. by apply updated_record_field.
Qed.

(** [getPaletteById] returns the first stored palette that carries the id:
    the very record [updatePalette] would replace. *)
Theorem find_returns_first_match id w (ps : list Obj) :
  stored w = JArr (map JObj ps) ->
  (exists p, In p ps /\ obj_get "id" p = Some (JStr id)) ->
  exists i p,
    getPaletteById id w = (Ok (JObj p), w)
    /\ ps !! i = Some p
    /\ obj_get "id" p = Some (JStr id)
    /\ (forall j q, (j < i)%nat -> ps !! j = Some q ->
          obj_get "id" q <> Some (JStr id))
    /\ index_of id ps = Some i.
Proof.
  intros Hs Hex. destruct (index_of_some _ _ Hex) as (i & p & Hi & Hp).
  destruct (index_of_lookup _ _ _ Hi) as (p' & Hp' & Hid & Hbefore).
  assert (p' = p) as -> by congruence.
  exists i, p. split; [by eapply getPaletteById_found|].
  split; [done|]. split; [by apply id_is_true|]. split; [|done].
  intros j q Hj Hq Hq'. apply id_is_true in Hq'.
  by rewrite (Hbefore j q Hj Hq) in Hq'.
Qed.

(** Saving a palette and deleting it again gives the catalog back, when the
    new id is not yet in the catalog and the storage takes both writes. *)
Theorem save_then_delete_restores (palette : Obj) w (ps : list Obj) :
  stored w = JArr (map JObj ps) ->
  Forall (fun p => id_is (fresh_id w 0) p = false) ps ->
  can_write w (save_text w (map JObj ps) palette) = true ->
  can_write w (JSON_stringify (JArr (map JObj ps)) 0) = true ->
  exists w1 w2,
    savePalette palette w = (Ok (fresh_id w 0), w1)
    /\ deletePalette (fresh_id w 0) w1 = (Ok true, w2)
    /\ stored w2 = stored w.
Proof.
  intros Hs Hfresh Hc1 Hc2.
  set (id := fresh_id w 0) in *.
  set (rec := saved_record id (import_time w 0) palette).
  pose proof (savePalette_step palette w (map JObj ps) Hs) as Hsave.
  rewrite Hc1 in Hsave. set (w1 := with_storage _ _ _) in Hsave.
  assert (Hs1 : stored w1 = JArr (map JObj (ps ++ [rec]))).
  { unfold w1, save_text. rewrite stored_written' by by eapply can_write_window.
    by rewrite map_app. }
  assert (Hid : id_is id rec = true).
  { apply id_is_true. apply saved_record_id. }
  pose proof (deletePalette_step id w1 (ps ++ [rec]) Hs1) as Hd. cbv zeta in Hd.
  rewrite (filter_app_last id ps rec Hfresh Hid) in Hd.
  replace (length ps =? length (ps ++ [rec]))%nat with false in Hd
    by (symmetry; apply Nat.eqb_neq; rewrite length_app; simpl; lia).
  assert (Hc2' : can_write w1 (JSON_stringify (JArr (map JObj ps)) 0) = true) by done.
  rewrite Hc2' in Hd.
  exists w1. eexists. split; [done|]. split; [exact Hd|].
  rewrite stored_written' by by eapply can_write_window. done.
Qed.

End Writing.
(** ** Categories, statistics, search order and ids *)

Lemma sublist_List_filter {A : Type} (f : A -> bool) (l : list A) :
  sublist (List.filter f l) l.
Proof.
  induction l as [|x l IH]; cbn [List.filter]; [constructor|].
  destruct (f x); by constructor.
Qed.

Lemma filter_cons_length {A : Type} (f : A -> bool) x (l : list A) :
  length (List.filter f (x :: l))
  = ((if f x then 1 else 0) + length (List.filter f l))%nat.
Proof. cbn [List.filter]. by destruct (f x). Qed.

Lemma one_category p :
  is_category (obj_get "category" p) = true ->
  list_sum (map (fun c => if category_is c p then 1%nat else O) category_names) = 1%nat.
Proof.
  unfold is_category, category_is.
  destruct (obj_get "category" p) as [[ | b | m | s | l | o]|]; try done.
  unfold category_names. cbn [existsb]. rewrite !orb_true_iff, !String.eqb_eq.
  intros [?|[?|[?|[?|[?|[?|?]]]]]]; try discriminate; subst s; reflexivity.
Qed.

Lemma substring_length n m s : (String.length (substring n m s) <= m)%nat.
Proof.
  revert n m. induction s as [|c s IH]; intros n m; destruct n, m; cbn; try lia.
  - specialize (IH O m). lia.
  - apply (IH n O).
  - apply (IH n (S m)).
Qed.

Lemma count_up_sum k acc :
  list_sum (map snd (count_up k acc)) = S (list_sum (map snd acc)).
Proof.
  induction acc as [|[k' n] acc IH]; cbn [count_up]; [done|].
  destruct (String.eqb k k'); simpl in *; lia.
Qed.

Lemma count_of_count_up c k acc :
  count_of c (count_up k acc)
  = ((if String.eqb c k then 1 else 0) + count_of c acc)%nat.
Proof.
  induction acc as [|[k' n] acc IH]; cbn [count_up count_of].
  - destruct (String.eqb c k); lia.
  - destruct (String.eqb_spec k k') as [->|Hne]; cbn [count_of].
    + destruct (String.eqb c k'); lia.
    + destruct (String.eqb_spec c k') as [->|Hne'].
      * destruct (String.eqb_spec k' k); [congruence|lia].
      * apply IH.
Qed.

Section Counting.
Context {json : JSONBuiltin} {txt : TextBuiltin}.

Lemma has_category_obj c p : has_category c (JObj p) = Ok (category_is c p).
Proof.
  unfold has_category, category_is. simpl.
  by destruct (obj_get "category" p) as [[]|].
Qed.

Lemma filter_category c (ps : list Obj) :
  filter_r (has_category c) (map JObj ps)
  = Ok (map JObj (List.filter (category_is c) ps)).
Proof.
  induction ps as [|p ps IH]; simpl; [done|].
  rewrite has_category_obj, IH. by destruct (category_is c p).
Qed.

(** [getPalettesByCategory] returns exactly the stored palettes whose
    category is the given text, in the stored order.  Over palettes whose
    category is one of the six names the six answers split the catalog:
    their lengths add up to the length of the catalog. *)
Theorem category_filter_partition w (ps : list Obj) :
  stored w = JArr (map JObj ps) ->
  (forall c, getPalettesByCategory c w
             = (Ok (map JObj (List.filter (category_is c) ps)), w))
  /\ (forall c, sublist (List.filter (category_is c) ps) ps)
  /\ (Forall (fun p => is_category (obj_get "category" p) = true) ps ->
      list_sum (map (fun c => length (List.filter (category_is c) ps)) category_names)
      = length ps).
Proof.
  intros Hs. split; [|split].
  - intros c. unfold getPalettesByCategory, bind, lift.
    rewrite getSavedPalettes_stored, Hs. simpl as_array. cbv beta iota.
    by rewrite filter_category.
  - intros c. apply sublist_List_filter.
  - clear Hs. induction 1 as [|p ps Hp _ IH]; [done|].
    pose proof (one_category p Hp) as H1.
    unfold category_names in *. cbn [map list_sum fold_right] in *.
    rewrite !filter_cons_length. cbn [length]. lia.
Qed.

Lemma count_categories_objs (ps : list Obj) acc :
  count_categories (map JObj ps) acc
  = Ok (fold_left (fun a p => count_up (category_key p) a) ps acc).
Proof.
  revert acc. induction ps as [|p ps IH]; intros acc; [done|].
  cbn [map count_categories get_prop fold_left]. apply IH.
Qed.

Lemma counts_sum (ps : list Obj) acc :
  list_sum (map snd (fold_left (fun a p => count_up (category_key p) a) ps acc))
  = (length ps + list_sum (map snd acc))%nat.
Proof.
  revert acc. induction ps as [|p ps IH]; intros acc; [done|].
  cbn [fold_left length]. rewrite IH, count_up_sum. lia.
Qed.

Lemma counts_of (ps : list Obj) acc c :
  count_of c (fold_left (fun a p => count_up (category_key p) a) ps acc)
  = (length (List.filter (fun p => String.eqb c (category_key p)) ps)
     + count_of c acc)%nat.
Proof.
  revert acc. induction ps as [|p ps IH]; intros acc; [done|].
  cbn [fold_left]. rewrite IH, count_of_count_up, filter_cons_length. lia.
Qed.

Lemma category_key_valid c p :
  is_category (obj_get "category" p) = true ->
  String.eqb c (category_key p) = category_is c p.
Proof.
  unfold is_category, category_key, category_is, prop_key.
  destruct (obj_get "category" p) as [[ | b | m | s | l | o]|]; try done.
  intros _. simpl. apply String.eqb_sym.
Qed.

(** [getStorageStats] counts every stored palette once: over palettes whose
    category is one of the six names, the total is the length of the
    catalog, the size is the length of its text, the counts add up to the
    total, and the count of a category is the number of palettes
    [getPalettesByCategory] returns for it. *)
Theorem stats_count_every_palette w (ps : list Obj) :
  stored w = JArr (map JObj ps) ->
  Forall (fun p => is_category (obj_get "category" p) = true) ps ->
  exists counts,
    getStorageStats w
    = (Ok (mkStats (length ps)
             (String.length (JSON_stringify (JArr (map JObj ps)) 0)) counts), w)
    /\ list_sum (map snd counts) = length ps
    /\ forall c, count_of c counts = length (List.filter (category_is c) ps).
Proof.
  intros Hs Hall. eexists. split; [|split].
  - unfold getStorageStats, bind, lift, ret.
    rewrite getSavedPalettes_stored, Hs. simpl as_array. cbv beta iota.
    rewrite count_categories_objs, length_map. reflexivity.
  - rewrite counts_sum. simpl. lia.
  - intros c. rewrite counts_of. cbn [count_of]. rewrite Nat.add_0_r.
    f_equal. clear Hs. induction Hall as [|p ps Hp _ IH]; [done|].
    cbn [List.filter]. rewrite (category_key_valid c p Hp), IH. done.
Qed.

(** [searchPalettes] keeps the stored order: what it finds is a
    subsequence of the catalog. *)
Theorem search_keeps_order w (ps : list Obj) query :
  stored w = JArr (map JObj ps) ->
  Forall (fun p => searchable p = true) ps ->
  exists kept,
    searchPalettes query w = (Ok (map JObj kept), w)
    /\ sublist kept ps
    /\ (length kept <= length ps)%nat.
Proof.
  intros Hs Hall. exists (List.filter (palette_has (toLowerCase query)) ps).
  split; [|split].
  - unfold searchPalettes, bind, lift.
    rewrite getSavedPalettes_stored, Hs. simpl as_array. cbv beta iota.
    rewrite (filter_r_total _ (fun v => palette_has (toLowerCase query) (own_props v))).
    + by rewrite filter_map_JObj.
    + apply List.Forall_forall. intros v Hv.
      apply in_map_iff in Hv as (p & <- & Hp).
      rewrite List.Forall_forall in Hall. by apply palette_matches_searchable, Hall.
  - apply sublist_List_filter.
  - apply filter_shorter.
Qed.

(** [generateId] makes its id of the text "palette_", the clock reading, an
    underscore and at most nine characters of the random text; it touches
    nothing of the storage.  The ids of two calls are the same exactly when
    the clock readings and these characters are. *)
Theorem generated_ids w1 w2 :
  (exists suffix w',
     generateId w1
     = (Ok ("palette_" +:+ Z_to_string (clock w1 (ticks w1)) +:+ "_" +:+ suffix), w')
     /\ suffix = substr 2 9 (random w1 (draws w1))
     /\ (String.length suffix <= 9)%nat
     /\ quiet w1 w')
  /\ (fst (generateId w1) = fst (generateId w2) <->
      clock w1 (ticks w1) = clock w2 (ticks w2)
      /\ substr 2 9 (random w1 (draws w1)) = substr 2 9 (random w2 (draws w2))).
Proof.
  split.
  - rewrite generateId_eq. unfold fresh_id, make_id. rewrite !Nat.add_0_r.
    do 2 eexists. split; [reflexivity|]. split; [done|].
    split; [apply substring_length|]. by repeat split.
  - rewrite !generateId_eq. cbn [fst]. unfold fresh_id. rewrite !Nat.add_0_r. split.
    + intros H. assert (H' : make_id (clock w1 (ticks w1)) (substr 2 9 (random w1 (draws w1)))
                           = make_id (clock w2 (ticks w2)) (substr 2 9 (random w2 (draws w2))))
        by congruence.
      by apply make_id_inj.
    + by intros [-> ->].
Qed.

End Counting.
(** ** Importing: the report *)

Section Reports.
Context {json : JSONBuiltin} {txt : TextBuiltin}.

Lemma accepted_refused_length records :
  (length (accepted records) + length (refused records))%nat = length records.
Proof.
  unfold accepted, refused. induction records as [|p records IH]; [done|].
  cbn [List.filter]. destruct (acceptable p); cbn [negb length]; lia.
Qed.

(** [importPalettes] never raises, and a report that counts no palette
    leaves the catalog as it was. *)
Lemma importPalettes_total text w :
  exists r w',
    importPalettes text w = (Ok r, w')
    /\ (success r = O -> stored w' = stored w).
Proof.
  unfold importPalettes, try_catch, bind at 1, lift.
  destruct (JSON_parse text) as [[ | b | m | s | records | o]|msg];
    try (do 2 eexists; split; [reflexivity|done]).
  unfold bind at 1. rewrite getSavedPalettes_stored.
  destruct (for_of_import_quiet records (mkImportAcc (stored w) [] O) w)
    as (acc & w1 & E & Hq & _ & _).
  unfold bind at 1. rewrite E.
  destruct (0 <? acc_success acc)%nat eqn:Hpos.
  - destruct (can_write w1 (JSON_stringify (acc_palettes acc) 0)) eqn:Hc.
    + unfold bind, ret. rewrite setItem_accepted by done.
      do 2 eexists. split; [reflexivity|]. cbn [success].
      apply Nat.ltb_lt in Hpos. lia.
    + destruct (setItem_rejected _ w1 Hc) as [msg E'].
      unfold bind, ret. rewrite E'.
      do 2 eexists. split; [reflexivity|]. intros _.
      rewrite stored_rejected. by apply quiet_stored.
  - unfold bind, ret. do 2 eexists. split; [reflexivity|]. intros _.
    by apply quiet_stored.
Qed.

(** The report of [importPalettes] accounts for every record when the
    catalog is an array and the storage takes the write: the palettes it
    counts and the messages it lists add up to the records of the text.
    When the storage refuses the write the report drops the messages of the
    loop: it counts nothing and holds one message, whatever the number of
    records. *)
Theorem import_accounts_for_every_record text w records existing :
  JSON_parse text = Ok (JArr records) ->
  stored w = JArr existing ->
  (can_write w (import_text w existing records) = true ->
     exists r w',
       importPalettes text w = (Ok r, w')
       /\ (success r + length (errors r))%nat = length records
       /\ success r = length (accepted records))
  /\ (can_write w (import_text w existing records) = false ->
      accepted records <> [] ->
      exists r w',
        importPalettes text w = (Ok r, w')
        /\ success r = O /\ length (errors r) = 1%nat
        /\ stored w' = stored w).
Proof.
  intros Hparse Hs.
  destruct (importPalettes_batch text w records existing Hparse Hs)
    as (Hnone & Hsome & Hfail).
  pose proof (accepted_refused_length records) as Hlen. split.
  - intros Hc. destruct (length (accepted records)) as [|n] eqn:Hn.
    + rewrite (Hnone eq_refl). do 2 eexists. split; [reflexivity|].
      cbn [success errors]. rewrite length_map. split; [lia|done].
    + rewrite (Hsome ltac:(done) Hc). do 2 eexists. split; [reflexivity|].
      cbn [success errors]. rewrite length_map. split; [lia|done].
  - intros Hc Hne. destruct (Hfail) as [msg E]; [|done|].
    + destruct (accepted records); [done|]. done.
    + rewrite E. do 2 eexists. split; [reflexivity|]. repeat split.
      rewrite stored_rejected. apply quiet_stored, quiet_iter_stamp.
Qed.

Lemma import_one_blocked p acc w :
  (forall l, acc_palettes acc <> JArr l) ->
  exists msg w',
    import_one p acc w
    = (Ok (mkImportAcc (acc_palettes acc) (acc_errors acc ++ [msg]) (acc_success acc)), w')
    /\ quiet w w'.
Proof.
  intros Hno. destruct (acceptable p) eqn:Hp.
  - destruct acc as [existing errs n]. cbn [acc_palettes acc_errors acc_success] in *.
    destruct p as [ | b | m | s | l | o]; try done.
    destruct existing as [ | b | m | s | l | o']; try (by destruct (Hno l));
      (unfold import_one, try_catch, bind, lift;
       simpl get_prop; cbv beta iota; rewrite acceptable_test, Hp;
       do 2 eexists; split; [reflexivity|]; by repeat split).
  - do 2 eexists. split; [by apply import_one_refused|]. apply quiet_refl.
Qed.

Lemma for_of_import_blocked records :
  forall acc w,
    (forall l, acc_palettes acc <> JArr l) ->
    exists msgs w',
      for_of records import_one acc w
      = (Ok (mkImportAcc (acc_palettes acc) (acc_errors acc ++ msgs) (acc_success acc)), w')
      /\ length msgs = length records
      /\ quiet w w'.
Proof.
  induction records as [|p records IH]; intros acc w Hno.
  - exists [], w. rewrite app_nil_r. split; [by destruct acc|].
    split; [done|apply quiet_refl].
  - destruct (import_one_blocked p acc w Hno) as (msg & w1 & E1 & Hq1).
    destruct (IH (mkImportAcc (acc_palettes acc) (acc_errors acc ++ [msg]) (acc_success acc))
                w1 Hno) as (msgs & w2 & E2 & Hlen & Hq2).
    exists (msg :: msgs), w2. cbn [for_of]. unfold bind at 1. rewrite E1, E2.
    cbn [acc_palettes acc_errors acc_success]. rewrite <- app_assoc.
    split; [done|]. split; [cbn [length]; lia|]. by eapply quiet_trans.
Qed.

(** When the stored text parses to a value that is no array, nothing can be
    imported: every record of the text, acceptable or not, costs one
    message, nothing is counted and nothing is written, though ids are
    drawn for the acceptable ones. *)
Theorem import_into_damaged_catalog text w records :
  JSON_parse text = Ok (JArr records) ->
  (forall l, stored w <> JArr l) ->
  exists msgs w',
    importPalettes text w = (Ok (mkImportResult O msgs), w')
    /\ length msgs = length records
    /\ quiet w w'
    /\ draws w' = (draws w + length (accepted records))%nat.
Proof.
  intros Hparse Hno.
  assert (Hdraws : forall rs acc w0,
    (forall l, acc_palettes acc <> JArr l) ->
    draws (snd (for_of rs import_one acc w0))
    = (draws w0 + length (accepted rs))%nat).
  { induction rs as [|p rs IH]; intros acc w0 Hacc; [cbn; lia|].
    cbn [for_of]. unfold bind at 1.
    destruct (import_one_blocked p acc w0 Hacc) as (msg & w1 & E1 & _).
    assert (Hd : draws w1 = (draws w0 + if acceptable p then 1 else 0)%nat).
    { clear IH. revert E1. destruct (acceptable p) eqn:Hp.
      - destruct acc as [existing errs n]. cbn [acc_palettes] in Hacc.
        destruct p as [ | b | m | s | l | o]; try done.
        destruct existing as [ | b | m | s | l | o']; try (by destruct (Hacc l));
          (unfold import_one, try_catch, bind, lift;
           simpl get_prop; cbv beta iota; rewrite acceptable_test, Hp;
           intros E; apply (f_equal snd) in E; cbn [snd] in E; subst w1;
           cbn; lia).
      - rewrite import_one_refused by done. intros E.
        apply (f_equal snd) in E; cbn [snd] in E; subst w1. lia. }
    rewrite E1. rewrite IH by done. rewrite Hd.
    unfold accepted. cbn [List.filter]. destruct (acceptable p); cbn [length]; lia. }
  destruct (for_of_import_blocked records (mkImportAcc (stored w) [] O) w Hno)
    as (msgs & w' & E & Hlen & Hq).
  exists msgs, w'. pose proof (Hdraws records (mkImportAcc (stored w) [] O) w Hno) as Hd.
  rewrite E in Hd. cbn [snd] in Hd.
  unfold importPalettes, try_catch, bind at 1, lift. rewrite Hparse.
  unfold bind at 1. rewrite getSavedPalettes_stored.
  unfold bind at 1. rewrite E. cbn [acc_success acc_errors acc_palettes app].
  done.
Qed.

End Reports.
(** ** The mirror of the view-model *)

Section MirrorReads.
Context {json : JSONBuiltin} {txt : TextBuiltin}.

(** Mounting and refreshing never fail: they put the stored catalog in the
    mirror and clear the error slot, mounting also ends the loading; they
    leave the storage alone.  Clearing empties both the mirror and the
    catalog.  After each of them the mirror shows what is stored. *)
Theorem loading_puts_mirror_in_step v w :
  mount (v, w) = (Ok tt, (mkView (stored w) false None, w))
  /\ refresh (v, w) = (Ok tt, (mkView (stored w) (loading v) None, w))
  /\ exists w',
       clearAll (v, w) = (Ok tt, (mkView (JArr []) (loading v) None, w'))
       /\ stored w' = JArr []
       /\ clearAllPalettes w = (Ok tt, w').
Proof.
  split; [|split].
  - unfold mount, try_catch, bind, in_world, setPalettes, setError, setLoading.
    cbn [fst snd]. by rewrite getSavedPalettes_stored.
  - unfold refresh, try_catch, bind, in_world, setPalettes, setError.
    cbn [fst snd]. by rewrite getSavedPalettes_stored.
  - unfold clearAll, try_catch, bind, in_world, setPalettes, setError.
    cbn [fst snd]. rewrite clearAllPalettes_step. cbn [fst snd palettes loading error].
    eexists. split; [reflexivity|]. split; [|done].
    unfold stored. destruct (window_defined w) eqn:Hw; simpl; by rewrite Hw.
Qed.

(** [importData] never fails and never leaves an error.  It returns the
    report of [importPalettes]; when the report counts a palette the mirror
    is read again from the storage, and when it counts none the storage has
    not changed: a mirror that showed the catalog before shows it after. *)
Theorem import_reloads_mirror text v w :
  in_step (v, w) ->
  exists r v' w',
    importData text (v, w) = (Ok r, (v', w'))
    /\ importPalettes text w = (Ok r, w')
    /\ in_step (v', w')
    /\ error v' = None
    /\ loading v' = loading v
    /\ (success r = O -> palettes v' = palettes v).
Proof.
  unfold in_step. cbn [fst snd]. intros Hstep.
  destruct (importPalettes_total text w) as (r & w' & E & Hsame).
  unfold importData, try_catch, bind, in_world, setPalettes, setError, ret.
  cbn [fst snd]. rewrite E. cbn [fst snd].
  destruct (0 <? success r)%nat eqn:Hpos.
  - cbn [fst snd]. rewrite getSavedPalettes_stored. cbn [fst snd palettes loading error].
    do 3 eexists. split; [reflexivity|]. split; [done|]. cbn [fst snd palettes].
    split; [done|]. split; [done|]. split; [done|].
    apply Nat.ltb_lt in Hpos. lia.
  - cbn [fst snd palettes loading error].
    do 3 eexists. split; [reflexivity|]. split; [done|]. cbn [fst snd palettes].
    apply Nat.ltb_ge in Hpos.
    split; [rewrite Hsame by lia; done|]. done.
Qed.

End MirrorReads.

Section MirrorWrites.
Context {json : JSONBuiltin} {txt : TextBuiltin}.

Hypothesis parse_stringify :
  forall v indent, JSON_parse (JSON_stringify v indent) = Ok v.
Hypothesis stringify_nonempty :
  forall v indent, JSON_stringify v indent <> "".

Lemma written_then_stored v indent e w :
  window_defined w = true ->
  stored (with_storage (Some (JSON_stringify v indent)) e w) = v.
Proof. by apply stored_written. Qed.

(** [saveNewPalette] keeps the mirror in step with the catalog when the new
    id is not yet in it: when the storage takes the write the record that
    was stored is appended to the mirror and the error is cleared; when it
    refuses, the call raises 'Failed to save palette', records this message
    and leaves the mirror as it was. *)
Theorem save_keeps_mirror_in_step (d : Obj) v w (ps : list Obj) :
  in_step (v, w) ->
  stored w = JArr (map JObj ps) ->
  Forall (fun p => id_is (fresh_id w 0) p = false) ps ->
  (can_write w (save_text w (map JObj ps) d) = true ->
     exists v' w',
       saveNewPalette d (v, w) = (Ok (fresh_id w 0), (v', w'))
       /\ in_step (v', w')
       /\ palettes v'
          = JArr (map JObj (ps ++ [saved_record (fresh_id w 0) (import_time w 0) d]))
       /\ error v' = None)
  /\ (can_write w (save_text w (map JObj ps) d) = false ->
      exists v' w',
        saveNewPalette d (v, w) = (Throw "Failed to save palette", (v', w'))
        /\ in_step (v', w')
        /\ palettes v' = palettes v
        /\ error v' = Some "Failed to save palette").
Proof.
  unfold in_step. cbn [fst snd]. intros Hstep Hs Hfresh.
  pose proof (savePalette_step d w (map JObj ps) Hs) as Hsave.
  set (rec := saved_record (fresh_id w 0) (import_time w 0) d).
  split; intros Hc; rewrite Hc in Hsave.
  - set (w' := with_storage _ _ _) in Hsave.
    assert (Hs' : stored w' = JArr (map JObj (ps ++ [rec]))).
    { unfold w', save_text. rewrite written_then_stored by by eapply can_write_window.
      by rewrite map_app. }
    assert (Hid : id_is (fresh_id w 0) rec = true).
    { apply id_is_true. apply saved_record_id. }
    destruct (index_of_app_last _ ps rec Hfresh Hid) as [Hi Hl].
    pose proof (getPaletteById_found _ w' (ps ++ [rec]) (length ps) rec Hs' Hi Hl) as Hfind.
    unfold saveNewPalette, try_catch, bind, in_world, setError, ret.
    cbn [fst snd]. rewrite Hsave. cbn [fst snd]. rewrite Hfind. cbn [fst snd truthy].
    unfold setPalettes_with, bind, lift, ret. cbn [fst snd].
    rewrite Hstep, Hs. cbn [spread_iter fst snd palettes loading error].
    do 2 eexists. split; [reflexivity|]. cbn [palettes error].
    rewrite Hs', map_app. done.
  - unfold saveNewPalette, try_catch, bind, in_world, setError, ret, throw.
    cbn [fst snd]. rewrite Hsave. cbn [fst snd palettes loading error].
    do 2 eexists. split; [reflexivity|]. cbn [palettes error].
    rewrite stored_rejected, (quiet_stored w (stamp w) (quiet_stamp w)). done.
Qed.

(** [removePalette] keeps the mirror in step with the catalog: it returns
    what [deletePalette] returns; on [true] it drops from the mirror the
    palettes with the id and clears the error, on [false] it changes neither
    the mirror nor the error. *)
Theorem remove_keeps_mirror_in_step id v w (ps : list Obj) :
  in_step (v, w) ->
  stored w = JArr (map JObj ps) ->
  exists b v' w',
    removePalette id (v, w) = (Ok b, (v', w'))
    /\ deletePalette id w = (Ok b, w')
    /\ in_step (v', w')
    /\ (b = true ->
        palettes v' = JArr (map JObj (List.filter (fun p => negb (id_is id p)) ps))
        /\ error v' = None)
    /\ (b = false -> v' = v).
Proof.
  unfold in_step. cbn [fst snd]. intros Hstep Hs.
  pose proof (deletePalette_step id w ps Hs) as Hd. cbv zeta in Hd.
  unfold removePalette, try_catch, bind, in_world, setError, ret. cbn [fst snd].
  destruct (length (List.filter (fun p => negb (id_is id p)) ps) =? length ps)%nat.
  { rewrite Hd. cbn [fst snd]. exists false, v, w. by destruct v. }
  destruct (can_write w _) eqn:Hc; rewrite Hd; cbn [fst snd].
  - unfold setPalettes_with, bind, lift, ret. cbn [fst snd].
    rewrite Hstep, Hs. cbn [as_array]. rewrite filter_other_ids.
    cbn [fst snd palettes loading error].
    do 3 eexists. split; [reflexivity|]. split; [done|]. cbn [palettes error].
    rewrite written_then_stored by by eapply can_write_window.
    split; [done|]. split; [done|]. done.
  - exists false, v. eexists. split; [by destruct v|]. split; [done|].
    rewrite stored_rejected. done.
Qed.

Lemma patch_other id updates (ps : list Obj) w :
  Forall (fun q => id_is id q = false) ps ->
  map_m (patch id updates) (map JObj ps) w = (Ok (map JObj ps), w).
Proof.
  induction 1 as [|q ps Hq _ IH]; [done|].
  cbn [map map_m]. unfold bind at 1, patch at 1, bind at 1, lift.
  rewrite has_id_obj, Hq. unfold ret at 1, bind at 1. rewrite IH. done.
Qed.

Lemma patch_one id updates (ps : list Obj) :
  forall i p w,
    index_of id ps = Some i -> ps !! i = Some p ->
    Forall (fun q => id_is id q = false) (drop (S i) ps) ->
    map_m (patch id updates) (map JObj ps) w
    = (Ok (map JObj
             (<[i := updated_record (toISOString (clock w (ticks w))) updates p]> ps)),
       with_tick w).
Proof.
  induction ps as [|q ps IH]; intros i p w; [done|].
  cbn [index_of map map_m]. unfold bind at 1, patch at 1, bind at 1, lift.
  rewrite has_id_obj. destruct (id_is id q) eqn:Hq.
  - intros [= <-] [= ->] Hrest. cbn [drop] in Hrest.
    unfold Date_toISOString, Date_now, bind at 1, ret at 1, bind at 1, ret at 1.
    unfold bind at 1. rewrite (patch_other id updates ps _ Hrest). done.
  - destruct (index_of id ps) as [j|] eqn:Hj; [|done].
    intros [= <-] Hp Hrest. cbn [lookup list_lookup] in Hp. cbn [drop] in Hrest.
    unfold ret at 1, bind at 1. rewrite (IH j p w eq_refl Hp Hrest). done.
Qed.

(** [updateExistingPalette] reads the clock a second time for the mirror.
    When one stored palette carries the id and the storage takes the write,
    the stored palette and the palette of the mirror are both the merge of
    the old palette and the updates, but the stored one is stamped with the
    reading [updatePalette] took and the mirrored one with the next reading
    of the clock. *)
Theorem update_mirror_takes_later_stamp id (updates : Obj) v w (ps : list Obj) i p :
  in_step (v, w) ->
  stored w = JArr (map JObj ps) ->
  index_of id ps = Some i -> ps !! i = Some p ->
  Forall (fun q => id_is id q = false) (drop (S i) ps) ->
  can_write w (update_text w updates ps i p) = true ->
  exists v' w',
    updateExistingPalette id updates (v, w) = (Ok true, (v', w'))
    /\ stored w'
       = JArr (map JObj
           (<[i := updated_record (toISOString (clock w (ticks w))) updates p]> ps))
    /\ palettes v'
       = JArr (map JObj
           (<[i := updated_record (toISOString (clock w (S (ticks w)))) updates p]> ps))
    /\ error v' = None
    /\ ticks w' = S (S (ticks w)).
Proof.
  unfold in_step. cbn [fst snd]. intros Hstep Hs Hi Hp Hrest Hc.
  pose proof (updatePalette_found id updates w ps i p Hs Hi Hp) as Hu.
  rewrite Hc in Hu. set (w1 := with_storage _ _ _) in Hu.
  unfold updateExistingPalette, try_catch, bind, in_world, setError, ret.
  cbn [fst snd]. rewrite Hu. cbn [fst snd].
  unfold setPalettes_with, bind, lift, ret. cbn [fst snd].
  rewrite Hstep, Hs. cbn [as_array].
  rewrite (patch_one id updates ps i p w1 Hi Hp Hrest).
  cbn [fst snd palettes loading error].
  do 2 eexists. split; [reflexivity|]. cbn [palettes error].
  split.
  { change (stored (with_tick w1)) with (stored w1). unfold w1, update_text.
    rewrite written_then_stored; [done|]. by eapply can_write_window. }
  done.
Qed.

End MirrorWrites.
(** ** Searching a catalog with an incomplete palette *)

Section Incomplete.
Context {json : JSONBuiltin} {txt : TextBuiltin}.

Lemma filter_r_raises (f : JSON -> Result bool) (g : JSON -> bool) l1 x l2 msg :
  Forall (fun y => f y = Ok (g y)) l1 -> f x = Throw msg ->
  filter_r f (l1 ++ x :: l2) = Throw msg.
Proof.
  intros Hall Hx. induction Hall as [|y l1 Hy _ IH]; simpl.
  - by rewrite Hx.
  - by rewrite Hy, IH.
Qed.

Lemma filter_r_keeps (f : JSON -> Result bool) (g : JSON -> bool) l1 x l2 :
  Forall (fun y => f y = Ok (g y)) l1 -> f x = Ok true ->
  Forall (fun y => f y = Ok (g y)) l2 ->
  filter_r f (l1 ++ x :: l2) = Ok (List.filter g l1 ++ x :: List.filter g l2).
Proof.
  intros Hall Hx Hall2. induction Hall as [|y l1 Hy _ IH]; simpl.
  - by rewrite Hx, (filter_r_total f g l2 Hall2).
  - rewrite Hy, IH. by destruct (g y).
Qed.

Lemma searchable_matches q (ps : list Obj) :
  Forall (fun p => searchable p = true) ps ->
  Forall (fun y => palette_matches q y = Ok (palette_has q (own_props y))) (map JObj ps).
Proof.
  intros Hall. apply List.Forall_forall. intros v Hv.
  apply in_map_iff in Hv as (p & <- & Hp).
  rewrite List.Forall_forall in Hall. by apply palette_matches_searchable, Hall.
Qed.

(** The fields of a palette are lowered one after the other and only as far
    as needed.  A stored palette without a description makes
    [searchPalettes] raise a TypeError when the query is not part of its
    name, and the view-model then answers with the empty list and records
    the message; when the query is part of its name the description is not
    read and the palette is found. *)
Theorem search_reads_fields_in_turn w (before after : list Obj) (p : Obj) name query :
  stored w = JArr (map JObj (before ++ p :: after)) ->
  Forall (fun q => searchable q = true) before ->
  obj_get "name" p = Some (JStr name) ->
  obj_get "description" p = None ->
  let msg := "Cannot read properties of undefined (reading 'toLowerCase')" in
  (includes (toLowerCase name) (toLowerCase query) = false ->
     searchPalettes query w = (Throw msg, w)
     /\ forall v, search query (v, w)
                  = (Ok [], (mkView (palettes v) (loading v) (Some msg), w)))
  /\ (includes (toLowerCase name) (toLowerCase query) = true ->
      Forall (fun q => searchable q = true) after ->
      exists found,
        searchPalettes query w = (Ok found, w) /\ In (JObj p) found).
Proof.
  intros Hs Hbefore Hname Hdesc msg.
  assert (Hrun : searchPalettes query w
                 = match filter_r (palette_matches (toLowerCase query))
                           (map JObj before ++ JObj p :: map JObj after) with
                   | Ok l => (Ok l, w)
                   | Throw m => (Throw m, w)
                   end).
  { unfold searchPalettes, bind, lift.
    rewrite getSavedPalettes_stored, Hs, map_app. simpl as_array. cbv beta iota.
    by destruct (filter_r _ _). }
  split.
  - intros Hno.
    assert (Hp : palette_matches (toLowerCase query) (JObj p) = Throw msg).
    { unfold palette_matches, field_includes. simpl get_prop.
      rewrite Hname, Hdesc. simpl. by rewrite Hno. }
    assert (Hsearch : searchPalettes query w = (Throw msg, w)).
    { rewrite Hrun.
      by rewrite (filter_r_raises _ (fun y => palette_has (toLowerCase query) (own_props y))
                    _ _ _ msg (searchable_matches _ before Hbefore) Hp). }
    split; [done|]. intros v.
    unfold search, try_catch, in_world, bind, setError, ret. cbn [fst snd].
    by rewrite Hsearch.
  - intros Hyes Hafter.
    assert (Hp : palette_matches (toLowerCase query) (JObj p) = Ok true).
    { unfold palette_matches, field_includes. simpl get_prop.
      rewrite Hname. simpl. by rewrite Hyes. }
    eexists. rewrite Hrun.
    rewrite (filter_r_keeps _ (fun y => palette_has (toLowerCase query) (own_props y))
               _ _ _ (searchable_matches _ before Hbefore) Hp
               (searchable_matches _ after Hafter)).
    split; [reflexivity|]. apply in_or_app. right. by left.
Qed.

End Incomplete.
(** ** The further properties on sample worlds *)

Ltac distinct_keys := refine (bool_decide_unpack _ _); vm_compute; exact I.

(** Rendering on the server: there is no window. *)
Lemma getSavedPalettes_degrades_witness :
  window_defined server = false
  /\ getSavedPalettes server = (Ok (JArr []), server).
Proof.
  split; [reflexivity|].
  apply (proj1 (getSavedPalettes_degrades (json := text_codec) server)).
  left. reflexivity.
Defined.

(** Clearing the catalog [[sunset]]. *)
Lemma clear_empties_the_catalog_witness :
  exists w',
    clearAllPalettes sunset_browser = (Ok tt, w')
    /\ getSavedPalettes w' = (Ok (JArr []), w')
    /\ localStorage w' = None.
Proof.
  destruct (clear_empties_the_catalog (json := text_codec) sunset_browser)
    as (w' & Hc & Hg & _ & _ & Hl).
  exists w'. split; [exact Hc|]. split; [exact Hg|]. apply Hl. reflexivity.
Defined.

(** Saving the draft in an empty catalog. *)
Lemma save_then_find_witness :
  stored empty_browser = JArr (map JObj [])
  /\ can_write empty_browser (save_text empty_browser (map JObj []) sunrise_draft) = true
  /\ exists w' rec,
       savePalette sunrise_draft empty_browser = (Ok (fresh_id empty_browser 0), w')
       /\ stored w' = JArr (map JObj ([] ++ [rec]))
       /\ getPaletteById (fresh_id empty_browser 0) w' = (Ok (JObj rec), w')
       /\ obj_get "name" rec = Some (JStr "Sunrise").
Proof.
  assert (Hs : stored empty_browser = JArr (map JObj [])) by reflexivity.
  assert (Hc : can_write empty_browser
                 (save_text empty_browser (map JObj []) sunrise_draft) = true)
    by reflexivity.
  split; [exact Hs|]. split; [exact Hc|].
  destruct (save_then_find (json := text_codec) text_parse_stringify
              text_stringify_nonempty sunrise_draft empty_browser [] Hs)
    as (w' & rec & Hsave & Hst & Hfind & Hfields & _); [distinct_keys | constructor | exact Hc |].
  exists w', rec. split; [exact Hsave|]. split; [exact Hst|]. split; [exact Hfind|].
  rewrite (Hfields "name" eq_refl). reflexivity.
Defined.

(** Saving the draft when the storage is full. *)
Lemma save_rejected_raises_witness :
  stored full_browser = JArr (map JObj [sunset])
  /\ can_write full_browser (save_text full_browser (map JObj [sunset]) sunrise_draft) = false
  /\ exists w',
       savePalette sunrise_draft full_browser = (Throw "Failed to save palette", w')
       /\ stored w' = JArr (map JObj [sunset])
       /\ ticks w' = 2%nat.
Proof.
  assert (Hs : stored full_browser = JArr (map JObj [sunset])) by (vm_compute; reflexivity).
  assert (Hc : can_write full_browser
                 (save_text full_browser (map JObj [sunset]) sunrise_draft) = false)
    by reflexivity.
  split; [exact Hs|]. split; [exact Hc|].
  destruct (save_rejected_raises (json := text_codec) sunrise_draft full_browser
              (map JObj [sunset]) Hs Hc)
    as (w' & Hsave & Hst & _ & Ht & _).
  exists w'. split; [exact Hsave|]. split; [exact Hst | exact Ht].
Defined.

(** Deleting the one palette of the catalog [[sunset]]. *)
Lemma delete_removes_every_match_witness :
  let id := "palette_1699999999000_abc123xyz" in
  stored sunset_browser = JArr (map JObj [sunset])
  /\ can_write sunset_browser (delete_text id [sunset]) = true
  /\ exists w',
       deletePalette id sunset_browser = (Ok true, w')
       /\ stored w' = JArr []
       /\ getPaletteById id w' = (Ok JNull, w')
       /\ deletePalette id w' = (Ok false, w').
Proof.
  intros id.
  assert (Hs : stored sunset_browser = JArr (map JObj [sunset])) by (vm_compute; reflexivity).
  assert (Hc : can_write sunset_browser (delete_text id [sunset]) = true) by reflexivity.
  split; [exact Hs|]. split; [exact Hc|].
  destruct (delete_removes_every_match (json := text_codec) text_parse_stringify
              text_stringify_nonempty id sunset_browser [sunset] Hs) as [Hok _].
  - exists sunset. split; [left; reflexivity | reflexivity].
  - destruct (Hok Hc) as (w' & Hd & Hst & Hfind & Hagain).
    exists w'. split; [exact Hd|]. split; [exact Hst|]. split; [exact Hfind | exact Hagain].
Defined.

(** Renaming the palette of the catalog [[sunset]]. *)
Lemma update_merges_fields_witness :
  let id := "palette_1699999999000_abc123xyz" in
  let updates := [("name", JStr "Dusk")] in
  stored sunset_browser = JArr (map JObj [sunset])
  /\ index_of id [sunset] = Some O
  /\ can_write sunset_browser (update_text sunset_browser updates [sunset] O sunset) = true
  /\ exists w' p',
       updatePalette id updates sunset_browser = (Ok true, w')
       /\ stored w' = JArr (map JObj (<[O := p']> [sunset]))
       /\ obj_get "updatedAt" p' = Some (JStr "2023-11-14T22:13:20.000Z")
       /\ obj_get "name" p' = Some (JStr "Dusk")
       /\ obj_get "createdAt" p' = Some (JStr "2023-11-14T21:59:59.000Z").
Proof.
  intros id updates.
  assert (Hs : stored sunset_browser = JArr (map JObj [sunset])) by (vm_compute; reflexivity).
  assert (Hi : index_of id [sunset] = Some O) by reflexivity.
  assert (Hc : can_write sunset_browser
                 (update_text sunset_browser updates [sunset] O sunset) = true)
    by reflexivity.
  split; [exact Hs|]. split; [exact Hi|]. split; [exact Hc|].
  destruct (update_merges_fields (json := text_codec) text_parse_stringify
              text_stringify_nonempty id updates sunset_browser [sunset] O sunset
              Hs Hi eq_refl)
    as (w' & p' & Hu & Hst & Hstamp & Hfields); [distinct_keys | distinct_keys | exact Hc |].
  exists w', p'. split; [exact Hu|]. split; [exact Hst|]. split; [exact Hstamp|].
  split.
  - rewrite (Hfields "name") by discriminate. reflexivity.
  - rewrite (Hfields "createdAt") by discriminate. reflexivity.
Defined.

(** Looking up the palette of the catalog [[sunset]]. *)
Lemma find_returns_first_match_witness :
  let id := "palette_1699999999000_abc123xyz" in
  stored sunset_browser = JArr (map JObj [sunset])
  /\ exists i p,
       getPaletteById id sunset_browser = (Ok (JObj p), sunset_browser)
       /\ [sunset] !! i = Some p
       /\ index_of id [sunset] = Some i.
Proof.
  intros id.
  assert (Hs : stored sunset_browser = JArr (map JObj [sunset])) by (vm_compute; reflexivity).
  split; [exact Hs|].
  destruct (find_returns_first_match (json := text_codec) id sunset_browser [sunset] Hs)
    as (i & p & Hfind & Hp & _ & _ & Hi).
  - exists sunset. split; [left; reflexivity | reflexivity].
  - exists i, p. split; [exact Hfind|]. split; [exact Hp | exact Hi].
Defined.

(** Saving the draft in an empty catalog and deleting it again. *)
Lemma save_then_delete_restores_witness :
  stored empty_browser = JArr (map JObj [])
  /\ exists w1 w2,
       savePalette sunrise_draft empty_browser = (Ok (fresh_id empty_browser 0), w1)
       /\ deletePalette (fresh_id empty_browser 0) w1 = (Ok true, w2)
       /\ stored w2 = stored empty_browser.
Proof.
  assert (Hs : stored empty_browser = JArr (map JObj [])) by reflexivity.
  split; [exact Hs|].
  apply (save_then_delete_restores (json := text_codec) text_parse_stringify
           text_stringify_nonempty sunrise_draft empty_browser [] Hs);
    [constructor | reflexivity | reflexivity].
Defined.

(** The catalog [[sunset]] by category. *)
Lemma category_filter_partition_witness :
  stored sunset_browser = JArr (map JObj [sunset])
  /\ getPalettesByCategory "nature" sunset_browser = (Ok [JObj sunset], sunset_browser)
  /\ getPalettesByCategory "brand" sunset_browser = (Ok [], sunset_browser)
  /\ list_sum (map (fun c => length (List.filter (category_is c) [sunset])) category_names)
     = 1%nat.
Proof.
  assert (Hs : stored sunset_browser = JArr (map JObj [sunset])) by (vm_compute; reflexivity).
  split; [exact Hs|].
  destruct (category_filter_partition (json := text_codec) sunset_browser [sunset] Hs)
    as (Hfilter & _ & Hsum).
  split; [exact (Hfilter "nature")|]. split; [exact (Hfilter "brand")|].
  apply Hsum. constructor; [reflexivity | constructor].
Defined.

(** The statistics of the catalog [[sunset]]. *)
Lemma stats_count_every_palette_witness :
  stored sunset_browser = JArr (map JObj [sunset])
  /\ exists counts,
       getStorageStats sunset_browser
       = (Ok (mkStats 1 (String.length (JSON_stringify (JArr (map JObj [sunset])) 0)) counts),
          sunset_browser)
       /\ list_sum (map snd counts) = 1%nat
       /\ count_of "nature" counts = 1%nat
       /\ count_of "brand" counts = O.
Proof.
  assert (Hs : stored sunset_browser = JArr (map JObj [sunset])) by (vm_compute; reflexivity).
  split; [exact Hs|].
  destruct (stats_count_every_palette (json := text_codec) sunset_browser [sunset] Hs)
    as (counts & Hstats & Hsum & Hof).
  - constructor; [reflexivity | constructor].
  - exists counts. split; [exact Hstats|]. split; [exact Hsum|].
    split; [exact (Hof "nature") | exact (Hof "brand")].
Defined.

(** Searching the catalog [[sunset]]. *)
Lemma search_keeps_order_witness :
  stored sunset_browser = JArr (map JObj [sunset])
  /\ exists kept,
       searchPalettes "SUN" sunset_browser = (Ok (map JObj kept), sunset_browser)
       /\ sublist kept [sunset].
Proof.
  assert (Hs : stored sunset_browser = JArr (map JObj [sunset])) by (vm_compute; reflexivity).
  split; [exact Hs|].
  destruct (search_keeps_order (json := text_codec) sunset_browser [sunset] "SUN" Hs)
    as (kept & Hsearch & Hsub & _).
  - constructor; [reflexivity | constructor].
  - exists kept. split; [exact Hsearch | exact Hsub].
Defined.

(** A batch of a good record and one without a name, imported into an empty
    catalog. *)
Lemma import_accounts_for_every_record_witness :
  let records := [good_record; unnamed_record] in
  let text := text_stringify (JArr records) 0 in
  JSON_parse text = Ok (JArr records)
  /\ stored empty_browser = JArr []
  /\ can_write empty_browser (import_text empty_browser [] records) = true
  /\ exists r w',
       importPalettes text empty_browser = (Ok r, w')
       /\ (success r + length (errors r))%nat = 2%nat
       /\ success r = 1%nat.
Proof.
  intros records text.
  assert (Hp : JSON_parse text = Ok (JArr records)) by apply text_parse_stringify.
  assert (Hs : stored empty_browser = JArr []) by reflexivity.
  assert (Hc : can_write empty_browser (import_text empty_browser [] records) = true)
    by reflexivity.
  split; [exact Hp|]. split; [exact Hs|]. split; [exact Hc|].
  destruct (import_accounts_for_every_record (json := text_codec) text empty_browser
              records [] Hp Hs) as [Hok _].
  exact (Hok Hc).
Defined.

(** The same batch imported when the storage entry holds an object. *)
Lemma import_into_damaged_catalog_witness :
  let records := [good_record; unnamed_record] in
  let text := text_stringify (JArr records) 0 in
  JSON_parse text = Ok (JArr records)
  /\ stored damaged_browser = JObj []
  /\ exists msgs w',
       importPalettes text damaged_browser = (Ok (mkImportResult O msgs), w')
       /\ length msgs = 2%nat
       /\ localStorage w' = localStorage damaged_browser
       /\ draws w' = 1%nat.
Proof.
  intros records text.
  assert (Hp : JSON_parse text = Ok (JArr records)) by apply text_parse_stringify.
  assert (Hs : stored damaged_browser = JObj []) by (vm_compute; reflexivity).
  split; [exact Hp|]. split; [exact Hs|].
  destruct (import_into_damaged_catalog (json := text_codec) text damaged_browser
              records Hp) as (msgs & w' & Hi & Hlen & Hq & Hd).
  - intros l H. rewrite Hs in H. discriminate.
  - exists msgs, w'. split; [exact Hi|]. split; [exact Hlen|].
    split; [exact (proj1 (proj2 Hq)) | exact Hd].
Defined.

(** Importing a good record through the view-model. *)
Lemma import_reloads_mirror_witness :
  let text := text_stringify (JArr [good_record]) 0 in
  in_step (ready_view, empty_browser)
  /\ exists r v' w',
       importData text (ready_view, empty_browser) = (Ok r, (v', w'))
       /\ in_step (v', w')
       /\ error v' = None.
Proof.
  intros text.
  assert (Hstep : in_step (ready_view, empty_browser)) by reflexivity.
  split; [exact Hstep|].
  destruct (import_reloads_mirror (json := text_codec) text ready_view empty_browser Hstep)
    as (r & v' & w' & Hi & _ & Hstep' & He & _).
  exists r, v', w'. split; [exact Hi|]. split; [exact Hstep' | exact He].
Defined.

(** Saving the draft through the view-model. *)
Lemma save_keeps_mirror_in_step_witness :
  in_step (ready_view, empty_browser)
  /\ stored empty_browser = JArr (map JObj [])
  /\ can_write empty_browser (save_text empty_browser (map JObj []) sunrise_draft) = true
  /\ exists v' w',
       saveNewPalette sunrise_draft (ready_view, empty_browser)
       = (Ok (fresh_id empty_browser 0), (v', w'))
       /\ in_step (v', w')
       /\ palettes v' = JArr [JObj sunrise]
       /\ error v' = None.
Proof.
  assert (Hstep : in_step (ready_view, empty_browser)) by reflexivity.
  assert (Hs : stored empty_browser = JArr (map JObj [])) by reflexivity.
  assert (Hc : can_write empty_browser
                 (save_text empty_browser (map JObj []) sunrise_draft) = true)
    by reflexivity.
  split; [exact Hstep|]. split; [exact Hs|]. split; [exact Hc|].
  destruct (save_keeps_mirror_in_step (json := text_codec) text_parse_stringify
              text_stringify_nonempty sunrise_draft ready_view empty_browser []
              Hstep Hs (List.Forall_nil _)) as [Hok _].
  exact (Hok Hc).
Defined.

(** Removing the palette of the catalog [[sunset]] through the view-model. *)
Lemma remove_keeps_mirror_in_step_witness :
  let id := "palette_1699999999000_abc123xyz" in
  in_step (sunset_view, sunset_browser)
  /\ stored sunset_browser = JArr (map JObj [sunset])
  /\ exists b v' w',
       removePalette id (sunset_view, sunset_browser) = (Ok b, (v', w'))
       /\ deletePalette id sunset_browser = (Ok b, w')
       /\ in_step (v', w').
Proof.
  intros id.
  assert (Hs : stored sunset_browser = JArr (map JObj [sunset])) by (vm_compute; reflexivity).
  assert (Hstep : in_step (sunset_view, sunset_browser)).
  { unfold in_step. cbn [fst snd]. rewrite Hs. reflexivity. }
  split; [exact Hstep|]. split; [exact Hs|].
  destruct (remove_keeps_mirror_in_step (json := text_codec) text_parse_stringify
              text_stringify_nonempty id sunset_view sunset_browser [sunset] Hstep Hs)
    as (b & v' & w' & Hr & Hd & Hstep' & _).
  exists b, v', w'. split; [exact Hr|]. split; [exact Hd | exact Hstep'].
Defined.

(** Renaming the palette of the catalog [[sunset]] through the view-model:
    the storage and the mirror hold different time stamps. *)
Lemma update_mirror_takes_later_stamp_witness :
  let id := "palette_1699999999000_abc123xyz" in
  let updates := [("name", JStr "Dusk")] in
  in_step (sunset_view, sunset_browser)
  /\ stored sunset_browser = JArr (map JObj [sunset])
  /\ exists v' w',
       updateExistingPalette id updates (sunset_view, sunset_browser) = (Ok true, (v', w'))
       /\ stored w'
          = JArr [JObj (updated_record "2023-11-14T22:13:20.000Z" updates sunset)]
       /\ palettes v'
          = JArr [JObj (updated_record "2023-11-14T22:13:20.001Z" updates sunset)].
Proof.
  intros id updates.
  assert (Hs : stored sunset_browser = JArr (map JObj [sunset])) by (vm_compute; reflexivity).
  assert (Hstep : in_step (sunset_view, sunset_browser)).
  { unfold in_step. cbn [fst snd]. rewrite Hs. reflexivity. }
  split; [exact Hstep|]. split; [exact Hs|].
  destruct (update_mirror_takes_later_stamp (json := text_codec) text_parse_stringify
              text_stringify_nonempty id updates sunset_view sunset_browser [sunset] O sunset
              Hstep Hs eq_refl eq_refl (List.Forall_nil _) eq_refl)
    as (v' & w' & Hu & Hst & Hm & _).
  exists v', w'. split; [exact Hu|]. split; [exact Hst | exact Hm].
Defined.

(** Searching a catalog whose one palette has no description. *)
Lemma search_reads_fields_in_turn_witness :
  let msg := "Cannot read properties of undefined (reading 'toLowerCase')" in
  stored bare_browser = JArr (map JObj ([] ++ bare :: []))
  /\ searchPalettes "sun" bare_browser = (Throw msg, bare_browser)
  /\ search "sun" (ready_view, bare_browser)
     = (Ok [], (mkView (JArr []) false (Some msg), bare_browser))
  /\ exists found,
       searchPalettes "BAR" bare_browser = (Ok found, bare_browser)
       /\ In (JObj bare) found.
Proof.
  intros msg.
  assert (Hs : stored bare_browser = JArr (map JObj ([] ++ bare :: [])))
    by (vm_compute; reflexivity).
  split; [exact Hs|].
  destruct (search_reads_fields_in_turn (json := text_codec) bare_browser [] [] bare
              "Bare" "sun" Hs (List.Forall_nil _) eq_refl eq_refl) as [Hno _].
  destruct (Hno eq_refl) as [Hsearch Hview].
  split; [exact Hsearch|]. split; [exact (Hview ready_view)|].
  destruct (search_reads_fields_in_turn (json := text_codec) bare_browser [] [] bare
              "Bare" "BAR" Hs (List.Forall_nil _) eq_refl eq_refl) as [_ Hyes].
  exact (Hyes eq_refl (List.Forall_nil _)).
Defined.
